(** * Shipment extraction: normalisation rules and accuracy comparison

    A shallow embedding of [extract.py], [schemas.py] and [evaluate.py]:
    the post-processing rules applied to an untrusted draft record, the
    port reference builder, and the field comparator.

    - Python values are modelled by [pyval], the values [json.loads]
      produces; exceptions by the [result] monad.
    - The text of an e-mail, which the dangerous-goods classifier reads,
      is a sequence of Unicode code points; the classes [\s], [\d] and
      [\w] and [str.lower] are Python's on ASCII and, beyond it, those
      of a [Unicode.database] the statements are quantified over.
    - The other [str] objects, the fields of a draft and the entries of
      the reference, are Rocq strings restricted to ASCII: their
      character classes, [lower], [upper] and [strip] are the ASCII ones.
    - [float] objects are IEEE 754 binary64 numbers, in the Standard
      Library's [SpecFloat] representation; [float(s)], [round(x, 2)],
      [==] and [repr] are modelled on them bit for bit.
    - A [dict] is a [gmap]; the draft and the reference are keyed by
      strings.
    - The pydantic model of [schemas.py] is a record; validation accepts
      a string (or null) for a field declared [Optional[str]] and rejects
      every other value.
    - The call to the language model and all file access stay outside:
      [process_email] starts from the parsed draft, [load_port_reference]
      and [evaluate_accuracy] from the parsed files.
    - The stand-in client [MockGroqClient] is modelled with the patterns
      it builds from the reference file; the patterns it falls back on
      when that file cannot be read depend on the order of a dictionary
      and are left out.  Its regular expressions are syntax trees run by
      a backtracking matcher; its answer is the dictionary it serialises. *)

From Stdlib Require Import ZArith Ascii String List Bool Lia DecimalString.
From Stdlib Require Import Floats.SpecFloat.
From stdpp Require Import base option gmap strings list fin_maps.

Open Scope string_scope.
Open Scope Z_scope.

(** ** Python strings (ASCII) *)

Module PyStr.

Definition code (c : ascii) : N := N_of_ascii c.

Definition in_range (lo hi : N) (c : ascii) : bool :=
  ((lo <=? code c) && (code c <=? hi))%N.

Definition is_upper (c : ascii) : bool := in_range 65 90 c.
Definition is_lower (c : ascii) : bool := in_range 97 122 c.
Definition is_digit (c : ascii) : bool := in_range 48 57 c.

(** [str.isspace] on ASCII: tab, newline, vertical tab, form feed, carriage
    return, the four separators 0x1c-0x1f, and space.  This is the class of
    [str.strip()] and of the regular expression escape [\s]. *)
Definition is_space (c : ascii) : bool :=
  in_range 9 13 c || in_range 28 31 c || (code c =? 32)%N.

(** The word characters of [\w] and [\b]: letters, digits, underscore. *)
Definition is_word (c : ascii) : bool :=
  is_upper c || is_lower c || is_digit c || (code c =? 95)%N.

Definition lower_char (c : ascii) : ascii :=
  if is_upper c then ascii_of_N (code c + 32) else c.

Definition upper_char (c : ascii) : ascii :=
  if is_lower c then ascii_of_N (code c - 32) else c.

Fixpoint map_chars (f : ascii -> ascii) (s : string) : string :=
  match s with
  | EmptyString => EmptyString
  | String c s' => String (f c) (map_chars f s')
  end.

(** [s.lower()] and [s.upper()] of a string of ASCII characters: the
    letters A-Z and a-z are mapped, every other character is kept. *)
Definition lower (s : string) : string := map_chars lower_char s.
Definition upper (s : string) : string := map_chars upper_char s.

Fixpoint lstrip (s : string) : string :=
  match s with
  | EmptyString => EmptyString
  | String c s' => if is_space c then lstrip s' else s
  end.

(** Right strip: a character is kept when it is not a space or when
    something is kept after it. *)
Fixpoint rstrip (s : string) : string :=
  match s with
  | EmptyString => EmptyString
  | String c s' =>
      match rstrip s' with
      | EmptyString => if is_space c then EmptyString else String c EmptyString
      | r => String c r
      end
  end.

(** [s.strip()] *)
Definition strip (s : string) : string := rstrip (lstrip s).

Fixpoint prefix (p s : string) : bool :=
  match p, s with
  | EmptyString, _ => true
  | String a p', String b s' => Ascii.eqb a b && prefix p' s'
  | String _ _, EmptyString => false
  end.

(** [s.startswith(p)] *)
Definition startswith (s p : string) : bool := prefix p s.

(** [sub in s] for two strings: substring test. *)
Fixpoint contains (sub s : string) : bool :=
  prefix sub s ||
  match s with
  | EmptyString => false
  | String _ s' => contains sub s'
  end.

(** [s[:n]] and [s[n:]] *)
Fixpoint take (n : nat) (s : string) : string :=
  match n, s with
  | S n', String c s' => String c (take n' s')
  | _, _ => EmptyString
  end.

Fixpoint drop (n : nat) (s : string) : string :=
  match n, s with
  | S n', String _ s' => drop n' s'
  | _, _ => s
  end.

Definition head (s : string) : option ascii :=
  match s with
  | EmptyString => None
  | String c _ => Some c
  end.

End PyStr.

(** ** Texts with arbitrary characters

    The e-mail text that the dangerous-goods classifier reads is a
    sequence of code points.  On the code points of ASCII the classes of
    [str.isspace], [str.isdecimal] and [str.isalnum] are written out; they
    are the classes of the escapes [\s], [\d] and, with the underscore,
    [\w] of a text pattern.  What the interpreter knows about the other
    code points, and [str.lower], is kept in a [database], which differs
    from one version of Unicode to the next. *)

Module Unicode.

Definition text : Type := list N.

(** The code point of a character of the source. *)
Definition chr (c : ascii) : N := N_of_ascii c.

(** A literal of the source, or a text of ASCII characters, as a text. *)
Fixpoint of_str (s : string) : text :=
  match s with
  | EmptyString => []
  | String c s' => chr c :: of_str s'
  end.

Definition within (lo hi c : N) : bool := ((lo <=? c) && (c <=? hi))%N.

Class database : Type := {
  space_above : N -> bool;
  decimal_above : N -> bool;
  alnum_above : N -> bool;
  to_lower : text -> text
}.

Section Classes.
Context {U : database}.

(** [str.isspace]: in ASCII the tab to the carriage return, the four
    separators 0x1c-0x1f and the space. *)
Definition isspace (c : N) : bool :=
  if (c <? 128)%N then within 9 13 c || within 28 32 c else space_above c.

(** [str.isdecimal] *)
Definition isdecimal (c : N) : bool :=
  if (c <? 128)%N then within 48 57 c else decimal_above c.

(** [str.isalnum] *)
Definition isalnum (c : N) : bool :=
  if (c <? 128)%N then within 48 57 c || within 65 90 c || within 97 122 c
  else alnum_above c.

End Classes.

(** [t.startswith(p)] for a literal [p] *)
Fixpoint starts (p : string) (t : text) : bool :=
  match p, t with
  | EmptyString, _ => true
  | String a p', b :: t' => (chr a =? b)%N && starts p' t'
  | String _ _, [] => false
  end.

(** [p in t] for a literal [p] *)
Fixpoint occurs (p : string) (t : text) : bool :=
  starts p t ||
  match t with
  | [] => false
  | _ :: t' => occurs p t'
  end.

Definition first (t : text) : option N :=
  match t with
  | c :: _ => Some c
  | [] => None
  end.

(** [t[n:]] *)
Fixpoint after (n : nat) (t : text) : text :=
  match n, t with
  | S n', _ :: t' => after n' t'
  | _, _ => t
  end.

(** The database on the code points below U+0100, where the versions of
    Unicode agree, with the white space of all code points; a code point
    from U+0100 on has no other class and no lower case here. *)
Definition latin1_lower (c : N) : N :=
  if within 65 90 c || within 192 214 c || within 216 222 c then (c + 32)%N
  else c.

Definition latin1 : database :=
  {| space_above c :=
       (c =? 133)%N || (c =? 160)%N || (c =? 5760)%N || within 8192 8202 c
       || within 8232 8233 c || (c =? 8239)%N || (c =? 8287)%N || (c =? 12288)%N;
     decimal_above c := false;
     alnum_above c :=
       (c =? 170)%N || within 178 179 c || (c =? 181)%N || within 185 186 c
       || within 188 190 c || within 192 214 c || within 216 246 c
       || within 248 255 c;
     to_lower := map latin1_lower |}.

End Unicode.

(** ** The fragment of Python's [re] used by the source

    Patterns are kept as the source writes them and compiled to a list of
    items: a literal character, the escapes [\s] and [\d], each optionally
    followed by [*], and the zero-width word boundary [\b]. *)

Module Re.
Import PyStr Unicode.

Inductive cls : Type :=
  | CChar (c : ascii)
  | CSpace
  | CDigit.

Inductive item : Type :=
  | One (k : cls)
  | Star (k : cls)
  | Boundary.

Definition regex : Type := list item.

Definition quantify (k : cls) (rest : string) : item * string :=
  match rest with
  | String "*" rest' => (Star k, rest')
  | _ => (One k, rest)
  end.

(** [fuel] bounds the number of items; the length of the pattern suffices. *)
Fixpoint compile_aux (fuel : nat) (p : string) : regex :=
  match fuel with
  | O => []
  | S fuel' =>
      match p with
      | EmptyString => []
      | String "\" (String "b" rest) => Boundary :: compile_aux fuel' rest
      | String "\" (String "s" rest) =>
          let '(i, rest') := quantify CSpace rest in i :: compile_aux fuel' rest'
      | String "\" (String "d" rest) =>
          let '(i, rest') := quantify CDigit rest in i :: compile_aux fuel' rest'
      | String c rest =>
          let '(i, rest') := quantify (CChar c) rest in i :: compile_aux fuel' rest'
      end
  end.

Definition compile (p : string) : regex := compile_aux (String.length p) p.

Section Matcher.
Context {U : database}.

Definition cls_match (k : cls) (c : N) : bool :=
  match k with
  | CChar d => (chr d =? c)%N
  | CSpace => isspace c
  | CDigit => isdecimal c
  end.

(** The word characters of [\w] and [\b]: the alphanumeric characters and
    the underscore. *)
Definition is_word (c : N) : bool := isalnum c || (c =? 95)%N.

(** [\b]: exactly one of the two neighbouring positions holds a word
    character; the ends of the text count as non-word. *)
Definition word_opt (c : option N) : bool :=
  match c with
  | Some c => is_word c
  | None => false
  end.

Definition at_boundary (prev next : option N) : bool :=
  xorb (word_opt prev) (word_opt next).

(** Backtracking match of [r] at the current position; [prev] is the
    character just before it.  [Star] is greedy and gives back characters
    one at a time. *)
Fixpoint star (k : cls) (rest : option N -> text -> bool)
    (prev : option N) (s : text) : bool :=
  match s with
  | c :: s' => (cls_match k c && star k rest (Some c) s') || rest prev s
  | [] => rest prev s
  end.

Fixpoint match_here (r : regex) (prev : option N) (s : text) : bool :=
  match r with
  | [] => true
  | Boundary :: r' => at_boundary prev (first s) && match_here r' prev s
  | One k :: r' =>
      match s with
      | c :: s' => cls_match k c && match_here r' (Some c) s'
      | [] => false
      end
  | Star k :: r' => star k (match_here r') prev s
  end.

Fixpoint search_from (r : regex) (prev : option N) (s : text) : bool :=
  match_here r prev s ||
  match s with
  | c :: s' => search_from r (Some c) s'
  | [] => false
  end.

(** Truth value of [re.search(pattern, text)]. *)
Definition search (pattern : string) (t : text) : bool :=
  search_from (compile pattern) None t.

End Matcher.

End Re.

(** ** Exceptions and values *)

Inductive exn : Type :=
  | AttributeError
  | TypeError
  | ValueError
  | OverflowError
  | ValidationError.

Inductive result (A : Type) : Type :=
  | Ok (a : A)
  | Raise (e : exn).
Arguments Ok {A} a.
Arguments Raise {A} e.

#[global] Instance result_ret : MRet result := fun A a => Ok a.
#[global] Instance result_bind : MBind result := fun A B f m =>
  match m with
  | Ok a => f a
  | Raise e => Raise e
  end.

#[global] Instance result_fmap : FMap result := fun A B f m =>
  match m with
  | Ok a => Ok (f a)
  | Raise e => Raise e
  end.

Definition returns {A : Type} (m : result A) : Prop := exists a, m = Ok a.

(** ** Python floats: IEEE 754 binary64 *)

Module PyFloat.

Definition prec : Z := 53.
Definition emax : Z := 1024.

Definition is_nan (x : spec_float) : bool :=
  match x with
  | S754_nan => true
  | _ => false
  end.

Definition is_inf (x : spec_float) : bool :=
  match x with
  | S754_infinity _ => true
  | _ => false
  end.

(** [math.isfinite] *)
Definition is_finite (x : spec_float) : bool :=
  match x with
  | S754_zero _ | S754_finite _ _ _ => true
  | _ => false
  end.

(** [x == y] *)
Definition eqb (x y : spec_float) : bool := SFeqb x y.

(** The double nearest to [(-1)^s * p / q], ties to even: the quotient of
    two exact integers, rounded once. *)
Definition of_ratio (s : bool) (p q : positive) : spec_float :=
  SFdiv prec emax (S754_finite s p 0) (S754_finite false q 0).

(** The double nearest to an integer; infinite when out of range. *)
Definition of_Z (z : Z) : spec_float := binary_normalize prec emax z 0 false.

(** [float(n)] for an [int]: "int too large to convert to float". *)
Definition of_int (z : Z) : result spec_float :=
  match of_Z z with
  | S754_infinity _ => Raise OverflowError
  | x => Ok x
  end.

(** Nearest integer to [a / b] for [0 <= a], ties to even. *)
Definition div_half_even (a : Z) (b : positive) : Z :=
  let q := a / Zpos b in
  let r := a mod Zpos b in
  match 2 * r ?= Zpos b with
  | Lt => q
  | Gt => q + 1
  | Eq => if Z.even q then q else q + 1
  end.

(** [2^52 <= |x|]: from there on every double is an integer. *)
Definition is_large (m : positive) (e : Z) : bool :=
  match e with
  | Zneg k => 2 ^ (52 + Zpos k) <=? Zpos m
  | _ => 2 ^ 52 <=? Zpos m * 2 ^ e
  end.

(** The integer nearest to [100 * m * 2^e], ties to even. *)
Definition scaled_cents (m : positive) (e : Z) : Z :=
  match e with
  | Zneg k => div_half_even (Zpos m * 100) (2 ^ k)%positive
  | _ => Zpos m * 2 ^ e * 100
  end.

(** [round(x, 2)].  CPython writes [x] in decimal, correctly rounded to two
    places (ties on the exact binary value go to even), and reads the
    decimal string back as the nearest double; it raises [OverflowError]
    when reading back overflows.  NaN and the infinities round to
    themselves.  A double of magnitude [2^52] or more is an integer, so its
    decimal string is exact and reads back as [x]. *)
Definition round2 (x : spec_float) : result spec_float :=
  match x with
  | S754_finite s m e =>
      if is_large m e then Ok x
      else
        match scaled_cents m e with
        | Zpos n =>
            match of_ratio s n 100 with
            | S754_infinity _ => Raise OverflowError
            | r => Ok r
            end
        | _ => Ok (S754_zero s)
        end
  | _ => Ok x
  end.

(** *** [float(s)] for a string *)

(** ASCII whitespace of the C parser: tab to carriage return, and space. *)
Definition is_c_space (c : ascii) : bool :=
  PyStr.in_range 9 13 c || (PyStr.code c =? 32)%N.

Fixpoint lstrip_c (s : string) : string :=
  match s with
  | EmptyString => EmptyString
  | String c s' => if is_c_space c then lstrip_c s' else s
  end.

Fixpoint rstrip_c (s : string) : string :=
  match s with
  | EmptyString => EmptyString
  | String c s' =>
      match rstrip_c s' with
      | EmptyString => if is_c_space c then EmptyString else String c EmptyString
      | r => String c r
      end
  end.

(** Underscores may only stand between two digits; they are dropped.
    [prev] is the previous character of the original text. *)
Fixpoint drop_underscores (prev : option ascii) (s : string) : option string :=
  match s with
  | EmptyString =>
      match prev with
      | Some "_"%char => None
      | _ => Some EmptyString
      end
  | String "_" s' =>
      match prev with
      | Some p => if PyStr.is_digit p then drop_underscores (Some "_"%char) s' else None
      | None => None
      end
  | String c s' =>
      match prev with
      | Some "_"%char =>
          if PyStr.is_digit c then String c <$> drop_underscores (Some c) s' else None
      | _ => String c <$> drop_underscores (Some c) s'
      end
  end.

Definition digit_val (c : ascii) : Z := Z.of_N (PyStr.code c) - 48.

(** Reads a run of digits: its value continued from [acc], its length, and
    the rest of the text. *)
Fixpoint digits (s : string) (acc : Z) (len : nat) : Z * nat * string :=
  match s with
  | String c s' =>
      if PyStr.is_digit c then digits s' (10 * acc + digit_val c) (S len)
      else (acc, len, s)
  | EmptyString => (acc, len, s)
  end.

Definition sign (s : string) : bool * string :=
  match s with
  | String "-" s' => (true, s')
  | String "+" s' => (false, s')
  | _ => (false, s)
  end.

(** The optional exponent part; [None] when the text does not end with a
    well-formed one. *)
Definition exponent (s : string) : option Z :=
  match s with
  | EmptyString => Some 0
  | String c s' =>
      if (Ascii.eqb c "e" || Ascii.eqb c "E")%bool then
        let '(neg, s'') := sign s' in
        match digits s'' 0 0%nat with
        | (_, O, _) => None
        | (v, _, EmptyString) => Some (if neg then - v else v)
        | _ => None
        end
      else None
  end.

(** The double nearest to [(-1)^neg * mant * 10^exp10]. *)
Definition of_decimal (neg : bool) (mant exp10 : Z) : spec_float :=
  match mant with
  | Zpos m =>
      match exp10 with
      | Zneg k => of_ratio neg m (10 ^ k)%positive
      | Z0 => of_ratio neg m 1
      | Zpos k => of_ratio neg (m * 10 ^ k)%positive 1
      end
  | _ => S754_zero neg
  end.

(** A decimal literal: digits with an optional point (at least one digit
    on either side of it) and an optional exponent. *)
Definition decimal (neg : bool) (s : string) : option spec_float :=
  let '(ip, ilen, rest) := digits s 0 0%nat in
  let '(mant, flen, rest') :=
    match rest with
    | String "." r => digits r ip 0%nat
    | _ => (ip, 0%nat, rest)
    end in
  match (ilen + flen)%nat with
  | O => None
  | _ => (fun e => of_decimal neg mant (e - Z.of_nat flen)) <$> exponent rest'
  end.

Definition inf_or_nan (neg : bool) (s : string) : option spec_float :=
  let l := PyStr.lower s in
  if (String.eqb l "inf" || String.eqb l "infinity")%bool then Some (S754_infinity neg)
  else if String.eqb l "nan" then Some S754_nan
  else None.

(** [float(s)]: "could not convert string to float" is [ValueError]. *)
Definition of_string (s : string) : result spec_float :=
  match drop_underscores None (rstrip_c (lstrip_c s)) with
  | None => Raise ValueError
  | Some t =>
      let '(neg, u) := sign t in
      match inf_or_nan neg u with
      | Some x => Ok x
      | None =>
          match decimal neg u with
          | Some x => Ok x
          | None => Raise ValueError
          end
      end
  end.

End PyFloat.

(** ** [repr] of a float and of a string *)

Module PyRepr.

Definition string_of_Z (z : Z) : string := NilZero.string_of_int (Z.to_int z).

Fixpoint zeros (n : nat) : string :=
  match n with
  | O => EmptyString
  | S n' => String "0" (zeros n')
  end.

(** Removes the zeros that end a digit string. *)
Fixpoint strip_zeros (s : string) : string :=
  match s with
  | EmptyString => EmptyString
  | String c s' =>
      match strip_zeros s' with
      | EmptyString => if Ascii.eqb c "0" then EmptyString else String c EmptyString
      | r => String c r
      end
  end.

Definition num_digits (z : Z) : Z := Z.of_nat (String.length (string_of_Z z)).

(** [x = num / den] scaled by [10^(-t)], as a fraction. *)
Definition scaled (num den t : Z) : Z * Z :=
  if 0 <=? t then (num, den * 10 ^ t) else (num * 10 ^ (- t), den).

(** The [p] with [10^p <= num / den < 10^(p+1)]. *)
Definition floor_log10 (num den : Z) : Z :=
  let p := num_digits num - num_digits den in
  let '(n, d) := scaled num den p in
  if d <=? n then p else p - 1.

Definition round_trips (x : spec_float) (c t : Z) : bool :=
  PyFloat.eqb (PyFloat.of_decimal false c t) x.

(** The decimal with [k] significant digits nearest to [x = num / den]
    among those that read back as [x], as (digits, exponent of ten). *)
Definition candidate (x : spec_float) (num den : Z) (k : Z) : option (Z * Z) :=
  let t := floor_log10 num den - k + 1 in
  let '(n, d) := scaled num den t in
  let lo := n / d in
  let hi := lo + 1 in
  let up :=
    match 2 * (n mod d) ?= d with
    | Lt => false
    | Gt => true
    | Eq => Z.odd lo
    end in
  match round_trips x lo t, round_trips x hi t with
  | true, true => Some (if up then hi else lo, t)
  | true, false => Some (lo, t)
  | false, true => Some (hi, t)
  | false, false => None
  end.

Fixpoint shortest (x : spec_float) (num den : Z) (k : Z) (fuel : nat) : Z * Z :=
  match fuel with
  | O => (0, 0)
  | S fuel' =>
      match candidate x num den k with
      | Some r => r
      | None => shortest x num den (k + 1) fuel'
      end
  end.

(** Layout of [repr]: the digits and the position of the decimal point;
    exponent notation when the point lies more than 16 places to the right
    of the first digit or 4 or more places to the left of it. *)
Definition layout (ds : string) (decpt : Z) : string :=
  let nd := Z.of_nat (String.length ds) in
  if (decpt <=? -4) || (16 <? decpt) then
    let e := decpt - 1 in
    let mant :=
      match ds with
      | String c EmptyString => ds
      | String c rest => String c (String "." rest)
      | EmptyString => ds
      end in
    let ex := string_of_Z (Z.abs e) in
    mant ++ "e" ++ (if e <? 0 then "-" else "+")
         ++ (if Z.abs e <? 10 then "0" else "") ++ ex
  else if decpt <=? 0 then "0." ++ zeros (Z.to_nat (- decpt)) ++ ds
  else if nd <=? decpt then ds ++ zeros (Z.to_nat (decpt - nd)) ++ ".0"
  else PyStr.take (Z.to_nat decpt) ds ++ "." ++ PyStr.drop (Z.to_nat decpt) ds.

(** [repr(x)]: the shortest decimal that reads back as [x]. *)
Definition float_repr (x : spec_float) : string :=
  match x with
  | S754_nan => "nan"
  | S754_infinity s => if s then "-inf" else "inf"
  | S754_zero s => if s then "-0.0" else "0.0"
  | S754_finite s m e =>
      let '(num, den) :=
        match e with
        | Zneg k => (Zpos m, 2 ^ Zpos k)
        | _ => (Zpos m * 2 ^ e, 1)
        end in
      let '(c, t) := shortest (S754_finite false m e) num den 1 17 in
      let ds := strip_zeros (string_of_Z c) in
      (if s then "-" else "") ++ layout ds (num_digits c + t)
  end.

Definition hex_digit (n : N) : ascii :=
  ascii_of_N (if (n <? 10)%N then 48 + n else 87 + n).

(** One character inside a string literal quoted with [q]. *)
Definition escape (q c : ascii) : string :=
  let n := PyStr.code c in
  if (Ascii.eqb c "\" || Ascii.eqb c q)%bool then String "\" (String c EmptyString)
  else if (n =? 9)%N then "\t"
  else if (n =? 10)%N then "\n"
  else if (n =? 13)%N then "\r"
  else if ((n <? 32) || (126 <? n))%N then
    String "\" (String "x" (String (hex_digit (n / 16)) (String (hex_digit (n mod 16)) EmptyString)))
  else String c EmptyString.

Fixpoint escape_all (q : ascii) (s : string) : string :=
  match s with
  | EmptyString => EmptyString
  | String c s' => escape q c ++ escape_all q s'
  end.

(** [repr(s)]: single quotes, unless the text has a single quote and no
    double quote. *)
Definition str_repr (s : string) : string :=
  let dq : ascii := ascii_of_N 34 in
  let q : ascii :=
    if PyStr.contains "'" s && negb (PyStr.contains (String dq EmptyString) s)
    then dq else "'"%char in
  String q (escape_all q s ++ String q EmptyString).

End PyRepr.

(** ** Python values, as [json.loads] produces them *)

#[local] Set Warnings "-register-all".
Inductive pyval : Type :=
  | VNone
  | VBool (b : bool)
  | VInt (z : Z)
  | VFloat (x : spec_float)
  | VStr (s : string)
  | VList (l : list pyval)
  | VDict (d : list (string * pyval)).

(** Truth value of an object in a condition. *)
Definition truthy (v : pyval) : bool :=
  match v with
  | VNone => false
  | VBool b => b
  | VInt z => negb (z =? 0)
  | VFloat (S754_zero _) => false
  | VFloat _ => true
  | VStr s => negb (String.eqb s "")
  | VList l => match l with [] => false | _ => true end
  | VDict d => match d with [] => false | _ => true end
  end.

Definition of_opt_str (o : option string) : pyval :=
  match o with
  | Some s => VStr s
  | None => VNone
  end.

(** [d.get(key)]: the value, or [None] for a missing key. *)
Definition dict_get (d : gmap string pyval) (key : string) : pyval :=
  default VNone (d !! key).

(** [float(val)] *)
Definition py_float (val : pyval) : result spec_float :=
  match val with
  | VBool b => Ok (PyFloat.of_Z (if b then 1 else 0))
  | VInt z => PyFloat.of_int z
  | VFloat x => Ok x
  | VStr s => PyFloat.of_string s
  | VNone | VList _ | VDict _ => Raise TypeError
  end.

(** [repr(val)] *)
Fixpoint py_repr (val : pyval) : string :=
  match val with
  | VNone => "None"
  | VBool b => if b then "True" else "False"
  | VInt z => PyRepr.string_of_Z z
  | VFloat x => PyRepr.float_repr x
  | VStr s => PyRepr.str_repr s
  | VList l =>
      "[" ++ (fix items (l : list pyval) : string :=
                match l with
                | [] => ""
                | x :: l' =>
                    match l' with
                    | [] => py_repr x
                    | _ => py_repr x ++ ", " ++ items l'
                    end
                end) l ++ "]"
  | VDict d =>
      "{" ++ (fix items (d : list (string * pyval)) : string :=
                match d with
                | [] => ""
                | (k, x) :: d' =>
                    match d' with
                    | [] => PyRepr.str_repr k ++ ": " ++ py_repr x
                    | _ => PyRepr.str_repr k ++ ": " ++ py_repr x ++ ", " ++ items d'
                    end
                end) d ++ "}"
  end.

(** [str(val)] *)
Definition py_str (val : pyval) : string :=
  match val with
  | VStr s => s
  | _ => py_repr val
  end.

(** ** schemas.py *)

Record ShipmentDetails : Type := {
  id : string;
  product_line : option string;
  origin_port_code : option string;
  origin_port_name : option string;
  destination_port_code : option string;
  destination_port_name : option string;
  incoterm : option string;
  cargo_weight_kg : option spec_float;
  cargo_cbm : option spec_float;
  is_dangerous : option bool
}.

(** Validation of a field declared [str]: a string is accepted, any other
    JSON value is rejected. *)
Definition validate_str (v : pyval) : result string :=
  match v with
  | VStr s => Ok s
  | _ => Raise ValidationError
  end.

(** Validation of a field declared [Optional[str]]. *)
Definition validate_opt_str (v : pyval) : result (option string) :=
  match v with
  | VNone => Ok None
  | VStr s => Ok (Some s)
  | _ => Raise ValidationError
  end.

(** [model_dump()] of a validated record, as written to the output file. *)
Definition of_opt {A : Type} (f : A -> pyval) (o : option A) : pyval :=
  match o with
  | Some a => f a
  | None => VNone
  end.

Definition model_dump (r : ShipmentDetails) : gmap string pyval :=
  list_to_map
    [("id", VStr (id r));
     ("product_line", of_opt VStr (product_line r));
     ("origin_port_code", of_opt VStr (origin_port_code r));
     ("origin_port_name", of_opt VStr (origin_port_name r));
     ("destination_port_code", of_opt VStr (destination_port_code r));
     ("destination_port_name", of_opt VStr (destination_port_name r));
     ("incoterm", of_opt VStr (incoterm r));
     ("cargo_weight_kg", of_opt VFloat (cargo_weight_kg r));
     ("cargo_cbm", of_opt VFloat (cargo_cbm r));
     ("is_dangerous", of_opt VBool (is_dangerous r))].

(** ** extract.py *)

Module Extract.
Import PyStr.

Record port_entry : Type := {
  entry_code : option string;
  entry_name : option string
}.

(** [not v] for an optional string: absent, null or empty. *)
Definition falsy (o : option string) : bool := negb (truthy (of_opt_str o)).

(** First loop of [load_port_reference]: the names of each code, in the
    order of the file. *)
Definition collect (temp_map : gmap string (list string)) (entry : port_entry)
  : gmap string (list string) :=
  if falsy (entry_code entry) || falsy (entry_name entry) then temp_map
  else
    match entry_code entry, entry_name entry with
    | Some code, Some name =>
        <[code := (default [] (temp_map !! code) ++ [name])%list]> temp_map
    | _, _ => temp_map
    end.

Definition is_chennai (n : string) : bool :=
  contains "Chennai" n && negb (contains "Bangalore" n).

(** Second loop, for one code: [names[0]] unless the code is INMAA and a
    name mentions Chennai without Bangalore.  No list of [temp_map] is
    empty; [None] stands for the [IndexError] of [names[0]]. *)
Definition select_name (code : string) (names : list string) : option string :=
  match names with
  | [] => None
  | first :: _ =>
      Some (if String.eqb code "INMAA"
            then default first (List.find is_chennai names)
            else first)
  end.

(** [load_port_reference], from the parsed reference file on. *)
Definition load_port_reference (data : list port_entry) : gmap string string :=
  map_imap select_name (foldl collect ∅ data).

Definition valid_incoterms : list string :=
  ["FOB"; "CIF"; "CFR"; "EXW"; "DDP"; "DAP"; "FCA"; "CPT"; "CIP"; "DPU"].

Definition str_in (s : string) (l : list string) : bool :=
  existsb (String.eqb s) l.

Definition normalize_incoterm (val : pyval) : result string :=
  if negb (truthy val) then Ok "FOB"
  else
    match val with
    | VStr s =>
        let val_upper := upper (strip s) in
        if str_in val_upper valid_incoterms then Ok val_upper else Ok "FOB"
    | _ => Raise AttributeError
    end.

(** [code and code.startswith("IN")] *)
Definition starts_with_IN (code : pyval) : result bool :=
  if negb (truthy code) then Ok false
  else
    match code with
    | VStr s => Ok (startswith s "IN")
    | _ => Raise AttributeError
    end.

Definition determine_product_line (origin_code dest_code : pyval)
  : result (option string) :=
  d ← starts_with_IN dest_code;
  if d : bool then Ok (Some "pl_sea_import_lcl")
  else
    o ← starts_with_IN origin_code;
    if o : bool then Ok (Some "pl_sea_export_lcl") else Ok None.

Definition negatives : list string :=
  ["non-hazardous"; "non-dg"; "not dangerous"; "non hazardous"].

Definition positives_keywords : list string :=
  ["\bdg\b"; "dangerous"; "hazardous"; "\bimo\b"; "\bimdg\b"].

Definition class_pattern : string := "\bclass\s*\d".

Section Classifier.
Context {U : Unicode.database}.

Definition any_match (patterns : list string) (text : Unicode.text) : bool :=
  existsb (fun pattern => Re.search pattern text) patterns.

Definition check_dangerous_goods (email_text : Unicode.text)
    (extracted_bool : pyval) : bool :=
  let text := Unicode.to_lower email_text in
  if any_match negatives text then false
  else if any_match positives_keywords text then true
  else if Re.search class_pattern text then true
  else false.

End Classifier.

Definition round_metric (val : pyval) : result (option spec_float) :=
  match val with
  | VNone => Ok None
  | _ =>
      match f ← py_float val; PyFloat.round2 f with
      | Ok r => Ok (Some r)
      | Raise ValueError | Raise TypeError => Ok None
      | Raise e => Raise e
      end
  end.

(** The validation block that [process_email] applies to each port code:
    uppercase a truthy code and null it when the reference lacks it. *)
Definition validate_code (port_map : gmap string string) (code : pyval)
  : result pyval :=
  if truthy code then
    match code with
    | VStr s =>
        let code := upper s in
        if decide (is_Some (port_map !! code)) then Ok (VStr code) else Ok VNone
    | _ => Raise AttributeError
    end
  else Ok code.

(** [port_map.get(code) if code else None] *)
Definition lookup_name (port_map : gmap string string) (code : pyval)
  : option string :=
  if truthy code then
    match code with
    | VStr s => port_map !! s
    | _ => None
    end
  else None.

Section Assembler.
Context {U : Unicode.database}.

(** [process_email] from step 2 on: [data] is the draft parsed from the
    model's answer ([{}] when that failed) and [full_text] is
    ["{subject} {body}"]. *)
Definition process_email (email_id : pyval) (full_text : Unicode.text)
    (data : gmap string pyval) (port_map : gmap string string)
  : result ShipmentDetails :=
  origin_code ← validate_code port_map (dict_get data "origin_port_code");
  dest_code ← validate_code port_map (dict_get data "destination_port_code");
  let origin_name := lookup_name port_map origin_code in
  let dest_name := lookup_name port_map dest_code in
  derived ← determine_product_line origin_code dest_code;
  let prod_line :=
    if negb (truthy (of_opt_str derived)) && truthy (dict_get data "product_line")
    then dict_get data "product_line"
    else of_opt_str derived in
  incoterm ← normalize_incoterm (dict_get data "incoterm");
  let is_dg := check_dangerous_goods full_text (dict_get data "is_dangerous") in
  weight ← round_metric (dict_get data "cargo_weight_kg");
  cbm ← round_metric (dict_get data "cargo_cbm");
  id ← validate_str email_id;
  product_line ← validate_opt_str prod_line;
  origin_port_code ← validate_opt_str origin_code;
  destination_port_code ← validate_opt_str dest_code;
  Ok {| id := id;
        product_line := product_line;
        origin_port_code := origin_port_code;
        origin_port_name := origin_name;
        destination_port_code := destination_port_code;
        destination_port_name := dest_name;
        incoterm := Some incoterm;
        cargo_weight_kg := weight;
        cargo_cbm := cbm;
        is_dangerous := Some is_dg |}.

(** The body of the loop of [main]: when [process_email] raises, the
    default record is written instead, with the id of the email. *)
Definition main_step (email_id : pyval) (full_text : Unicode.text)
    (data : gmap string pyval) (port_map : gmap string string)
  : gmap string pyval :=
  match process_email email_id full_text data port_map with
  | Ok res => model_dump res
  | Raise _ =>
      list_to_map
        [("id", email_id); ("product_line", VNone);
         ("origin_port_code", VNone); ("origin_port_name", VNone);
         ("destination_port_code", VNone); ("destination_port_name", VNone);
         ("incoterm", VStr "FOB"); ("cargo_weight_kg", VNone);
         ("cargo_cbm", VNone); ("is_dangerous", VBool false)]
  end.

End Assembler.

End Extract.

(** ** evaluate.py *)

Module Evaluate.
Import PyStr.

Definition normalize_string (s : pyval) : string :=
  match s with
  | VNone => "null"
  | _ => upper (strip (py_str s))
  end.

Definition compare_floats (val1 val2 : pyval) : result bool :=
  match val1, val2 with
  | VNone, VNone => Ok true
  | VNone, _ | _, VNone => Ok false
  | _, _ =>
      match
        r1 ← (f1 ← py_float val1; PyFloat.round2 f1);
        r2 ← (f2 ← py_float val2; PyFloat.round2 f2);
        Ok (PyFloat.eqb r1 r2)
      with
      | Ok b => Ok b
      | Raise ValueError | Raise TypeError => Ok false
      | Raise e => Raise e
      end
  end.

Definition compare_values (field : string) (val1 val2 : pyval) : result bool :=
  if Extract.str_in field ["cargo_weight_kg"; "cargo_cbm"] then
    compare_floats val1 val2
  else
    let s1 := normalize_string val1 in
    let s2 := normalize_string val2 in
    Ok (String.eqb s1 s2).

Definition fields_to_evaluate : list string :=
  ["product_line"; "origin_port_code"; "origin_port_name";
   "destination_port_code"; "destination_port_name"; "incoterm";
   "cargo_weight_kg"; "cargo_cbm"; "is_dangerous"].

(** A loaded record: its ['id'] (a [str] by the schema) and the record. *)
Definition item : Type := string * gmap string pyval.

(** [{item['id']: item for item in ...}]: a later record replaces an
    earlier one with the same id. *)
Definition by_id (items : list item) : gmap string (gmap string pyval) :=
  foldl (fun m it => <[fst it := snd it]> m) ∅ items.

(** The counters [correct_fields] and [total_fields]. *)
Record counters : Type := {
  correct_fields : Z;
  total_fields : Z
}.

(** The inner loop: one pair of records, field by field. *)
Definition score_fields (truth pred : gmap string pyval) (c : counters)
  : result counters :=
  foldl (fun acc field =>
           c ← acc;
           is_correct ← compare_values field (dict_get truth field) (dict_get pred field);
           Ok {| correct_fields :=
                   if is_correct : bool then correct_fields c + 1 else correct_fields c;
                 total_fields := total_fields c + 1 |})
        (Ok c) fields_to_evaluate.

(** [evaluate_accuracy], from the two loaded files on, up to the counters
    it reports; [None] is the early return on an empty output. *)
Definition evaluate_accuracy (output_items truth_items : list item)
  : result (option counters) :=
  let outputs := by_id output_items in
  let ground_truth := by_id truth_items in
  if decide (outputs = ∅) then Ok None
  else
    Some <$>
    foldl (fun acc '(email_id, truth) =>
             c ← acc;
             match outputs !! email_id with
             | None => Ok c
             | Some pred => score_fields truth pred c
             end)
          (Ok {| correct_fields := 0; total_fields := 0 |})
          (map_to_list ground_truth).

(** [overall_acc]: [correct_fields / total_fields * 100], or [0.0]. *)
Definition overall_acc (c : counters) : spec_float :=
  if 0 <? total_fields c then
    SFmul PyFloat.prec PyFloat.emax
      (SFdiv PyFloat.prec PyFloat.emax
         (PyFloat.of_Z (correct_fields c)) (PyFloat.of_Z (total_fields c)))
      (PyFloat.of_Z 100)
  else S754_zero false.

Definition as_item (r : ShipmentDetails) : item := (id r, model_dump r).

End Evaluate.

(** ** More string methods, and [clean_json_response] *)

Module PyText.
Import PyStr.

(** [s.endswith(suffix)] *)
Definition endswith (s suffix : string) : bool :=
  (String.length suffix <=? String.length s)%nat
  && String.eqb (drop (String.length s - String.length suffix) s) suffix.

(** [s.replace(old, new, 1)]: the leftmost occurrence of [old] is
    replaced; an empty [old] occurs at the start. *)
Fixpoint replace_first (old new s : string) : string :=
  if prefix old s then new ++ drop (String.length old) s
  else
    match s with
    | EmptyString => EmptyString
    | String c s' => String c (replace_first old new s')
    end.

(** [s[:-n]] for a positive [n] *)
Definition drop_last (n : nat) (s : string) : string :=
  take (String.length s - n) s.

End PyText.

Module Response.
Import PyStr PyText.

Definition fence : string := "```".
Definition json_fence : string := "```json".

Definition clean_json_response (response : string) : string :=
  let response := strip response in
  let response :=
    if startswith response json_fence then replace_first json_fence "" response
    else response in
  let response :=
    if startswith response fence then replace_first fence "" response
    else response in
  let response :=
    if endswith response fence then drop_last 3 response else response in
  strip response.

End Response.

(** ** The rules as the specification words them *)

Module Spec.
Import PyStr.

Section Wording.
Context {U : Unicode.database}.

(** An occurrence of [w] with no word character right before or after it. *)
Fixpoint whole_word_from (w : string) (prev : option N) (t : Unicode.text) : bool :=
  (negb (Re.word_opt prev) && Unicode.starts w t
   && negb (Re.word_opt (Unicode.first (Unicode.after (String.length w) t))))
  || match t with
     | c :: t' => whole_word_from w (Some c) t'
     | [] => false
     end.

Definition whole_word (w : string) (t : Unicode.text) : bool :=
  whole_word_from w None t.

(** Optional whitespace, then a digit. *)
Fixpoint spaces_digit (t : Unicode.text) : bool :=
  match t with
  | c :: t' => Unicode.isdecimal c || (Unicode.isspace c && spaces_digit t')
  | [] => false
  end.

(** The word "class" starting at a word boundary, then optional
    whitespace, then a digit. *)
Fixpoint class_digit_from (prev : option N) (t : Unicode.text) : bool :=
  (negb (Re.word_opt prev) && Unicode.starts "class" t
   && spaces_digit (Unicode.after 5 t))
  || match t with
     | c :: t' => class_digit_from (Some c) t'
     | [] => false
     end.

Definition class_digit (t : Unicode.text) : bool := class_digit_from None t.

Definition has_negative (t : Unicode.text) : bool :=
  Unicode.occurs "non-hazardous" t || Unicode.occurs "non-dg" t
  || Unicode.occurs "not dangerous" t || Unicode.occurs "non hazardous" t.

Definition has_positive (t : Unicode.text) : bool :=
  whole_word "dg" t || Unicode.occurs "dangerous" t || Unicode.occurs "hazardous" t
  || whole_word "imo" t || whole_word "imdg" t || class_digit t.

End Wording.

(** Product line from two optional codes, destination first. *)
Definition present_IN (code : option string) : bool :=
  match code with
  | Some c => startswith c "IN"
  | None => false
  end.

Definition derive (dest origin : option string) : option string :=
  if present_IN dest then Some "pl_sea_import_lcl"
  else if present_IN origin then Some "pl_sea_export_lcl"
  else None.

(** Port reference: an entry is skipped when its code or name is missing
    (absent, null or empty). *)
Definition missing (o : option string) : bool :=
  match o with
  | None => true
  | Some s => String.eqb s ""
  end.

(** The names seen for [code], in the order of the entries kept. *)
Definition names_for (code : string) (data : list Extract.port_entry) : list string :=
  omap (fun e =>
          if missing (Extract.entry_code e) || missing (Extract.entry_name e) then None
          else if decide (Extract.entry_code e = Some code) then Extract.entry_name e
          else None) data.

Definition disambiguates (n : string) : bool :=
  contains "Chennai" n && negb (contains "Bangalore" n).

(** First name seen; for INMAA the first disambiguating name when there is
    one. *)
Definition chosen_name (code : string) (names : list string) : option string :=
  match names with
  | [] => None
  | first :: _ =>
      if decide (code = "INMAA") then
        match filter (fun n => disambiguates n = true) names with
        | n :: _ => Some n
        | [] => Some first
        end
      else Some first
  end.

(** An integer that [float] cannot hold. *)
Definition huge_int (val : pyval) : bool :=
  match val with
  | VInt z => PyFloat.is_inf (PyFloat.of_Z z)
  | _ => false
  end.

Definition str_or_null (v : pyval) : bool :=
  match v with
  | VNone | VStr _ => true
  | _ => false
  end.

Definition str_or_falsy (v : pyval) : bool :=
  match v with
  | VStr _ => true
  | _ => negb (truthy v)
  end.

(** A draft whose port codes are null or strings, whose product line and
    incoterm are strings or falsy, and whose cargo values are not integers
    out of the range of [float]. *)
Definition typed_draft (data : gmap string pyval) : bool :=
  str_or_null (dict_get data "origin_port_code")
  && str_or_null (dict_get data "destination_port_code")
  && str_or_falsy (dict_get data "product_line")
  && str_or_falsy (dict_get data "incoterm")
  && negb (huge_int (dict_get data "cargo_weight_kg"))
  && negb (huge_int (dict_get data "cargo_cbm")).

(** A port code after validation: uppercased and kept when the reference
    knows it, nulled otherwise; the empty string is passed through. *)
Definition norm_code (port_map : gmap string string) (v : pyval) : option string :=
  match v with
  | VStr s =>
      if String.eqb s "" then Some ""
      else if decide (is_Some (port_map !! upper s)) then Some (upper s)
      else None
  | _ => None
  end.

Definition port_name (port_map : gmap string string) (code : option string)
  : option string :=
  match code with
  | Some c => if String.eqb c "" then None else port_map !! c
  | None => None
  end.

(** The draft's own product line, when it is a non-empty string. *)
Definition fallback (v : pyval) : option string :=
  match v with
  | VStr s => if String.eqb s "" then None else Some s
  | _ => None
  end.

Definition incoterm_of (v : pyval) : string :=
  match v with
  | VStr s =>
      if Extract.str_in (upper (strip s)) Extract.valid_incoterms
      then upper (strip s) else "FOB"
  | _ => "FOB"
  end.

(** [y] is [x] rounded to two decimals: [x] itself when it is not finite
    or is an integer of magnitude [2^52] or more, else the double nearest
    to a whole number of hundredths. *)
Definition rounded (x y : spec_float) : Prop :=
  match x with
  | S754_finite s m e =>
      if PyFloat.is_large m e then y = x
      else y = PyFloat.of_decimal s (PyFloat.scaled_cents m e) (-2)
  | _ => y = x
  end.

Definition not_nan (o : option spec_float) : bool :=
  match o with
  | Some x => negb (PyFloat.is_nan x)
  | None => true
  end.

(** Float-tolerance equality: both null, or both present and equal after
    rounding to two decimals. *)
Definition numeric_equal (a b : option spec_float) : bool :=
  match a, b with
  | None, None => true
  | Some x, Some y =>
      match PyFloat.round2 x, PyFloat.round2 y with
      | Ok rx, Ok ry => PyFloat.eqb rx ry
      | _, _ => false
      end
  | _, _ => false
  end.

(** Literal characters of a pattern, as regex items. *)
Fixpoint lits (p : string) : Re.regex :=
  match p with
  | EmptyString => []
  | String c p' => Re.One (Re.CChar c) :: lits p'
  end.

Definition last_char (p : string) (prev : option N) : option N :=
  match p with
  | EmptyString => prev
  | _ => option_map Unicode.chr (head (drop (Nat.pred (String.length p)) p))
  end.

End Spec.

(** ** The end-to-end scenario of the specification *)

Module Scenario.
Import Extract.

Definition entries : list port_entry :=
  [ {| entry_code := Some "INMAA"; entry_name := Some "Bangalore ICD" |};
    {| entry_code := Some "INMAA"; entry_name := Some "Chennai ICD" |};
    {| entry_code := Some "HKHKG"; entry_name := Some "Hong Kong" |} ].

Definition reference : gmap string string := load_port_reference entries.

Definition draft : gmap string pyval :=
  list_to_map
    [("origin_port_code", VStr "hkhkg"); ("destination_port_code", VStr "inmaa");
     ("incoterm", VStr "fob "); ("cargo_weight_kg", VStr "500");
     ("cargo_cbm", VNone); ("is_dangerous", VBool true)].

Definition source_text : Unicode.text :=
  Unicode.of_str "Shipment is non-hazardous.".

(** 500.0 *)
Definition five_hundred : spec_float := S754_finite false 8796093022208000 (-44).

(** 500.001 *)
Definition five_hundred_001 : spec_float := S754_finite false 8796110614394044 (-44).

Definition expected : ShipmentDetails :=
  {| id := "e1";
     product_line := Some "pl_sea_import_lcl";
     origin_port_code := Some "HKHKG";
     origin_port_name := Some "Hong Kong";
     destination_port_code := Some "INMAA";
     destination_port_name := Some "Chennai ICD";
     incoterm := Some "FOB";
     cargo_weight_kg := Some five_hundred;
     cargo_cbm := None;
     is_dangerous := Some false |}.

(** The expected record with a weight that is not a number. *)
Definition nan_record : ShipmentDetails :=
  {| id := "e1";
     product_line := Some "pl_sea_import_lcl";
     origin_port_code := Some "HKHKG";
     origin_port_name := Some "Hong Kong";
     destination_port_code := Some "INMAA";
     destination_port_name := Some "Chennai ICD";
     incoterm := Some "FOB";
     cargo_weight_kg := Some S754_nan;
     cargo_cbm := None;
     is_dangerous := Some false |}.

(** The record of an empty draft. *)
Definition defaults (email_id : string) (is_dg : bool) : ShipmentDetails :=
  {| id := email_id;
     product_line := None;
     origin_port_code := None;
     origin_port_name := None;
     destination_port_code := None;
     destination_port_name := None;
     incoterm := Some "FOB";
     cargo_weight_kg := None;
     cargo_cbm := None;
     is_dangerous := Some is_dg |}.

End Scenario.

(** ** Regular expressions with alternation and one capturing group

    The patterns of the stand-in client, as syntax trees; [LitI] is a
    literal character under [re.IGNORECASE]. *)

Module Rx.
Import PyStr.

Inductive rx : Type :=
  | Eps
  | Lit (c : ascii)
  | LitI (c : ascii)
  | Digit
  | Space
  | Bound
  | Seq (a b : rx)
  | Alt (a b : rx)
  | Star (a : rx)
  | Group (a : rx).

Definition Plus (a : rx) : rx := Seq a (Star a).
Definition Opt (a : rx) : rx := Alt a Eps.

Fixpoint lits (p : string) : rx :=
  match p with
  | EmptyString => Eps
  | String c p' => Seq (Lit c) (lits p')
  end.

Fixpoint lits_i (p : string) : rx :=
  match p with
  | EmptyString => Eps
  | String c p' => Seq (LitI c) (lits_i p')
  end.

(** [\b] on a text of ASCII characters *)
Definition word_opt (c : option ascii) : bool :=
  match c with
  | Some c => is_word c
  | None => false
  end.

Definition at_boundary (prev next : option ascii) : bool :=
  xorb (word_opt prev) (word_opt next).

Definition one (test : ascii -> bool) {R : Type} (s : string)
    (k : option ascii -> string -> option R) : option R :=
  match s with
  | String d s' => if test d then k (Some d) s' else None
  | EmptyString => None
  end.

(** Backtracking match of [r] at the current position: [prev] is the
    character before it, [s] the rest of the text, [g] the text captured
    by the group so far; [k] continues after the match.  Alternatives are
    tried in order and [Star] is greedy.  [fuel] bounds the iterations of
    [Star]; an iteration that consumes nothing is not repeated. *)
Fixpoint run {R : Type} (fuel : nat) : rx -> option ascii -> string -> string ->
    (option ascii -> string -> string -> option R) -> option R :=
  fix go (r : rx) (prev : option ascii) (s g : string)
         (k : option ascii -> string -> string -> option R) : option R :=
    match r with
    | Eps => k prev s g
    | Lit c => one (Ascii.eqb c) s (fun p s' => k p s' g)
    | LitI c => one (fun d => Ascii.eqb (lower_char c) (lower_char d)) s
                    (fun p s' => k p s' g)
    | Digit => one is_digit s (fun p s' => k p s' g)
    | Space => one is_space s (fun p s' => k p s' g)
    | Bound => if at_boundary prev (head s) then k prev s g else None
    | Seq a b => go a prev s g (fun p' s' g' => go b p' s' g' k)
    | Alt a b =>
        match go a prev s g k with
        | Some x => Some x
        | None => go b prev s g k
        end
    | Star a =>
        match fuel with
        | O => k prev s g
        | S fuel' =>
            match go a prev s g
                    (fun p' s' g' =>
                       if (String.length s' <? String.length s)%nat
                       then run fuel' (Star a) p' s' g' k else None) with
            | Some x => Some x
            | None => k prev s g
            end
        end
    | Group a =>
        go a prev s g
           (fun p' s' _ => k p' s' (take (String.length s - String.length s') s))
    end.

(** A match: where it starts (characters before it), the text after it
    with the character before that, and the captured group. *)
Record found : Type := {
  start : nat;
  prev_after : option ascii;
  rest_after : string;
  group1 : string
}.

(** Leftmost match at or after the current position, [pos] characters
    into the text. *)
Fixpoint search_from (r : rx) (pos : nat) (prev : option ascii) (s : string)
  : option found :=
  match run (String.length s) r prev s ""
            (fun p s' g => Some {| start := pos; prev_after := p;
                                   rest_after := s'; group1 := g |}) with
  | Some m => Some m
  | None =>
      match s with
      | String c s' => search_from r (S pos) (Some c) s'
      | EmptyString => None
      end
  end.

(** [re.search(r, text)] *)
Definition search (r : rx) (text : string) : option found :=
  search_from r 0 None text.

(** [[m.start() for m in re.finditer(r, text)]]: successive matches, each
    search resuming where the previous match ended (one character further
    after an empty match). *)
Fixpoint starts_from (fuel : nat) (r : rx) (pos : nat) (prev : option ascii)
    (s : string) : list nat :=
  match fuel with
  | O => []
  | S fuel' =>
      match search_from r pos prev s with
      | None => []
      | Some m =>
          let consumed :=
            (String.length s - String.length (rest_after m))%nat in
          if (start m - pos <? consumed)%nat then
            start m :: starts_from fuel' r (pos + consumed) (prev_after m)
                         (rest_after m)
          else
            match drop (start m - pos) s with
            | String c s' =>
                start m :: starts_from fuel' r (S (start m)) (Some c) s'
            | EmptyString => [start m]
            end
      end
  end.

Definition finditer_starts (r : rx) (text : string) : list nat :=
  starts_from (S (String.length text)) r 0 None text.

End Rx.

(** ** The stand-in client of extract.py *)

Module Mock.
Import PyStr PyText.

(** [s.split(sep)] for a one-character separator *)
Fixpoint split (sep : ascii) (s : string) : list string :=
  match s with
  | EmptyString => [EmptyString]
  | String c s' =>
      if Ascii.eqb c sep then EmptyString :: split sep s'
      else
        match split sep s' with
        | part :: parts => String c part :: parts
        | [] => [String c EmptyString]
        end
  end.

(** [s.replace(old, "")] for a one-character [old] *)
Fixpoint remove_char (old : ascii) (s : string) : string :=
  match s with
  | EmptyString => EmptyString
  | String c s' =>
      if Ascii.eqb c old then remove_char old s' else String c (remove_char old s')
  end.

(** [text[text.rfind(marker):]], when [marker] occurs. *)
Fixpoint from_last (marker text : string) : option string :=
  match text with
  | EmptyString => if prefix marker text then Some text else None
  | String _ text' =>
      match from_last marker text' with
      | Some t => Some t
      | None => if prefix marker text then Some text else None
      end
  end.

(** The patterns [__init__] builds from the reference file: for each
    entry with a code and a name the code, the name, and each part of a
    name with slashes that is longer than two characters. *)
Definition entry_patterns (entry : Extract.port_entry) : list (string * string) :=
  if Extract.falsy (Extract.entry_code entry) || Extract.falsy (Extract.entry_name entry)
  then []
  else
    match Extract.entry_code entry, Extract.entry_name entry with
    | Some code, Some name =>
        ([(code, code); (name, code)]
         ++ (if contains "/" name
             then (fun part => (part, code))
                    <$> List.filter (fun part => (2 <? String.length part)%nat)
                          (strip <$> split "/" name)
             else []))%list
    | _, _ => []
    end.

Definition search_patterns (raw_data : list Extract.port_entry)
  : list (string * string) :=
  raw_data ≫= entry_patterns.

(** [r'\b' + re.escape(pattern) + r'\b'] under [re.IGNORECASE] *)
Definition port_regex (pattern : string) : Rx.rx :=
  Rx.Seq Rx.Bound (Rx.Seq (Rx.lits_i pattern) Rx.Bound).

(** The first loop of [smart_extract]: every match of every pattern, in
    the order of the patterns. *)
Definition find_ports (patterns : list (string * string)) (text : string)
  : list (nat * string) :=
  patterns ≫= (fun '(pattern, code) =>
    (fun pos => (pos, code)) <$> Rx.finditer_starts (port_regex pattern) text).

(** [found_ports.sort(key=lambda x: x[0])]: stable, by position. *)
Fixpoint insert_by_pos (x : nat * string) (l : list (nat * string))
  : list (nat * string) :=
  match l with
  | [] => [x]
  | y :: l' => if (x.1 <? y.1)%nat then x :: l else y :: insert_by_pos x l'
  end.

Definition sort_by_pos (l : list (nat * string)) : list (nat * string) :=
  foldl (fun acc x => insert_by_pos x acc) [] l.

(** Distinct codes in order of appearance. *)
Definition distinct_codes (found : list (nat * string)) : list string :=
  foldl (fun final_ports '(_, code) =>
           if Extract.str_in code final_ports then final_ports
           else (final_ports ++ [code])%list) [] found.

Definition is_india (p : string) : bool := startswith p "IN".

(** The assignment of origin and destination from the ports found. *)
Definition assign_ports (final_ports : list string) (is_export : bool)
  : option string * option string :=
  let india_ports := List.filter is_india final_ports in
  let foreign_ports := List.filter (fun p => negb (is_india p)) final_ports in
  match india_ports, foreign_ports with
  | i :: _, f :: _ => if is_export then (Some i, Some f) else (Some f, Some i)
  | _, _ =>
      match final_ports with
      | p0 :: p1 :: _ => (Some p0, Some p1)
      | [p_code] =>
          if is_india p_code then
            if is_export then (Some p_code, None) else (None, Some p_code)
          else (Some p_code, None)
      | [] => (None, None)
      end
  end.

Definition number : Rx.rx :=
  Rx.Seq (Rx.Plus Rx.Digit)
    (Rx.Seq (Rx.Star (Rx.Seq (Rx.Lit ",") (Rx.Plus Rx.Digit)))
       (Rx.Opt (Rx.Seq (Rx.Lit ".") (Rx.Plus Rx.Digit)))).

(** [(\d+(?:,\d+)*(?:\.\d+)?)\s*(?:kgs?|gross weight|gw)] *)
Definition weight_regex : Rx.rx :=
  Rx.Seq (Rx.Group number)
    (Rx.Seq (Rx.Star Rx.Space)
       (Rx.Alt (Rx.Seq (Rx.lits "kg") (Rx.Opt (Rx.Lit "s")))
          (Rx.Alt (Rx.lits "gross weight") (Rx.lits "gw")))).

(** [(\d+(?:,\d+)*(?:\.\d+)?)\s*(?:cbm|m3|vol)] *)
Definition cbm_regex : Rx.rx :=
  Rx.Seq (Rx.Group number)
    (Rx.Seq (Rx.Star Rx.Space)
       (Rx.Alt (Rx.lits "cbm") (Rx.Alt (Rx.lits "m3") (Rx.lits "vol")))).

(** [float(m.group(1).replace(',', ''))] inside [try ... except: pass] *)
Definition measure (r : Rx.rx) (text_lower : string) : option spec_float :=
  match Rx.search r text_lower with
  | Some m =>
      match PyFloat.of_string (remove_char "," (Rx.group1 m)) with
      | Ok x => Some x
      | Raise _ => None
      end
  | None => None
  end.

Definition inco_candidates : list string :=
  ["FOB"; "CIF"; "CFR"; "EXW"; "DDP"; "DAP"; "FCA"; "CPT"; "CIP"; "DPU"].

(** The first candidate that occurs as a word, else FOB. *)
Definition find_incoterm (text : string) : string :=
  match List.find (fun inc => bool_decide (is_Some (Rx.search (port_regex inc) text)))
                  inco_candidates with
  | Some inc => upper inc
  | None => "FOB"
  end.

Definition alts (words : list string) (last : Rx.rx) : Rx.rx :=
  foldr (fun w r => Rx.Alt (Rx.lits w) r) last words.

(** [\b(dg|dangerous|hazardous|imo|imdg|class \d)\b] *)
Definition dg_regex : Rx.rx :=
  Rx.Seq Rx.Bound
    (Rx.Seq (Rx.Group (alts ["dg"; "dangerous"; "hazardous"; "imo"; "imdg"]
                         (Rx.Seq (Rx.lits "class ") Rx.Digit)))
       Rx.Bound).

(** [\b(non-dg|non-dangerous|non-hazardous)\b] *)
Definition non_dg_regex : Rx.rx :=
  Rx.Seq Rx.Bound
    (Rx.Seq (Rx.Group (alts ["non-dg"; "non-dangerous"] (Rx.lits "non-hazardous")))
       Rx.Bound).

Definition found_bool (m : option Rx.found) : bool :=
  match m with
  | Some _ => true
  | None => false
  end.

(** The part of the prompt that is scanned: from the last [**Email:**]
    on, else from the last [Subject:] on, else all of it. *)
Definition segment (text : string) : string :=
  match from_last "**Email:**" text with
  | Some t => t
  | None => default text (from_last "Subject:" text)
  end.

(** "Import" overrides "export". *)
Definition is_export (text_lower : string) : bool :=
  contains "export" text_lower && negb (contains "import" text_lower).

(** The codes found in the text, each once, in order of first position. *)
Definition found_codes (patterns : list (string * string)) (text : string)
  : list string :=
  distinct_codes (sort_by_pos (find_ports patterns text)).

(** [port_map.get(code) if code else None] *)
Definition name_of (port_map : gmap string string) (code : option string)
  : option string :=
  code ≫= (fun c => if String.eqb c "" then None else port_map !! c).

Definition guess_product_line (text_lower : string) : string :=
  if contains "export" text_lower then "pl_sea_export_lcl" else "pl_sea_import_lcl".

Definition guess_dangerous (text_lower : string) : bool :=
  found_bool (Rx.search dg_regex text_lower)
  && negb (found_bool (Rx.search non_dg_regex text_lower)).

(** [smart_extract], up to the dictionary it serialises. *)
Definition smart_extract (patterns : list (string * string))
    (port_map : gmap string string) (text : string) : gmap string pyval :=
  let text := segment text in
  let text_lower := lower text in
  let codes := assign_ports (found_codes patterns text) (is_export text_lower) in
  list_to_map
    [("product_line", VStr (guess_product_line text_lower));
     ("origin_port_code", of_opt VStr codes.1);
     ("origin_port_name", of_opt VStr (name_of port_map codes.1));
     ("destination_port_code", of_opt VStr codes.2);
     ("destination_port_name", of_opt VStr (name_of port_map codes.2));
     ("incoterm", VStr (find_incoterm text));
     ("cargo_weight_kg", of_opt VFloat (measure weight_regex text_lower));
     ("cargo_cbm", of_opt VFloat (measure cbm_regex text_lower));
     ("is_dangerous", VBool (guess_dangerous text_lower))].

(** The end of [PROMPT_V3], from its last marker on, with the subject and
    the body filled in. *)
Definition prompt_tail (subject body : string) : string :=
  let nl := String (ascii_of_N 10) EmptyString in
  "**Email:**" ++ nl ++ "Subject: " ++ subject ++ nl ++ "Body: " ++ body
  ++ nl ++ nl ++ "**JSON Response:**" ++ nl.

Section Pipeline.
Context {U : Unicode.database}.

(** [process_email] with the stand-in client: the prompt is the
    instructions of [PROMPT_V3] followed by [prompt_tail]; the answer is
    the dictionary of [smart_extract] written by [json.dumps], which
    [clean_json_response] leaves as it is and [json.loads] reads back. *)
Definition process_email (patterns : list (string * string))
    (instructions : string) (email_id : pyval) (subject body : string)
    (port_map : gmap string string) : result ShipmentDetails :=
  Extract.process_email email_id (Unicode.of_str (subject ++ " " ++ body))
    (smart_extract patterns port_map (instructions ++ prompt_tail subject body))
    port_map.

End Pipeline.

End Mock.

(** ** The per-field report of evaluate.py *)

Module Metrics.
Import Evaluate.

(** One more comparison counted, correct or not. *)
Definition tally (is_correct : bool) (c : counters) : counters :=
  {| correct_fields :=
       if is_correct then correct_fields c + 1 else correct_fields c;
     total_fields := total_fields c + 1 |}.

Definition zero : counters := {| correct_fields := 0; total_fields := 0 |}.

(** [{f: {'correct': 0, 'total': 0} for f in fields_to_evaluate}] *)
Definition field_metrics_init : gmap string counters :=
  list_to_map ((fun f => (f, zero)) <$> fields_to_evaluate).

(** The overall counters together with [field_metrics]. *)
Record report : Type := {
  overall : counters;
  field_metrics : gmap string counters
}.

(** One field of the inner loop of [evaluate_accuracy], with both sets of
    counters; the keys of [field_metrics] are the fields of the loop, so
    the update of an entry never misses. *)
Definition score_field (truth pred : gmap string pyval)
    (acc : result report) (field : string) : result report :=
  st ← acc;
  is_correct ← compare_values field (dict_get truth field) (dict_get pred field);
  Ok {| overall := tally is_correct (overall st);
        field_metrics := alter (tally is_correct) field (field_metrics st) |}.

Definition score_fields (truth pred : gmap string pyval) (st : report)
  : result report :=
  foldl (score_field truth pred) (Ok st) fields_to_evaluate.

(** One step of the outer loop: a ground-truth record whose id the output
    lacks is skipped. *)
Definition score_record (outputs : gmap string (gmap string pyval))
    (acc : result report) (entry : string * gmap string pyval) : result report :=
  st ← acc;
  match outputs !! entry.1 with
  | None => Ok st
  | Some pred => score_fields entry.2 pred st
  end.

(** [evaluate_accuracy] up to the report it prints. *)
Definition evaluate_accuracy (output_items truth_items : list item)
  : result (option report) :=
  let outputs := by_id output_items in
  let ground_truth := by_id truth_items in
  if decide (outputs = ∅) then Ok None
  else
    Some <$>
    foldl (score_record outputs)
          (Ok {| overall := zero; field_metrics := field_metrics_init |})
          (map_to_list ground_truth).

End Metrics.

(** ** Notions used to state the further properties *)

Module Notions.
Import PyStr.

(** No whitespace at the start of [s]. *)
Definition no_lead (s : string) : Prop :=
  match s with
  | String c _ => is_space c = false
  | EmptyString => True
  end.

(** [s] does not begin with the character [c]. *)
Definition not_first (c : ascii) (s : string) : Prop := head s <> Some c.

Section Records.
Context {U : Unicode.database}.

(** The record [process_email] builds once every step has succeeded. *)
Definition record_of (email_id : string) (full_text : Unicode.text)
    (data : gmap string pyval)
    (port_map : gmap string string) (weight cbm : option spec_float)
  : ShipmentDetails :=
  let origin_code := Spec.norm_code port_map (dict_get data "origin_port_code") in
  let dest_code := Spec.norm_code port_map (dict_get data "destination_port_code") in
  {| id := email_id;
     product_line :=
       match Spec.derive dest_code origin_code with
       | Some p => Some p
       | None => Spec.fallback (dict_get data "product_line")
       end;
     origin_port_code := origin_code;
     origin_port_name := Spec.port_name port_map origin_code;
     destination_port_code := dest_code;
     destination_port_name := Spec.port_name port_map dest_code;
     incoterm := Some (Spec.incoterm_of (dict_get data "incoterm"));
     cargo_weight_kg := weight;
     cargo_cbm := cbm;
     is_dangerous :=
       Some (Extract.check_dangerous_goods full_text (dict_get data "is_dangerous")) |}.

End Records.

Definition is_str (v : pyval) : bool :=
  match v with
  | VStr _ => true
  | _ => false
  end.

(** The inputs on which [process_email] succeeds: a string id, port codes
    that are null or strings, an incoterm that is a string or falsy, cargo
    values within the range of [float], and a product line that is a
    string or falsy unless the codes already give one. *)
Definition accepted (email_id : pyval) (data : gmap string pyval)
    (port_map : gmap string string) : bool :=
  is_str email_id
  && Spec.str_or_null (dict_get data "origin_port_code")
  && Spec.str_or_null (dict_get data "destination_port_code")
  && Spec.str_or_falsy (dict_get data "incoterm")
  && negb (Spec.huge_int (dict_get data "cargo_weight_kg"))
  && negb (Spec.huge_int (dict_get data "cargo_cbm"))
  && (bool_decide
        (is_Some (Spec.derive
                    (Spec.norm_code port_map (dict_get data "destination_port_code"))
                    (Spec.norm_code port_map (dict_get data "origin_port_code"))))
      || Spec.str_or_falsy (dict_get data "product_line")).

(** A reference written back as a list of entries, one per code. *)
Definition entries_of (m : gmap string string) : list Extract.port_entry :=
  (fun kv => {| Extract.entry_code := Some kv.1; Extract.entry_name := Some kv.2 |})
    <$> map_to_list m.

(** No empty code and no empty name in a reference. *)
Definition well_formed_reference (m : gmap string string) : Prop :=
  forall c n, m !! c = Some n -> c <> "" /\ n <> "".

(** A loaded record whose two numbers are not integers beyond the range of
    a float. *)
Definition in_range (d : gmap string pyval) : Prop :=
  Spec.huge_int (dict_get d "cargo_weight_kg") = false
  /\ Spec.huge_int (dict_get d "cargo_cbm") = false.

(** The ground-truth records whose id the output has too. *)
Definition matched (outputs ground_truth : gmap string (gmap string pyval))
  : gmap string (gmap string pyval) :=
  filter (fun kv => is_Some (outputs !! kv.1)) ground_truth.

(** One field of the inner loop of [Evaluate.score_fields]. *)
Definition count_field (truth pred : gmap string pyval)
    (acc : result Evaluate.counters) (field : string) : result Evaluate.counters :=
  c ← acc;
  is_correct ← Evaluate.compare_values field (dict_get truth field) (dict_get pred field);
  Ok (Metrics.tally is_correct c).

(** One step of the outer loop of [Evaluate.evaluate_accuracy]. *)
Definition count_record (outputs : gmap string (gmap string pyval))
    (acc : result Evaluate.counters) (entry : string * gmap string pyval)
  : result Evaluate.counters :=
  c ← acc;
  match outputs !! entry.1 with
  | None => Ok c
  | Some pred => Evaluate.score_fields entry.2 pred c
  end.

(** The correct count that a field has in [field_metrics]. *)
Definition correct_of (fm : gmap string Evaluate.counters) (field : string) : Z :=
  default 0 (Evaluate.correct_fields <$> fm !! field).

(** The correct counts of the fields of [l] together. *)
Definition sum_over (fm : gmap string Evaluate.counters) (l : list string) : Z :=
  foldr (fun field acc => correct_of fm field + acc) 0 l.

(** The correct counts of all fields together. *)
Definition sum_correct (fm : gmap string Evaluate.counters) : Z :=
  sum_over fm Evaluate.fields_to_evaluate.

(** The report after [n] records: every field has been counted [n] times,
    the overall total is nine times that, and the overall correct count is
    the sum of the fields' correct counts. *)
Definition consistent (st : Metrics.report) (n : Z) : Prop :=
  Evaluate.total_fields (Metrics.overall st) = 9 * n
  /\ Forall (fun f => exists c, Metrics.field_metrics st !! f = Some c
                                /\ Evaluate.total_fields c = n
                                /\ 0 <= Evaluate.correct_fields c <= n)
            Evaluate.fields_to_evaluate
  /\ sum_correct (Metrics.field_metrics st)
     = Evaluate.correct_fields (Metrics.overall st).

(** Every code of the reference is in upper case, as UN/LOCODEs are. *)
Definition uppercase_codes (port_map : gmap string string) : Prop :=
  forall c n, port_map !! c = Some n -> upper c = c.

(** A port code with its name: a string code that the reference maps to
    the name, or a null code with a null name. *)
Definition named_by (port_map : gmap string string) (code name : pyval) : Prop :=
  match code with
  | VNone => name = VNone
  | VStr c => exists n, port_map !! c = Some n /\ name = VStr n
  | _ => False
  end.

(** Neither NaN nor negative: a zero, a finite number or an infinity with
    a clear sign bit. *)
Definition non_negative (x : spec_float) : bool :=
  match x with
  | S754_nan => false
  | S754_zero s | S754_infinity s | S754_finite s _ _ => negb s
  end.

Definition non_negative_opt (o : option spec_float) : bool :=
  match o with
  | Some x => non_negative x
  | None => true
  end.

(** The value is null or a float that satisfies [P]. *)
Definition float_or_null (P : spec_float -> bool) (v : pyval) : Prop :=
  match v with
  | VNone => True
  | VFloat x => P x = true
  | _ => False
  end.

Fixpoint all_chars (P : ascii -> bool) (s : string) : bool :=
  match s with
  | EmptyString => true
  | String c s' => P c && all_chars P s'
  end.

(** A digit or the decimal point. *)
Definition is_plain (c : ascii) : bool := is_digit c || Ascii.eqb c ".".

(** A digit, the decimal point or the thousands separator. *)
Definition is_grouped (c : ascii) : bool := is_plain c || Ascii.eqb c ",".

(** Every character the expression can consume satisfies [P]. *)
Fixpoint consumes (P : ascii -> bool) (r : Rx.rx) : Prop :=
  match r with
  | Rx.Eps | Rx.Bound => True
  | Rx.Lit c => P c = true
  | Rx.LitI c => forall d, lower_char c = lower_char d -> P d = true
  | Rx.Digit => forall d, is_digit d = true -> P d = true
  | Rx.Space => forall d, is_space d = true -> P d = true
  | Rx.Seq a b | Rx.Alt a b => consumes P a /\ consumes P b
  | Rx.Star a | Rx.Group a => consumes P a
  end.

(** The expression has no capturing group. *)
Fixpoint group_free (r : Rx.rx) : bool :=
  match r with
  | Rx.Group _ => false
  | Rx.Seq a b | Rx.Alt a b => group_free a && group_free b
  | Rx.Star a => group_free a
  | _ => true
  end.

End Notions.

(** * Properties *)

Section RegexFacts.
Import PyStr Re Spec Unicode.
Lemma starts_first a p t : starts (String a p) t = true -> first t = Some (chr a).
Proof.
  destruct t as [|b t]; simpl; [done|].
  intros H. apply andb_prop in H as [H _].
  apply N.eqb_eq in H. by subst.
Qed.

Lemma last_char_cons a p prev :
  last_char (String a p) prev = last_char p (Some (chr a)).
Proof.
  destruct p as [|b p]; [done|].
  unfold last_char. simpl. done.
Qed.

(** Matching a run of literal characters is a prefix test. *)
Lemma match_here_lits {U : database} p r prev t :
  match_here (lits p ++ r)%list prev t =
  starts p t && match_here r (last_char p prev) (after (String.length p) t).
Proof.
  revert prev t. induction p as [|a p IH]; intros prev t.
  - simpl. reflexivity.
  - rewrite last_char_cons. destruct t as [|b t]; simpl; [done|].
    rewrite IH. by destruct (N.eqb_spec (chr a) b) as [->|].
Qed.

Lemma search_from_lits {U : database} p prev t : search_from (lits p) prev t = occurs p t.
Proof.
  revert prev. induction t as [|c t IH]; intros prev; simpl.
  - rewrite <- (app_nil_r (lits p)), match_here_lits. simpl.
    by rewrite andb_true_r, orb_false_r.
  - rewrite IH. f_equal.
    rewrite <- (app_nil_r (lits p)), match_here_lits. simpl.
    by rewrite andb_true_r.
Qed.

Lemma last_char_word a w prev :
  last_char (String a w) prev = last_char (String a w) None.
Proof. done. Qed.

(** [\bw\b] at one position, for a word [w] that starts and ends with a
    word character. *)
Lemma match_here_whole_word {U : database} a w prev t :
  is_word (chr a) = true ->
  word_opt (last_char (String a w) None) = true ->
  match_here (Boundary :: lits (String a w) ++ [Boundary])%list prev t =
  negb (word_opt prev) && starts (String a w) t
  && negb (word_opt (first (after (String.length (String a w)) t))).
Proof.
  intros Ha Hl.
  change (match_here (Boundary :: lits (String a w) ++ [Boundary])%list prev t)
    with (at_boundary prev (first t)
          && match_here (lits (String a w) ++ [Boundary])%list prev t).
  rewrite match_here_lits.
  destruct (starts (String a w) t) eqn:Hp.
  - rewrite (starts_first _ _ _ Hp), (last_char_word a w prev).
    cbn [match_here]. unfold at_boundary. rewrite Hl. cbn [word_opt]. rewrite Ha.
    by destruct (word_opt prev), (word_opt (first _)).
  - by rewrite !andb_false_r.
Qed.

Lemma search_from_whole_word {U : database} a w prev t :
  is_word (chr a) = true ->
  word_opt (last_char (String a w) None) = true ->
  search_from (Boundary :: lits (String a w) ++ [Boundary])%list prev t =
  whole_word_from (String a w) prev t.
Proof.
  intros Ha Hl. revert prev.
  induction t as [|c t IH]; intros prev;
    cbn [search_from whole_word_from];
    rewrite match_here_whole_word by done; [done|].
  by rewrite IH.
Qed.

(** [\s*\d]: some whitespace, as much as it takes, then a digit. *)
Lemma star_space_digit {U : database} prev t :
  star CSpace (match_here [One CDigit]) prev t = spaces_digit t.
Proof.
  revert prev. induction t as [|c t IH]; intros prev; [done|].
  cbn [star spaces_digit cls_match match_here]. rewrite IH.
  by rewrite andb_true_r, orb_comm.
Qed.

Lemma match_here_class {U : database} prev t :
  match_here (Boundary :: lits "class" ++ [Star CSpace; One CDigit])%list prev t =
  negb (word_opt prev) && starts "class" t && spaces_digit (after 5 t).
Proof.
  change (match_here (Boundary :: lits "class" ++ [Star CSpace; One CDigit])%list prev t)
    with (at_boundary prev (first t)
          && match_here (lits "class" ++ [Star CSpace; One CDigit])%list prev t).
  rewrite match_here_lits.
  destruct (starts "class" t) eqn:Hp.
  - rewrite (starts_first _ _ _ Hp).
    change (match_here [Star CSpace; One CDigit]) with
      (star CSpace (match_here [One CDigit])).
    rewrite star_space_digit. unfold at_boundary.
    by destruct (word_opt prev).
  - by rewrite !andb_false_r.
Qed.

Lemma search_from_class {U : database} prev t :
  search_from (Boundary :: lits "class" ++ [Star CSpace; One CDigit])%list prev t =
  class_digit_from prev t.
Proof.
  revert prev. induction t as [|c t IH]; intros prev;
    cbn [search_from class_digit_from]; rewrite match_here_class; [done|].
  by rewrite IH.
Qed.

End RegexFacts.

Section DangerousGoods.
Import PyStr Re Spec Extract Unicode.

Lemma search_literal {U : database} p t :
  compile p = lits p -> search p t = occurs p t.
Proof. intros H. unfold search. rewrite H. apply search_from_lits. Qed.

Lemma search_word {U : database} a w t :
  compile ("\b" ++ String a w ++ "\b") = (Boundary :: lits (String a w) ++ [Boundary])%list ->
  is_word (chr a) = true ->
  word_opt (last_char (String a w) None) = true ->
  search ("\b" ++ String a w ++ "\b") t = whole_word (String a w) t.
Proof.
  intros H Ha Hl. unfold search. rewrite H. by apply search_from_whole_word.
Qed.

Lemma search_class {U : database} t : search class_pattern t = class_digit t.
Proof. apply search_from_class. Qed.

(** The negative patterns are plain substrings. *)
Lemma any_match_negatives {U : database} t : any_match negatives t = has_negative t.
Proof.
  unfold any_match, negatives, has_negative. cbn [existsb].
  rewrite !search_literal by done. by rewrite orb_false_r, !orb_assoc.
Qed.

Lemma any_match_positives {U : database} t :
  any_match positives_keywords t || search class_pattern t = has_positive t.
Proof.
  unfold any_match, positives_keywords, has_positive. cbn [existsb].
  rewrite (search_word "d" "g"), (search_word "i" "mo"), (search_word "i" "mdg") by done.
  rewrite !search_literal by done. rewrite search_class.
  by rewrite orb_false_r, !orb_assoc.
Qed.

(** The classifier in closed form: positive wording counts only when no
    negative wording is present. *)
Lemma check_dangerous_goods_spec {U : database} text hint :
  check_dangerous_goods text hint =
  negb (has_negative (to_lower text)) && has_positive (to_lower text).
Proof.
  unfold check_dangerous_goods.
  rewrite <- any_match_positives, any_match_negatives.
  destruct (has_negative _); [done|].
  destruct (any_match positives_keywords _); [done|].
  by destruct (search class_pattern _).
Qed.

(** C4. For every text, whatever characters it has: negative wording
    (non-hazardous, non-dg, not dangerous, non hazardous) in the lowered
    text is checked first and gives [false] whatever positive wording the
    text also has; a text with neither negative nor positive wording
    (whole-word dg, dangerous, hazardous, whole-word imo, whole-word imdg,
    class followed by optional whitespace and a digit) gives [false]. *)
Theorem check_dangerous_goods_negatives_win {U : database}
    (text : text) (hint : pyval) :
  (has_negative (to_lower text) = true ->
   check_dangerous_goods text hint = false)
  /\ (has_negative (to_lower text) = false ->
      has_positive (to_lower text) = false ->
      check_dangerous_goods text hint = false).
Proof.
  rewrite check_dangerous_goods_spec. split.
  - by intros ->.
  - by intros -> ->.
Qed.

(** The text of the witness has both kinds of wording. *)
Lemma check_dangerous_goods_negatives_win_witness :
  let both := of_str "Non-DG cargo, IMO class 3" in
  let none := of_str "General cargo, 12 cartons" in
  has_negative (@to_lower latin1 both) = true
  /\ has_positive (U := latin1) (@to_lower latin1 both) = true
  /\ check_dangerous_goods (U := latin1) both (VBool true) = false
  /\ check_dangerous_goods (U := latin1) none (VBool true) = false.
Proof.
  intros both none. split; [reflexivity|]. split; [reflexivity|]. split.
  - apply (proj1 (check_dangerous_goods_negatives_win (U := latin1)
                    both (VBool true))).
    reflexivity.
  - apply (proj2 (check_dangerous_goods_negatives_win (U := latin1)
                    none (VBool true)));
      reflexivity.
Defined.

(** White space and word characters outside ASCII count as the
    interpreter counts them: a no-break space between "class" and the
    digit is optional whitespace, and "dg" after an accented letter is
    not a whole word. *)
Example check_dangerous_goods_beyond_ascii :
  check_dangerous_goods (U := latin1)
    (of_str "class" ++ [160%N] ++ of_str "5")%list VNone = true
  /\ check_dangerous_goods (U := latin1) (233%N :: of_str "dg") VNone = false.
Proof. split; reflexivity. Qed.

(** C5. The classifier ignores the upstream hint: any two hints give the
    same answer for the same text. *)
Theorem check_dangerous_goods_ignores_hint {U : database}
    (text : text) (h1 h2 : pyval) :
  check_dangerous_goods text h1 = check_dangerous_goods text h2.
Proof. reflexivity. Qed.

End DangerousGoods.

Section ProductLine.
Import PyStr Spec Extract.

Lemma starts_with_IN_opt (code : option string) :
  starts_with_IN (of_opt_str code) = Ok (present_IN code).
Proof.
  destruct code as [s|]; [|done].
  unfold starts_with_IN. simpl.
  by destruct s.
Qed.

Lemma determine_product_line_opt (origin dest : option string) :
  determine_product_line (of_opt_str origin) (of_opt_str dest)
  = Ok (derive dest origin).
Proof.
  unfold determine_product_line, derive.
  rewrite !starts_with_IN_opt. simpl.
  destruct (present_IN dest); [done|]. simpl.
  by destruct (present_IN origin).
Qed.

(** C6. On two optional codes the deriver gives import when the
    destination is present and starts with IN, otherwise export when the
    origin is present and starts with IN, otherwise nothing; the
    destination is looked at first, so two Indian codes give import. *)
Theorem determine_product_line_derive (origin dest : option string) :
  determine_product_line (of_opt_str origin) (of_opt_str dest)
  = Ok (derive dest origin)
  /\ determine_product_line (VStr "INBOM") (VStr "INMAA")
     = Ok (Some "pl_sea_import_lcl").
Proof. split; [apply determine_product_line_opt|reflexivity]. Qed.

Example derive_import :
  determine_product_line (VStr "HKHKG") (VStr "INMAA") = Ok (Some "pl_sea_import_lcl").
Proof. reflexivity. Qed.

Example derive_export :
  determine_product_line (VStr "INMAA") (VStr "HKHKG") = Ok (Some "pl_sea_export_lcl").
Proof. reflexivity. Qed.

Example derive_absent : determine_product_line VNone VNone = Ok None.
Proof. reflexivity. Qed.

End ProductLine.

Section PortReference.
Import PyStr Spec Extract.

Lemma falsy_missing (o : option string) : falsy o = missing o.
Proof.
  destruct o as [s|]; [|done].
  unfold falsy. simpl. by rewrite negb_involutive.
Qed.

(** The first loop appends, to what [temp_map] already holds for a code,
    the names of the entries kept for that code. *)
Lemma collect_lookup (data : list port_entry) (temp_map : gmap string (list string))
    (code : string) :
  foldl collect temp_map data !! code =
  match temp_map !! code, names_for code data with
  | None, [] => None
  | o, l => Some (default [] o ++ l)%list
  end.
Proof.
  revert temp_map. induction data as [|e data IH]; intros temp_map.
  - simpl. destruct (temp_map !! code) as [l|]; [|done].
    simpl. by rewrite app_nil_r.
  - cbn [foldl]. rewrite IH. unfold names_for. cbn [omap list_omap].
    unfold collect. rewrite !falsy_missing.
    destruct (missing (entry_code e) || missing (entry_name e)) eqn:Hm; [done|].
    destruct (entry_code e) as [c|] eqn:Hc; [|done].
    destruct (entry_name e) as [n|] eqn:Hn; [|by rewrite orb_true_r in Hm].
    destruct (decide (Some c = Some code)) as [[= ->]|Hne].
    + rewrite lookup_insert_eq. cbn [default].
      destruct (temp_map !! code) as [l0|]; simpl;
        destruct (omap _ data); simpl; by rewrite <- ?app_assoc.
    + rewrite lookup_insert_ne by congruence. done.
Qed.

Lemma find_filter (names : list string) :
  List.find is_chennai names =
  match filter (fun n => disambiguates n = true) names with
  | n :: _ => Some n
  | [] => None
  end.
Proof.
  induction names as [|n names IH]; [done|].
  cbn [List.find]. rewrite filter_cons.
  change (is_chennai n) with (disambiguates n).
  destruct (decide (disambiguates n = true)) as [->|Hn]; [done|].
  apply not_true_is_false in Hn. by rewrite Hn.
Qed.

Lemma select_name_chosen (code : string) (names : list string) :
  select_name code names = chosen_name code names.
Proof.
  destruct names as [|first names]; [done|].
  unfold select_name, chosen_name. rewrite find_filter.
  destruct (decide (code = "INMAA")) as [->|Hne].
  - simpl. by destruct (filter _ _).
  - apply String.eqb_neq in Hne. by rewrite Hne.
Qed.

(** C3. The reference built from any list of entries skips the entries
    whose code or name is missing, and maps each remaining code to the
    first name seen for it; INMAA is the exception and gets the first name
    that contains Chennai and not Bangalore, or the first name seen when no
    name qualifies. *)
Theorem load_port_reference_chosen (data : list port_entry) (code : string) :
  load_port_reference data !! code = chosen_name code (names_for code data).
Proof.
  unfold load_port_reference.
  rewrite map_lookup_imap, collect_lookup, lookup_empty.
  destruct (names_for code data) as [|n l] eqn:Hn; [done|].
  cbn [default app mbind option_bind]. apply select_name_chosen.
Qed.

Example load_port_reference_trap :
  let ref := load_port_reference
    [ {| entry_code := Some "INMAA"; entry_name := Some "Bangalore ICD" |};
      {| entry_code := Some "INMAA"; entry_name := Some "Chennai ICD" |};
      {| entry_code := Some "HKHKG"; entry_name := Some "Hong Kong" |};
      {| entry_code := Some "HKHKG"; entry_name := Some "Hongkong" |};
      {| entry_code := None; entry_name := Some "Nowhere" |};
      {| entry_code := Some "SGSIN"; entry_name := Some "" |} ] in
  ref !! "INMAA" = Some "Chennai ICD" /\ ref !! "HKHKG" = Some "Hong Kong"
  /\ ref !! "SGSIN" = None.
Proof. vm_compute. done. Qed.

End PortReference.

Section FloatFacts.
Import PyFloat.

Lemma digits2_pos_size (p : positive) : digits2_pos p = Pos.size p.
Proof. induction p as [p IH|p IH|]; simpl; by rewrite ?IH. Qed.

Lemma pos_lt_pow_digits (p : positive) : Zpos p < 2 ^ Zpos (digits2_pos p).
Proof.
  rewrite digits2_pos_size.
  change 2 with (Zpos 2). rewrite <- Pos2Z.inj_pow.
  apply Pos2Z.pos_lt_pos, Pos.size_gt.
Qed.

Lemma Zdigits2_le (m K : Z) : 0 <= K -> 0 <= m < 2 ^ K -> Zdigits2 m <= K.
Proof.
  intros HK [Hm0 Hm]. destruct m as [|p|p]; simpl; [lia| |lia].
  rewrite digits2_pos_size.
  assert (H : 2 ^ Zpos (Pos.size p) <= Zpos p~0).
  { change 2 with (Zpos 2). rewrite <- Pos2Z.inj_pow.
    apply Pos2Z.pos_le_pos, Pos.size_le. }
  assert (H2 : 2 ^ Zpos (Pos.size p) < 2 ^ (K + 1)).
  { rewrite Z.pow_add_r by lia. lia. }
  apply Z.pow_lt_mono_r_iff in H2; lia.
Qed.

Lemma shr_1_bounds (mrs : shr_record) :
  0 <= shr_m mrs -> 0 <= shr_m (shr_1 mrs) <= shr_m mrs.
Proof.
  destruct mrs as [m r s]. simpl. intros Hm.
  destruct m as [|[p|p|]|p]; simpl; lia.
Qed.

Lemma iter_pos_shr_1_bounds (p : positive) (mrs : shr_record) :
  0 <= shr_m mrs -> 0 <= shr_m (SpecFloat.iter_pos shr_1 p mrs) <= shr_m mrs.
Proof.
  revert mrs. induction p as [p IH|p IH|]; intros mrs Hm; simpl.
  - pose proof (shr_1_bounds mrs Hm) as H1.
    pose proof (IH (shr_1 mrs) ltac:(lia)) as H2.
    pose proof (IH (SpecFloat.iter_pos shr_1 p (shr_1 mrs)) ltac:(lia)). lia.
  - pose proof (IH mrs Hm) as H1.
    pose proof (IH (SpecFloat.iter_pos shr_1 p mrs) ltac:(lia)). lia.
  - by apply shr_1_bounds.
Qed.

Lemma shr_m_of_loc (m : Z) (l : location) : shr_m (shr_record_of_loc m l) = m.
Proof. by destruct l as [|[]]. Qed.

(** One normalisation step keeps the mantissa within its bound and raises
    the exponent no further than the number of digits asks for. *)
Lemma shr_fexp_bounds (m e : Z) (l : location) (K : Z) :
  0 <= K -> 0 <= m < 2 ^ K ->
  0 <= shr_m (shr_fexp prec emax m e l).1 <= m
  /\ (shr_fexp prec emax m e l).2 <= Z.max e (Z.max (K + e - 53) (-1074)).
Proof.
  intros HK Hm. pose proof (Zdigits2_le m K HK Hm) as Hd.
  unfold shr_fexp, shr, fexp, emin, prec, emax.
  destruct (Z.max (Zdigits2 m + e - 53) (3 - 1024 - 53) - e) as [|p|p] eqn:Hn;
    cbn [fst snd]; rewrite ?shr_m_of_loc; try lia.
  pose proof (iter_pos_shr_1_bounds p (shr_record_of_loc m l)) as H.
  rewrite shr_m_of_loc in H. lia.
Qed.

Lemma round_nearest_even_bounds (m : Z) (l : location) :
  m <= round_nearest_even m l <= m + 1.
Proof. destruct l as [|[]]; simpl; try lia. destruct (Z.even m); lia. Qed.

(** Rounding a mantissa below [2^K] at a non-positive exponent cannot
    overflow, and gives a zero or a finite number. *)
Lemma binary_round_aux_finite (sx : bool) (m e : Z) (l : location) (K : Z) :
  0 <= K <= 400 -> 0 <= m < 2 ^ K -> e <= 0 ->
  is_finite (binary_round_aux prec emax sx m e l) = true.
Proof.
  intros HK Hm He. unfold binary_round_aux.
  pose proof (shr_fexp_bounds m e l K ltac:(lia) Hm) as [Hm1 He1].
  destruct (shr_fexp prec emax m e l) as [mrs1 e1]. cbn [fst snd] in *.
  pose proof (round_nearest_even_bounds (shr_m mrs1) (loc_of_shr_record mrs1)) as Hr.
  set (m1 := round_nearest_even _ _) in *.
  assert (Hm1' : 0 <= m1 < 2 ^ (K + 1)).
  { rewrite Z.pow_add_r by lia. lia. }
  pose proof (shr_fexp_bounds m1 e1 loc_Exact (K + 1) ltac:(lia) Hm1') as [Hm2 He2].
  destruct (shr_fexp prec emax m1 e1 loc_Exact) as [mrs2 e2]. cbn [fst snd] in *.
  destruct (shr_m mrs2) as [|p|p]; [done| |lia].
  unfold emax, prec.
  destruct (Z.leb_spec e2 (1024 - 53)); [done|lia].
Qed.

(** The quotient of an integer below [2^59] by 100 is in range. *)
Lemma of_ratio_cents_finite (s : bool) (n : positive) :
  Zpos n < 2 ^ 59 -> is_finite (of_ratio s n 100) = true.
Proof.
  intros Hn. unfold of_ratio, SFdiv, SFdiv_core_binary.
  change (Zdigits2 100) with 7. cbn [Zdigits2].
  pose proof (pos_lt_pow_digits n) as Hd.
  pose proof (Zdigits2_le (Zpos n) 59 ltac:(lia) ltac:(lia)) as Hd59.
  cbn [Zdigits2] in Hd59.
  set (d := Zpos (digits2_pos n)) in *.
  set (e' := Z.min (fexp prec emax (d + 0 - (7 + 0))) (0 - 0)).
  assert (He' : e' <= 0 /\ 0 - 0 - e' <= Z.max (60 - d) 0).
  { subst e'. unfold fexp, emin, prec, emax. lia. }
  set (m' := match 0 - 0 - e' with
             | 0 => Zpos n
             | Zpos _ => Z.shiftl (Zpos n) (0 - 0 - e')
             | Zneg _ => 0
             end).
  assert (Hm' : 0 <= m' < 2 ^ 60).
  { subst m'. destruct (0 - 0 - e') as [|p|p] eqn:Hs.
    - split; [lia|]. change (2 ^ 60) with (2 * 2 ^ 59). lia.
    - rewrite Z.shiftl_mul_pow2 by lia. split; [lia|].
      apply Z.lt_le_trans with (2 ^ d * 2 ^ Zpos p).
      + apply Z.mul_lt_mono_pos_r; lia.
      + rewrite <- Z.pow_add_r by lia. apply Z.pow_le_mono_r; lia.
    - split; [lia|]. by vm_compute. }
  pose proof (Z_div_mod m' 100 ltac:(lia)) as Hq.
  destruct (Z.div_eucl m' 100) as [q r].
  apply (binary_round_aux_finite _ q e' _ 60); lia.
Qed.

Lemma div_half_even_bounds (a : Z) (b : positive) :
  a / Zpos b <= div_half_even a b <= a / Zpos b + 1.
Proof.
  unfold div_half_even.
  destruct (2 * (a mod Zpos b) ?= Zpos b); [destruct (Z.even _)| |]; lia.
Qed.

Lemma scaled_cents_bounds (m : positive) (e : Z) :
  is_large m e = false -> 0 <= scaled_cents m e < 2 ^ 59.
Proof.
  unfold is_large, scaled_cents. intros H.
  assert (H52 : 100 * 2 ^ 52 < 2 ^ 59) by (by vm_compute).
  destruct e as [|k|k]; apply Z.leb_gt in H.
  - lia.
  - assert (0 < 2 ^ Zpos k) by (apply Z.pow_pos_nonneg; lia). nia.
  - rewrite Z.pow_add_r in H by lia.
    pose proof (div_half_even_bounds (Zpos m * 100) (2 ^ k)%positive) as Hb.
    rewrite Pos2Z.inj_pow in Hb. change (Zpos 2) with 2 in Hb.
    assert (Hk : 0 < 2 ^ Zpos k) by (apply Z.pow_pos_nonneg; lia).
    assert (0 <= Zpos m * 100 / 2 ^ Zpos k) by (apply Z.div_pos; lia).
    assert (Zpos m * 100 / 2 ^ Zpos k < 100 * 2 ^ 52).
    { apply Z.div_lt_upper_bound; [lia|]. nia. }
    lia.
Qed.

(** [round(x, 2)] never raises; it keeps NaN and the infinities and sends
    a finite number to a finite number. *)
Lemma round2_returns (x : spec_float) :
  exists r, round2 x = Ok r
            /\ is_nan r = is_nan x /\ is_inf r = is_inf x.
Proof.
  destruct x as [s|s| |s m e]; try (by eexists).
  unfold round2. destruct (is_large m e) eqn:Hl; [by eexists|].
  pose proof (scaled_cents_bounds m e Hl) as Hn.
  destruct (scaled_cents m e) as [|n|n]; [by eexists| |lia].
  pose proof (of_ratio_cents_finite s n ltac:(lia)) as Hf.
  destruct (of_ratio s n 100); try done; by eexists.
Qed.

(** A finite result is [x] itself for a large [x], and otherwise the
    double nearest to a whole number of hundredths. *)
Lemma round2_two_decimals (s : bool) (m : positive) (e : Z) (r : spec_float) :
  round2 (S754_finite s m e) = Ok r ->
  (is_large m e = true /\ r = S754_finite s m e)
  \/ (is_large m e = false /\ r = of_decimal s (scaled_cents m e) (-2)).
Proof.
  unfold round2. destruct (is_large m e) eqn:Hl; [intros [= <-]; by left|].
  intros H. right. split; [done|].
  pose proof (scaled_cents_bounds m e Hl) as Hn.
  destruct (scaled_cents m e) as [|n|n] eqn:Hc.
  - by injection H as <-.
  - unfold of_decimal. change (10 ^ 2)%positive with 100%positive.
    destruct (of_ratio s n 100); by simplify_eq.
  - lia.
Qed.

Lemma eqb_refl (x : spec_float) : eqb x x = negb (is_nan x).
Proof.
  unfold eqb, SFeqb. destruct x as [s|s| |s m e]; simpl; try done.
  - by destruct s.
  - destruct s; by rewrite Z.compare_refl, Pos.compare_cont_refl.
Qed.

End FloatFacts.

Section NumericCoercion.
Import PyFloat Spec Extract.

Lemma of_string_cases (s : string) :
  (exists x, of_string s = Ok x) \/ of_string s = Raise ValueError.
Proof.
  unfold of_string.
  destruct (drop_underscores None _) as [t|]; [|by right].
  destruct (sign t) as [neg u].
  destruct (inf_or_nan neg u); [left; by eexists|].
  destruct (decimal neg u); [left; by eexists|by right].
Qed.

(** [float(val)] returns, or raises [ValueError] or [TypeError], unless
    [val] is an integer out of range. *)
Lemma py_float_cases (val : pyval) :
  huge_int val = false ->
  (exists x, py_float val = Ok x)
  \/ py_float val = Raise ValueError \/ py_float val = Raise TypeError.
Proof.
  intros Hh. destruct val as [|b|z|x|s|l|d]; simpl;
    try (by left; eexists); try (by right; right).
  - simpl in Hh. unfold of_int. left.
    destruct (of_Z z); try done; by eexists.
  - destruct (of_string_cases s) as [H| ->]; [by left|right; by left].
Qed.

Lemma rounded_round2 (x y : spec_float) : round2 x = Ok y -> rounded x y.
Proof.
  destruct x as [s|s| |s m e]; try (by intros [= <-]).
  intros H. unfold rounded.
  by destruct (round2_two_decimals s m e y H) as [[-> ->]|[-> ->]].
Qed.

Lemma round_metric_cases (val : pyval) :
  huge_int val = false ->
  exists r, round_metric val = Ok r
    /\ match r with
       | None =>
           val = VNone \/ py_float val = Raise ValueError
           \/ py_float val = Raise TypeError
       | Some y =>
           exists x, py_float val = Ok x
             /\ is_nan y = is_nan x /\ is_inf y = is_inf x /\ rounded x y
       end.
Proof.
  intros Hh.
  assert (Hv : val = VNone \/ val <> VNone) by (destruct val; auto).
  destruct Hv as [->|Hv].
  { exists None. split; [done|by left]. }
  assert (Hrm : round_metric val =
                match f ← py_float val; round2 f with
                | Ok r => Ok (Some r)
                | Raise ValueError | Raise TypeError => Ok None
                | Raise e => Raise e
                end) by (by destruct val).
  rewrite Hrm.
  destruct (py_float_cases val Hh) as [[x Hx]|[Hx|Hx]]; rewrite Hx.
  - cbn [mbind result_bind].
    destruct (round2_returns x) as (y & Hy & Hnan & Hinf). rewrite Hy.
    exists (Some y). split; [done|]. exists x. eauto using rounded_round2.
  - exists None. split; [done|]. right; by left.
  - exists None. split; [done|]. right; by right.
Qed.

(** C8, as the code has it. For every cargo value other than an integer
    out of the range of [float], the coercer returns without raising:
    nothing when the value is null or does not parse, and otherwise the
    parsed number rounded to two decimals, which is NaN exactly when the
    parsed number is NaN and infinite exactly when it is infinite. *)
Theorem round_metric_rounds (val : pyval) :
  huge_int val = false ->
  exists r, round_metric val = Ok r
    /\ match r with
       | None =>
           val = VNone \/ py_float val = Raise ValueError
           \/ py_float val = Raise TypeError
       | Some y =>
           exists x, py_float val = Ok x
             /\ is_nan y = is_nan x /\ is_inf y = is_inf x /\ rounded x y
       end.
Proof. apply round_metric_cases. Qed.

Lemma round_metric_rounds_witness :
  huge_int (VStr "12.345") = false
  /\ exists r, round_metric (VStr "12.345") = Ok r
       /\ match r with
          | None =>
              VStr "12.345" = VNone \/ py_float (VStr "12.345") = Raise ValueError
              \/ py_float (VStr "12.345") = Raise TypeError
          | Some y =>
              exists x, py_float (VStr "12.345") = Ok x
                /\ is_nan y = is_nan x /\ is_inf y = is_inf x /\ rounded x y
          end.
Proof.
  split; [reflexivity|].
  apply (round_metric_rounds (VStr "12.345")). reflexivity.
Defined.

End NumericCoercion.

Section Assembler.
Import PyStr PyFloat Spec Extract.

Lemma validate_code_typed (port_map : gmap string string) (v : pyval) :
  str_or_null v = true ->
  validate_code port_map v = Ok (of_opt_str (norm_code port_map v)).
Proof.
  destruct v as [| | | |s| |]; try done. intros _.
  unfold validate_code, norm_code. cbn [truthy].
  destruct (String.eqb_spec s "") as [->|Hs]; [done|].
  cbn [negb]. by destruct (decide _).
Qed.

Lemma lookup_name_typed (port_map : gmap string string) (v : pyval) :
  lookup_name port_map (of_opt_str (norm_code port_map v))
  = port_name port_map (norm_code port_map v).
Proof.
  unfold lookup_name, port_name.
  destruct (norm_code port_map v) as [c|]; [|done].
  cbn [of_opt_str truthy]. by destruct (String.eqb c "").
Qed.

Lemma validate_opt_str_of_opt (o : option string) :
  validate_opt_str (of_opt_str o) = Ok o.
Proof. by destruct o. Qed.

Lemma normalize_incoterm_typed (v : pyval) :
  str_or_falsy v = true -> normalize_incoterm v = Ok (incoterm_of v).
Proof.
  unfold normalize_incoterm, incoterm_of, str_or_falsy.
  destruct v as [|b|z|x|s|l|d]; try (by intros ->).
  intros _. cbn [truthy].
  destruct (String.eqb_spec s "") as [->|Hs]; [done|].
  cbn [negb]. by destruct (str_in _ _).
Qed.

(** What the record's product line is, given the derived one. *)
Lemma product_line_choice (derived : option string) (pl : pyval) :
  str_or_falsy pl = true ->
  (derived = None \/ exists p, derived = Some p /\ p <> "") ->
  validate_opt_str
    (if negb (truthy (of_opt_str derived)) && truthy pl
     then pl else of_opt_str derived)
  = Ok (match derived with
        | Some p => Some p
        | None => fallback pl
        end).
Proof.
  intros Hpl [->|(p & -> & Hp)].
  - cbn [of_opt_str truthy negb andb]. unfold fallback, str_or_falsy in *.
    destruct pl as [|b|z|x|s|l|d]; try (by rewrite (negb_true_iff _) in Hpl; rewrite Hpl).
    cbn [truthy]. by destruct (String.eqb s "").
  - cbn [of_opt_str truthy]. apply String.eqb_neq in Hp. by rewrite Hp.
Qed.

Lemma derive_cases (dest origin : option string) :
  derive dest origin = None
  \/ exists p, derive dest origin = Some p /\ p <> "".
Proof.
  unfold derive. destruct (present_IN dest); [right; by eexists|].
  destruct (present_IN origin); [right; by eexists|by left].
Qed.

(** The assembler on a typed draft, field by field. *)
Lemma process_email_typed {U : Unicode.database}
    (email_id : string) (full_text : Unicode.text)
    (data : gmap string pyval) (port_map : gmap string string) :
  typed_draft data = true ->
  exists weight cbm,
    round_metric (dict_get data "cargo_weight_kg") = Ok weight
    /\ round_metric (dict_get data "cargo_cbm") = Ok cbm
    /\ process_email (VStr email_id) full_text data port_map =
       let origin_code := norm_code port_map (dict_get data "origin_port_code") in
       let dest_code := norm_code port_map (dict_get data "destination_port_code") in
       Ok {| id := email_id;
             product_line :=
               match derive dest_code origin_code with
               | Some p => Some p
               | None => fallback (dict_get data "product_line")
               end;
             origin_port_code := origin_code;
             origin_port_name := port_name port_map origin_code;
             destination_port_code := dest_code;
             destination_port_name := port_name port_map dest_code;
             incoterm := Some (incoterm_of (dict_get data "incoterm"));
             cargo_weight_kg := weight;
             cargo_cbm := cbm;
             is_dangerous :=
               Some (check_dangerous_goods full_text (dict_get data "is_dangerous")) |}.
Proof.
  unfold typed_draft. rewrite !andb_true_iff, !negb_true_iff.
  intros [[[[[Ho Hd] Hpl] Hi] Hw] Hc].
  destruct (round_metric_cases _ Hw) as (weight & Hweight & _).
  destruct (round_metric_cases _ Hc) as (cbm & Hcbm & _).
  exists weight, cbm. split; [done|]. split; [done|].
  unfold process_email.
  rewrite !validate_code_typed by done. cbn [mbind result_bind].
  rewrite determine_product_line_opt. cbn [mbind result_bind].
  rewrite normalize_incoterm_typed by done. cbn [mbind result_bind].
  rewrite Hweight, Hcbm. cbn [mbind result_bind validate_str].
  rewrite product_line_choice by (done || apply derive_cases).
  cbn [mbind result_bind].
  rewrite !validate_opt_str_of_opt. cbn [mbind result_bind].
  by rewrite !lookup_name_typed.
Qed.

End Assembler.

Section AssemblerClaims.
Import PyStr PyFloat Spec Extract.

Lemma starts_with_IN_typed (v : pyval) :
  str_or_falsy v = true -> returns (starts_with_IN v).
Proof.
  unfold starts_with_IN, str_or_falsy, returns.
  destruct v as [|b|z|x|s|l|d]; try (intros ->; by eexists).
  intros _. destruct (negb _); by eexists.
Qed.

Lemma determine_product_line_typed (origin dest : pyval) :
  str_or_falsy origin = true -> str_or_falsy dest = true ->
  returns (determine_product_line origin dest).
Proof.
  intros Ho Hd. unfold determine_product_line.
  destruct (starts_with_IN_typed dest Hd) as [d ->].
  destruct (starts_with_IN_typed origin Ho) as [o ->].
  cbn [mbind result_bind]. destruct d; [by eexists|].
  cbn [mbind result_bind]. destruct o; by eexists.
Qed.

(** C1, as the code has it. The assembler returns a record for every
    source text and every draft whose port codes are null or strings,
    whose product line and incoterm are strings or falsy, and whose cargo
    values are not integers beyond the range of a float; the incoterm
    normalizer returns for a string or falsy value, the numeric coercer
    for every value that is not such an integer, the product-line deriver
    for string or falsy codes.  (The dangerous-goods classifier is a total
    function of the text.) *)
Theorem assembler_and_normalizers_return {U : Unicode.database}
    (email_id : string) (full_text : Unicode.text) (data : gmap string pyval)
    (port_map : gmap string string) (inc num origin dest : pyval) :
  typed_draft data = true ->
  str_or_falsy inc = true ->
  huge_int num = false ->
  str_or_falsy origin = true ->
  str_or_falsy dest = true ->
  returns (process_email (VStr email_id) full_text data port_map)
  /\ returns (normalize_incoterm inc)
  /\ returns (round_metric num)
  /\ returns (determine_product_line origin dest).
Proof.
  intros Hd Hi Hn Ho Hdest. repeat split.
  - destruct (process_email_typed email_id full_text data port_map Hd)
      as (w & c & _ & _ & ->). by eexists.
  - rewrite normalize_incoterm_typed by done. by eexists.
  - destruct (round_metric_cases num Hn) as (r & -> & _). by eexists.
  - by apply determine_product_line_typed.
Qed.

Lemma assembler_and_normalizers_return_witness :
  returns (process_email (U := Unicode.latin1) (VStr "e1") Scenario.source_text Scenario.draft
             Scenario.reference)
  /\ returns (normalize_incoterm (VStr "cif"))
  /\ returns (round_metric (VList [VInt 1]))
  /\ returns (determine_product_line VNone (VStr "INMAA")).
Proof.
  apply (assembler_and_normalizers_return (U := Unicode.latin1) "e1" Scenario.source_text
           Scenario.draft Scenario.reference
           (VStr "cif") (VList [VInt 1]) VNone (VStr "INMAA"));
    reflexivity.
Defined.

(** A number where a port code or an incoterm should be raises
    [AttributeError]: neither the assembler nor the incoterm normalizer is
    total over arbitrary JSON values. *)
Lemma process_email_raises_on_number :
  process_email (U := Unicode.latin1) (VStr "e1") (Unicode.of_str "Shipment")
      {[ "origin_port_code" := VInt 5 ]}
    Scenario.reference = Raise AttributeError
  /\ normalize_incoterm (VInt 5) = Raise AttributeError.
Proof. split; reflexivity. Qed.

(** An integer too large for a float escapes the [except] clause of the
    coercer, which names [ValueError] and [TypeError] only. *)
Example round_metric_huge_int :
  huge_int (VInt (10 ^ 400)) = true
  /\ round_metric (VInt (10 ^ 400)) = Raise OverflowError.
Proof. split; vm_compute; reflexivity. Qed.

(** Unparsable or non-numeric cargo degrades to an absent value, an
    unknown incoterm to FOB. *)
Example round_metric_degrades :
  round_metric (VStr "about 500") = Ok None
  /\ round_metric (VDict [("kg", VInt 5)]) = Ok None
  /\ round_metric (VStr " 1_000.005 ")
     = Ok (Some (S754_finite false 8796093022208000 (-43)))
  /\ normalize_incoterm (VStr "free on board") = Ok "FOB"
  /\ normalize_incoterm (VStr " cif ") = Ok "CIF".
Proof. repeat split; vm_compute; reflexivity. Qed.

(** The incoterm of a record is always one of the ten valid ones. *)
Lemma normalize_incoterm_valid (v : pyval) (s : string) :
  normalize_incoterm v = Ok s -> str_in s valid_incoterms = true.
Proof.
  unfold normalize_incoterm. destruct (negb (truthy v)); [by intros [= <-]|].
  destruct v as [| | | |t| |]; try done.
  destruct (str_in (upper (strip t)) valid_incoterms) eqn:Hv; by intros [= <-].
Qed.

(** The loop of [main] catches the failure and writes the defaults. *)
Example main_step_defaults :
  main_step (U := Unicode.latin1) (VStr "e1") (Unicode.of_str "Shipment")
      {[ "origin_port_code" := VInt 5 ]}
    Scenario.reference
  = model_dump (Scenario.defaults "e1" false).
Proof. vm_compute. reflexivity. Qed.

(** The scenario of the specification gives the expected record. *)
Example process_email_scenario :
  process_email (U := Unicode.latin1) (VStr "e1") Scenario.source_text
      Scenario.draft Scenario.reference
  = Ok Scenario.expected.
Proof. vm_compute. reflexivity. Qed.

(** The degraded path: an empty draft gives the defaults. *)
Example process_email_empty_draft :
  process_email (U := Unicode.latin1) (VStr "e1") (Unicode.of_str "Dangerous cargo")
      ∅ Scenario.reference
  = Ok (Scenario.defaults "e1" true).
Proof. vm_compute. reflexivity. Qed.

(** C2, at the failing input. An empty string as port code is not in the
    reference, yet the record keeps it instead of nulling it; only its
    name is null. *)
Theorem process_email_keeps_empty_code :
  Scenario.reference !! upper "" = None
  /\ process_email (U := Unicode.latin1) (VStr "e1") (Unicode.of_str "Shipment")
         {[ "origin_port_code" := VStr "" ]}
       Scenario.reference
     = Ok {| id := "e1";
             product_line := None;
             origin_port_code := Some "";
             origin_port_name := None;
             destination_port_code := None;
             destination_port_name := None;
             incoterm := Some "FOB";
             cargo_weight_kg := None;
             cargo_cbm := None;
             is_dangerous := Some false |}.
Proof. split; vm_compute; reflexivity. Qed.

(** Apart from the empty string, the ports of the record obey the
    invariant: a code is present only when the reference knows it, and the
    name is the one the reference gives. *)
Lemma norm_code_known (port_map : gmap string string) (v : pyval) (c : string) :
  norm_code port_map v = Some c -> c = "" \/ is_Some (port_map !! c).
Proof.
  unfold norm_code. destruct v as [| | | |s| |]; try done.
  destruct (String.eqb s ""); [intros [= <-]; by left|].
  destruct (decide _) as [H|]; [|done]. intros [= <-]. by right.
Qed.

Lemma process_email_ports {U : Unicode.database}
    (email_id : string) (full_text : Unicode.text)
    (data : gmap string pyval) (port_map : gmap string string) :
  typed_draft data = true ->
  exists r, process_email (VStr email_id) full_text data port_map = Ok r
    /\ origin_port_name r = port_name port_map (origin_port_code r)
    /\ destination_port_name r = port_name port_map (destination_port_code r)
    /\ (forall c, origin_port_code r = Some c -> c = "" \/ is_Some (port_map !! c))
    /\ (forall c, destination_port_code r = Some c ->
                  c = "" \/ is_Some (port_map !! c)).
Proof.
  intros Hd.
  destruct (process_email_typed email_id full_text data port_map Hd)
    as (w & c & _ & _ & ->).
  eexists. split; [done|]. cbn.
  repeat split; eauto using norm_code_known.
Qed.

(** A non-empty code unknown to the reference is nulled with its name. *)
Lemma process_email_unknown_code {U : Unicode.database}
    (email_id : string) (full_text : Unicode.text)
    (data : gmap string pyval) (port_map : gmap string string) (s : string) :
  typed_draft data = true ->
  dict_get data "origin_port_code" = VStr s -> s <> "" ->
  port_map !! upper s = None ->
  exists r, process_email (VStr email_id) full_text data port_map = Ok r
    /\ origin_port_code r = None /\ origin_port_name r = None.
Proof.
  intros Hd Hs Hne Hm.
  destruct (process_email_typed email_id full_text data port_map Hd)
    as (w & c & _ & _ & ->).
  eexists. split; [done|]. cbn. rewrite Hs. unfold norm_code.
  apply String.eqb_neq in Hne. rewrite Hne.
  destruct (decide _) as [[x Hx]|]; [congruence|done].
Qed.

(** C7, as the code has it. When the codes of the record derive no
    product line, the record takes the draft's own product line verbatim
    if that is a non-empty string, whatever the string, and has no product
    line if the draft's is absent, null or empty. *)
Theorem product_line_falls_back_to_draft {U : Unicode.database}
    (email_id : string) (full_text : Unicode.text) (data : gmap string pyval)
    (port_map : gmap string string) :
  typed_draft data = true ->
  exists r, process_email (VStr email_id) full_text data port_map = Ok r
    /\ (derive (destination_port_code r) (origin_port_code r) = None ->
        (forall s, dict_get data "product_line" = VStr s -> s <> "" ->
                   product_line r = Some s)
        /\ (truthy (dict_get data "product_line") = false ->
            product_line r = None)).
Proof.
  intros Hd.
  destruct (process_email_typed email_id full_text data port_map Hd)
    as (w & c & _ & _ & ->).
  eexists. split; [done|]. cbn. intros ->. split.
  - intros s -> Hs. unfold fallback. apply String.eqb_neq in Hs. by rewrite Hs.
  - unfold fallback. destruct (dict_get data "product_line"); try done.
    cbn [truthy]. intros H. apply negb_false_iff in H. by rewrite H.
Qed.

Lemma product_line_falls_back_to_draft_witness :
  exists r,
    process_email (U := Unicode.latin1) (VStr "e1") (Unicode.of_str "Air freight")
      {[ "product_line" := VStr "pl_air_import" ]} Scenario.reference = Ok r
    /\ (derive (destination_port_code r) (origin_port_code r) = None ->
        (forall s, dict_get {[ "product_line" := VStr "pl_air_import" ]} "product_line"
                   = VStr s -> s <> "" -> product_line r = Some s)
        /\ (truthy (dict_get {[ "product_line" := VStr "pl_air_import" ]} "product_line")
            = false -> product_line r = None)).
Proof.
  apply (product_line_falls_back_to_draft (U := Unicode.latin1) "e1" (Unicode.of_str "Air freight")
           {[ "product_line" := VStr "pl_air_import" ]} Scenario.reference).
  reflexivity.
Defined.

(** A product line outside the two canonical values is copied as it is. *)
Example process_email_foreign_product_line :
  product_line <$>
    process_email (U := Unicode.latin1) (VStr "e1") (Unicode.of_str "Air freight")
      {[ "product_line" := VStr "pl_air_import" ]} Scenario.reference
  = Ok (Some "pl_air_import").
Proof. vm_compute. reflexivity. Qed.

(** An empty product line in the draft is not copied: the record has
    none, although no product line is derived. *)
Lemma process_email_drops_empty_product_line :
  dict_get {[ "product_line" := VStr "" ]} "product_line" = VStr ""
  /\ process_email (U := Unicode.latin1) (VStr "e1") (Unicode.of_str "Shipment")
         {[ "product_line" := VStr "" ]}
       Scenario.reference
     = Ok (Scenario.defaults "e1" false)
  /\ product_line (Scenario.defaults "e1" false) = None
  /\ determine_product_line VNone VNone = Ok None.
Proof. repeat split; vm_compute; reflexivity. Qed.

(** The text nan parses as a float: the coercer returns NaN, and so does
    the record. *)
Lemma round_metric_nan :
  round_metric (VStr "nan") = Ok (Some S754_nan)
  /\ cargo_weight_kg <$>
       process_email (U := Unicode.latin1) (VStr "e1") (Unicode.of_str "Shipment")
           {[ "cargo_weight_kg" := VStr "nan" ]}
         Scenario.reference
     = Ok (Some S754_nan).
Proof. split; vm_compute; reflexivity. Qed.

End AssemblerClaims.

Section Comparator.
Import PyStr PyFloat Spec Evaluate.



Lemma compare_floats_values (a b : option spec_float) :
  compare_floats (of_opt VFloat a) (of_opt VFloat b) = Ok (numeric_equal a b).
Proof.
  destruct a as [x|], b as [y|]; try done.
  unfold compare_floats, numeric_equal. cbn [of_opt py_float mbind result_bind].
  destruct (round2_returns x) as (rx & -> & _).
  destruct (round2_returns y) as (ry & -> & _). done.
Qed.

Lemma numeric_equal_same (a : option spec_float) :
  numeric_equal a a = not_nan a.
Proof.
  destruct a as [x|]; [|done]. unfold numeric_equal, not_nan.
  destruct (round2_returns x) as (rx & -> & Hn & _).
  by rewrite eqb_refl, Hn.
Qed.

Lemma compare_values_text (field : string) (v1 v2 : pyval) :
  Extract.str_in field ["cargo_weight_kg"; "cargo_cbm"] = false ->
  compare_values field v1 v2
  = Ok (String.eqb (normalize_string v1) (normalize_string v2)).
Proof. unfold compare_values. by intros ->. Qed.

Lemma compare_values_number (field : string) (v1 v2 : pyval) :
  Extract.str_in field ["cargo_weight_kg"; "cargo_cbm"] = true ->
  compare_values field v1 v2 = compare_floats v1 v2.
Proof. unfold compare_values. by intros ->. Qed.

(** The two numbers of the scenario, as [float] reads them. *)
Example five_hundred_parsed :
  of_string "500.0" = Ok Scenario.five_hundred
  /\ of_string "500.001" = Ok Scenario.five_hundred_001
  /\ round2 Scenario.five_hundred_001 = Ok Scenario.five_hundred
  /\ PyRepr.float_repr Scenario.five_hundred_001 = "500.001".
Proof. repeat split; vm_compute; reflexivity. Qed.


(** One record against itself: every field but a NaN number is correct. *)
Lemma score_fields_same (r : ShipmentDetails) (c : counters) :
  not_nan (cargo_weight_kg r) = true ->
  not_nan (cargo_cbm r) = true ->
  score_fields (model_dump r) (model_dump r) c
  = Ok {| correct_fields := correct_fields c + 9;
          total_fields := total_fields c + 9 |}.
Proof.
  intros Hw Hc. destruct r as [i pl oc on dc dn inc w cb dg]. cbn in Hw, Hc.
  unfold score_fields, fields_to_evaluate. cbn [foldl].
  change (dict_get (model_dump _) "product_line") with (of_opt VStr pl).
  change (dict_get (model_dump _) "origin_port_code") with (of_opt VStr oc).
  change (dict_get (model_dump _) "origin_port_name") with (of_opt VStr on).
  change (dict_get (model_dump _) "destination_port_code") with (of_opt VStr dc).
  change (dict_get (model_dump _) "destination_port_name") with (of_opt VStr dn).
  change (dict_get (model_dump _) "incoterm") with (of_opt VStr inc).
  change (dict_get (model_dump _) "cargo_weight_kg") with (of_opt VFloat w).
  change (dict_get (model_dump _) "cargo_cbm") with (of_opt VFloat cb).
  change (dict_get (model_dump _) "is_dangerous") with (of_opt VBool dg).
  rewrite (compare_values_text "product_line"),
    (compare_values_text "origin_port_code"),
    (compare_values_text "origin_port_name"),
    (compare_values_text "destination_port_code"),
    (compare_values_text "destination_port_name"),
    (compare_values_text "incoterm"),
    (compare_values_text "is_dangerous") by done.
  rewrite (compare_values_number "cargo_weight_kg"),
    (compare_values_number "cargo_cbm") by done.
  rewrite !compare_floats_values, !numeric_equal_same, Hw, Hc.
  rewrite !String.eqb_refl. cbn [mbind result_bind correct_fields total_fields].
  do 2 f_equal; lia.
Qed.




(** Outside the canonical records: a record with a NaN weight, which the
    assembler produces from the text nan, compared with an identical copy
    scores 8 of 9, since NaN is not equal to itself. *)
Lemma identical_records_with_nan_differ :
  Extract.process_email (U := Unicode.latin1) (VStr "e1") Scenario.source_text
    (<["cargo_weight_kg" := VStr "nan"]> Scenario.draft) Scenario.reference
  = Ok Scenario.nan_record
  /\ evaluate_accuracy [as_item Scenario.nan_record] [as_item Scenario.nan_record]
     = Ok (Some {| correct_fields := 8; total_fields := 9 |})
  /\ eqb (overall_acc {| correct_fields := 8; total_fields := 9 |}) (of_Z 100)
     = false.
Proof. repeat split; vm_compute; reflexivity. Qed.

(** C10, at the failing input. A null is normalised to the lowercase
    text null, a textual null to its uppercase form, so the comparator
    judges a null and the text null unequal. *)
Theorem normalize_string_null_case :
  normalize_string VNone = "null"
  /\ normalize_string (VStr "null") = "NULL"
  /\ compare_values "product_line" VNone (VStr "null") = Ok false.
Proof. repeat split; vm_compute; reflexivity. Qed.

End Comparator.


(** * Further properties of the code *)

Section ResponseCleaning.
Import PyStr PyText Response Notions.

Lemma lstrip_no_lead (s : string) : no_lead (lstrip s).
Proof.
  induction s as [|c s IH]; [done|]. simpl.
  destruct (is_space c) eqn:Hc; [done|]. by simpl.
Qed.

Lemma lstrip_id (s : string) : no_lead s -> lstrip s = s.
Proof. destruct s as [|c s]; [done|]. simpl. by intros ->. Qed.

Lemma rstrip_no_lead (s : string) : no_lead s -> no_lead (rstrip s).
Proof.
  destruct s as [|c s]; [done|]. simpl. intros Hc.
  destruct (rstrip s); [by rewrite Hc|done].
Qed.

Lemma rstrip_idem (s : string) : rstrip (rstrip s) = rstrip s.
Proof.
  induction s as [|c s IH]; [done|]. simpl.
  destruct (rstrip s) as [|d r] eqn:Hr.
  - destruct (is_space c) eqn:Hc; [done|]. simpl. by rewrite Hc.
  - cbn [rstrip]. cbn [rstrip] in IH. by rewrite IH.
Qed.

Lemma strip_idem (s : string) : strip (strip s) = strip s.
Proof.
  unfold strip.
  rewrite (lstrip_id (rstrip (lstrip s))) by apply rstrip_no_lead, lstrip_no_lead.
  apply rstrip_idem.
Qed.

Lemma prefix_app (p s : string) : prefix p (p ++ s) = true.
Proof.
  induction p as [|a p IH]; [done|]. simpl. by rewrite Ascii.eqb_refl.
Qed.

Lemma drop_app (p s : string) : drop (String.length p) (p ++ s) = s.
Proof. induction p as [|a p IH]; [by destruct s|done]. Qed.

Lemma take_app (p s : string) : take (String.length p) (p ++ s) = p.
Proof.
  induction p as [|a p IH]; [by destruct s|]. simpl. by rewrite IH.
Qed.

Lemma length_app (p s : string) :
  String.length (p ++ s) = (String.length p + String.length s)%nat.
Proof. induction p as [|a p IH]; [done|]. simpl. by rewrite IH. Qed.

Lemma endswith_app (p s : string) : endswith (p ++ s) s = true.
Proof.
  unfold endswith. rewrite length_app.
  replace (String.length p + String.length s - String.length s)%nat
    with (String.length p) by lia.
  rewrite drop_app, String.eqb_refl.
  rewrite andb_true_r. apply Nat.leb_le. lia.
Qed.

Lemma drop_last_app (p s : string) :
  drop_last (String.length s) (p ++ s) = p.
Proof.
  unfold drop_last. rewrite length_app.
  replace (String.length p + String.length s - String.length s)%nat
    with (String.length p) by lia.
  apply take_app.
Qed.

Lemma replace_first_hit (old new s : string) :
  prefix old s = true ->
  replace_first old new s = new ++ drop (String.length old) s.
Proof. intros H. destruct s; simpl; by rewrite H. Qed.

Lemma replace_first_prefix (old s : string) :
  replace_first old "" (old ++ s) = s.
Proof.
  rewrite replace_first_hit by apply prefix_app.
  simpl. apply drop_app.
Qed.

(** What follows an opening fence, when it does not begin with a
    backtick: the closing fence is dropped and the rest stripped. *)
Lemma clean_after_fence (body : string) :
  not_first "`" body ->
  strip (let r := body ++ fence in
         let r := if startswith r fence then replace_first fence "" r else r in
         if endswith r fence then drop_last 3 r else r)
  = strip body.
Proof.
  intros Hb. cbn zeta. destruct body as [|c body].
  - done.
  - assert (Hp : startswith (String c body ++ fence) fence = false).
    { unfold startswith, fence.
      change (String c body ++ "```") with (String c (body ++ "```")).
      cbn [prefix].
      destruct (Ascii.eqb_spec "`" c) as [<-|]; [by exfalso; apply Hb|done]. }
    rewrite Hp, endswith_app.
    by rewrite (drop_last_app (String c body) fence
                : drop_last 3 (String c body ++ fence) = String c body).
Qed.

Lemma prefix_app_l (p q s : string) :
  prefix (p ++ q) s = true -> prefix p s = true.
Proof.
  revert s. induction p as [|a p IH]; intros s; [done|].
  destruct s as [|b s]; [done|]. simpl.
  intros [-> H]%andb_prop. by rewrite (IH s H).
Qed.

(** X1. The cleaned response never begins or ends with whitespace. *)
Theorem clean_json_response_stripped (response : string) :
  lstrip (clean_json_response response) = clean_json_response response
  /\ rstrip (clean_json_response response) = clean_json_response response.
Proof.
  unfold clean_json_response. cbn zeta.
  set (t := if endswith _ fence then _ else _). split.
  - apply lstrip_id, rstrip_no_lead, lstrip_no_lead.
  - apply rstrip_idem.
Qed.

(** X2. A response that, once stripped, is a body between an opening
    fence (with or without the json tag) and a closing fence is cleaned to
    the stripped body; after the json tag the body must not begin with a
    backtick, after the bare fence it must not begin with the letter j. *)
Theorem clean_json_response_fenced (response body : string) :
  (strip response = json_fence ++ body ++ fence /\ not_first "`" body)
  \/ (strip response = fence ++ body ++ fence /\ not_first "j" body) ->
  clean_json_response response = strip body.
Proof.
  unfold clean_json_response. cbn zeta. intros [[-> Hb]|[-> Hb]].
  - unfold startswith. rewrite !prefix_app, !replace_first_prefix.
    by apply clean_after_fence.
  - assert (Hj : startswith (fence ++ body ++ fence) json_fence = false).
    { unfold startswith, json_fence, fence.
      change ("```" ++ body ++ "```")
        with (String "`" (String "`" (String "`" (body ++ "```")))).
      cbn [prefix]. rewrite !Ascii.eqb_refl. cbn [andb].
      destruct body as [|c body]; [done|].
      change (String c body ++ "```") with (String c (body ++ "```")).
      cbn [prefix].
      destruct (Ascii.eqb_spec "j" c) as [<-|]; [by exfalso; apply Hb|done]. }
    rewrite !Hj. unfold startswith. rewrite !prefix_app, !replace_first_prefix.
    rewrite endswith_app.
    by rewrite (drop_last_app body fence
                : drop_last 3 (body ++ fence) = body).
Qed.

Lemma clean_json_response_fenced_witness :
  clean_json_response "  ```json {} ```  " = strip " {} "
  /\ clean_json_response "``` [1] ```" = strip " [1] ".
Proof.
  split.
  - apply (clean_json_response_fenced "  ```json {} ```  " " {} ").
    left. split; [reflexivity|discriminate].
  - apply (clean_json_response_fenced "``` [1] ```" " [1] ").
    right. split; [reflexivity|discriminate].
Defined.

(** X3. A response with no fence at either end of its stripped text is
    only stripped. *)
Theorem clean_json_response_plain (response : string) :
  startswith (strip response) fence = false ->
  endswith (strip response) fence = false ->
  clean_json_response response = strip response.
Proof.
  intros Hs He. unfold clean_json_response. cbn zeta.
  assert (Hj : startswith (strip response) json_fence = false).
  { destruct (startswith (strip response) json_fence) eqn:Hj; [|done].
    unfold startswith in *.
    by rewrite (prefix_app_l fence "json" _ Hj) in Hs. }
  rewrite !Hj, !Hs, !He. apply strip_idem.
Qed.

Lemma clean_json_response_plain_witness :
  clean_json_response "  {} " = strip "  {} ".
Proof.
  apply (clean_json_response_plain "  {} "); reflexivity.
Defined.

End ResponseCleaning.

Section CaseAndSpace.
Import PyStr.

Lemma upper_lower_char (c : ascii) : upper_char (lower_char c) = upper_char c.
Proof. destruct c as [[] [] [] [] [] [] [] []]; by vm_compute. Qed.

Lemma lower_upper_char (c : ascii) : lower_char (upper_char c) = lower_char c.
Proof. destruct c as [[] [] [] [] [] [] [] []]; by vm_compute. Qed.

Lemma upper_upper_char (c : ascii) : upper_char (upper_char c) = upper_char c.
Proof. destruct c as [[] [] [] [] [] [] [] []]; by vm_compute. Qed.

Lemma lower_lower_char (c : ascii) : lower_char (lower_char c) = lower_char c.
Proof. destruct c as [[] [] [] [] [] [] [] []]; by vm_compute. Qed.

Lemma is_space_lower_char (c : ascii) : is_space (lower_char c) = is_space c.
Proof. destruct c as [[] [] [] [] [] [] [] []]; by vm_compute. Qed.

Lemma is_space_upper_char (c : ascii) : is_space (upper_char c) = is_space c.
Proof. destruct c as [[] [] [] [] [] [] [] []]; by vm_compute. Qed.

Lemma map_chars_compose (f g h : ascii -> ascii) (s : string) :
  (forall c, f (g c) = h c) -> map_chars f (map_chars g s) = map_chars h s.
Proof. intros H. induction s as [|c s IH]; [done|]. simpl. by rewrite H, IH. Qed.

Lemma upper_lower (s : string) : upper (lower s) = upper s.
Proof. apply map_chars_compose, upper_lower_char. Qed.

Lemma lower_upper (s : string) : lower (upper s) = lower s.
Proof. apply map_chars_compose, lower_upper_char. Qed.

Lemma upper_upper (s : string) : upper (upper s) = upper s.
Proof. apply map_chars_compose, upper_upper_char. Qed.

Lemma lower_lower (s : string) : lower (lower s) = lower s.
Proof. apply map_chars_compose, lower_lower_char. Qed.

(** Stripping commutes with a change of case. *)
Lemma lstrip_map_chars (f : ascii -> ascii) (s : string) :
  (forall c, is_space (f c) = is_space c) ->
  lstrip (map_chars f s) = map_chars f (lstrip s).
Proof.
  intros H. induction s as [|c s IH]; [done|]. simpl.
  rewrite H. by destruct (is_space c).
Qed.

Lemma rstrip_map_chars (f : ascii -> ascii) (s : string) :
  (forall c, is_space (f c) = is_space c) ->
  rstrip (map_chars f s) = map_chars f (rstrip s).
Proof.
  intros H. induction s as [|c s IH]; [done|]. simpl.
  rewrite IH, H. destruct (rstrip s); simpl; [by destruct (is_space c)|done].
Qed.

Lemma strip_map_chars (f : ascii -> ascii) (s : string) :
  (forall c, is_space (f c) = is_space c) ->
  strip (map_chars f s) = map_chars f (strip s).
Proof.
  intros H. unfold strip. by rewrite lstrip_map_chars, rstrip_map_chars.
Qed.

Lemma map_chars_empty (f : ascii -> ascii) (s : string) :
  String.eqb (map_chars f s) "" = String.eqb s "".
Proof. by destruct s. Qed.

End CaseAndSpace.

Section Incoterm.
Import PyStr Spec Extract.

Lemma valid_incoterm_fixed (t : string) :
  str_in t valid_incoterms = true -> normalize_incoterm (VStr t) = Ok t.
Proof.
  unfold str_in, valid_incoterms. cbn [existsb].
  rewrite !orb_true_iff, !String.eqb_eq.
  intros [->|[->|[->|[->|[->|[->|[->|[->|[->|[->|[=]]]]]]]]]]]; reflexivity.
Qed.

(** X4. The incoterm normalizer raises exactly on the truthy values that
    are not strings, and what it raises is [AttributeError]; on every
    other value, that is on a string or a falsy value, it returns one of
    the ten valid incoterms. *)
Theorem normalize_incoterm_range (v : pyval) :
  match normalize_incoterm v with
  | Ok s => str_in s valid_incoterms = true /\ str_or_falsy v = true
  | Raise e => e = AttributeError /\ truthy v = true /\ str_or_falsy v = false
  end.
Proof.
  unfold normalize_incoterm, str_or_falsy.
  destruct v as [|b|z|x|t|l|d]; cbn [truthy negb];
    try done; try (by destruct b); try (by destruct (z =? 0));
    try (by destruct x); try (by destruct l); try (by destruct d).
  destruct (negb (negb (t =? "")%string)); [done|].
  destruct (str_in (upper (strip t)) valid_incoterms) eqn:Hv; done.
Qed.

(** X5. The incoterm normalizer ignores letter case and surrounding
    whitespace, and leaves its own results unchanged. *)
Theorem normalize_incoterm_insensitive (s : string) (v : pyval) (t : string) :
  normalize_incoterm v = Ok t ->
  normalize_incoterm (VStr (lower s)) = normalize_incoterm (VStr s)
  /\ normalize_incoterm (VStr (strip s)) = normalize_incoterm (VStr s)
  /\ normalize_incoterm (VStr t) = Ok t.
Proof.
  intros Hv. split; [|split].
  - unfold normalize_incoterm. cbn [truthy]. unfold lower at 1.
    rewrite map_chars_empty.
    destruct (negb (negb (s =? "")%string)); [done|].
    unfold lower. rewrite strip_map_chars by apply is_space_lower_char.
    fold (lower (strip s)). by rewrite upper_lower.
  - unfold normalize_incoterm. cbn [truthy].
    rewrite (strip_idem s).
    destruct (String.eqb_spec s "") as [->|Hs]; [done|]. cbn [negb].
    destruct (String.eqb_spec (strip s) "") as [->|Hs']; [done|done].
  - by apply valid_incoterm_fixed, (normalize_incoterm_valid v).
Qed.

Lemma normalize_incoterm_insensitive_witness :
  normalize_incoterm (VStr (lower " Cif ")) = normalize_incoterm (VStr " Cif ")
  /\ normalize_incoterm (VStr (strip " Cif ")) = normalize_incoterm (VStr " Cif ")
  /\ normalize_incoterm (VStr "CIF") = Ok "CIF".
Proof.
  apply (normalize_incoterm_insensitive " Cif " (VStr "cif") "CIF").
  reflexivity.
Defined.

End Incoterm.

Section DangerousGoodsMore.
Import PyStr Spec Extract.

(** X6. For every text, whatever characters it has: positive wording
    with no negative wording gives [true]; the hyphenated non-dangerous
    is not among the negative patterns. *)
Theorem check_dangerous_goods_positive {U : Unicode.database}
    (text : Unicode.text) (hint : pyval) :
  has_negative (Unicode.to_lower text) = false ->
  has_positive (Unicode.to_lower text) = true ->
  check_dangerous_goods text hint = true.
Proof. intros Hn Hp. by rewrite check_dangerous_goods_spec, Hn, Hp. Qed.

Lemma check_dangerous_goods_positive_witness :
  check_dangerous_goods (U := Unicode.latin1)
    (Unicode.of_str "Cargo is non-dangerous, 3 pallets") (VBool false) = true.
Proof.
  apply (check_dangerous_goods_positive (U := Unicode.latin1)
           (Unicode.of_str "Cargo is non-dangerous, 3 pallets") (VBool false));
    reflexivity.
Defined.

End DangerousGoodsMore.

Section AssemblerInversion.
Import PyStr PyFloat Spec Extract Notions.

(** A port code that passes both the validation block and the schema. *)
Lemma validate_code_inv (port_map : gmap string string) (v oc : pyval)
    (o : option string) :
  validate_code port_map v = Ok oc -> validate_opt_str oc = Ok o ->
  str_or_null v = true /\ oc = of_opt_str (norm_code port_map v)
  /\ o = norm_code port_map v.
Proof.
  intros Hv Ho.
  destruct v as [|b|z|x|s|l|d];
    try (rewrite validate_code_typed in Hv by done;
         match type of Hv with
         | Ok ?a = Ok _ => assert (Hoc : oc = a) by congruence
         end;
         rewrite Hoc, validate_opt_str_of_opt in Ho;
         split; [done|]; split; congruence);
    unfold validate_code in Hv; cbn [truthy] in Hv.
  - destruct b; [done|]. by injection Hv as <-.
  - destruct (z =? 0); [|done]. by injection Hv as <-.
  - destruct x; try done; by injection Hv as <-.
  - destruct l; [|done]. by injection Hv as <-.
  - destruct d; [|done]. by injection Hv as <-.
Qed.

Lemma normalize_incoterm_inv (v : pyval) (s : string) :
  normalize_incoterm v = Ok s ->
  str_or_falsy v = true /\ s = incoterm_of v.
Proof.
  intros H. assert (Hf : str_or_falsy v = true).
  { unfold normalize_incoterm, str_or_falsy in *.
    destruct v; try done; by destruct (negb _). }
  split; [done|]. rewrite normalize_incoterm_typed in H by done.
  by injection H as <-.
Qed.

Lemma round_metric_not_huge (v : pyval) (w : option spec_float) :
  round_metric v = Ok w -> huge_int v = false.
Proof.
  destruct v as [|b|z|x|s|l|d]; try done.
  unfold round_metric, huge_int. cbn [py_float]. unfold of_int.
  by destruct (of_Z z).
Qed.

Lemma product_line_inv (derived : option string) (pl : pyval) (o : option string) :
  (derived = None \/ exists p, derived = Some p /\ p <> "") ->
  validate_opt_str
    (if negb (truthy (of_opt_str derived)) && truthy pl
     then pl else of_opt_str derived) = Ok o ->
  (derived = None -> str_or_falsy pl = true)
  /\ o = match derived with
         | Some p => Some p
         | None => fallback pl
         end.
Proof.
  intros [->|(p & -> & Hp)].
  - intros H.
    assert (Hf : str_or_falsy pl = true).
    { revert H. cbn [of_opt_str truthy negb andb].
      unfold str_or_falsy. destruct pl; try done; by destruct (truthy _). }
    split; [done|].
    rewrite (product_line_choice None pl Hf (or_introl eq_refl)) in H.
    by injection H as <-.
  - cbn [of_opt_str truthy]. apply String.eqb_neq in Hp. rewrite Hp.
    cbn [negb andb]. intros [= <-]. done.
Qed.

(** Whenever the assembler returns, its arguments were well typed and the
    record is the expected one. *)
Lemma process_email_inv {U : Unicode.database}
    (email_id : pyval) (full_text : Unicode.text)
    (data : gmap string pyval) (port_map : gmap string string)
    (r : ShipmentDetails) :
  process_email email_id full_text data port_map = Ok r ->
  exists i weight cbm,
    email_id = VStr i
    /\ str_or_null (dict_get data "origin_port_code") = true
    /\ str_or_null (dict_get data "destination_port_code") = true
    /\ str_or_falsy (dict_get data "incoterm") = true
    /\ round_metric (dict_get data "cargo_weight_kg") = Ok weight
    /\ round_metric (dict_get data "cargo_cbm") = Ok cbm
    /\ (derive (norm_code port_map (dict_get data "destination_port_code"))
               (norm_code port_map (dict_get data "origin_port_code")) = None ->
        str_or_falsy (dict_get data "product_line") = true)
    /\ r = record_of i full_text data port_map weight cbm.
Proof.
  unfold process_email.
  destruct (validate_code port_map (dict_get data "origin_port_code"))
    as [oc|] eqn:Hoc; [|done].
  destruct (validate_code port_map (dict_get data "destination_port_code"))
    as [dc|] eqn:Hdc; [|done].
  cbn [mbind result_bind].
  destruct (determine_product_line oc dc) as [derived|] eqn:Hder; [|done].
  cbn [mbind result_bind].
  destruct (normalize_incoterm _) as [inc|] eqn:Hinc; [|done].
  cbn [mbind result_bind].
  destruct (round_metric (dict_get data "cargo_weight_kg")) as [w|] eqn:Hw; [|done].
  destruct (round_metric (dict_get data "cargo_cbm")) as [c|] eqn:Hc; [|done].
  cbn [mbind result_bind].
  destruct email_id as [| | | |i| |]; try done. cbn [validate_str mbind result_bind].
  match goal with
  | |- context [validate_opt_str (if ?b then ?x else ?y)] =>
      destruct (validate_opt_str (if b then x else y)) as [pl|] eqn:Hpl; [|done]
  end.
  cbn [mbind result_bind].
  destruct (validate_opt_str oc) as [o|] eqn:Ho; [|done].
  destruct (validate_opt_str dc) as [d|] eqn:Hd; [|done].
  cbn [mbind result_bind]. intros [= <-].
  destruct (validate_code_inv _ _ _ _ Hoc Ho) as (Hto & -> & ->).
  destruct (validate_code_inv _ _ _ _ Hdc Hd) as (Htd & -> & ->).
  rewrite determine_product_line_opt in Hder. injection Hder as <-.
  destruct (normalize_incoterm_inv _ _ Hinc) as [Hti ->].
  destruct (product_line_inv _ _ _ (derive_cases _ _) Hpl) as [Htp ->].
  exists i, w, c. repeat (split; [done|]).
  unfold record_of. by rewrite !lookup_name_typed.
Qed.

End AssemblerInversion.

Section AssemblerMore.
Import PyStr PyFloat Spec Extract Notions.

Lemma norm_code_nonempty (port_map : gmap string string) (v : pyval) (c : string) :
  norm_code port_map v = Some c -> c <> "" ->
  upper c = c /\ exists n, port_map !! c = Some n.
Proof.
  unfold norm_code. destruct v as [| | | |s| |]; try done.
  destruct (String.eqb s ""); [by intros [= <-]|].
  destruct (decide _) as [[n Hn]|]; [|done].
  intros [= <-] _. split; [apply upper_upper|by exists n].
Qed.

Lemma port_name_nonempty (port_map : gmap string string) (c : string) :
  c <> "" -> port_name port_map (Some c) = port_map !! c.
Proof. intros Hc. simpl. apply String.eqb_neq in Hc. by rewrite Hc. Qed.

Lemma incoterm_of_valid (v : pyval) : str_in (incoterm_of v) valid_incoterms = true.
Proof.
  unfold incoterm_of. destruct v as [| | | |s| |]; try done.
  by destruct (str_in (upper (strip s)) valid_incoterms) eqn:Hs.
Qed.

Lemma fallback_nonempty (v : pyval) : fallback v <> Some "".
Proof.
  unfold fallback. destruct v as [| | | |s| |]; try done.
  destruct (String.eqb_spec s ""); congruence.
Qed.

Lemma fallback_none (v : pyval) :
  str_or_falsy v = true -> fallback v = None -> truthy v = false.
Proof.
  unfold fallback, str_or_falsy. destruct v as [| | | |s| |];
    try (by intros ->%negb_true_iff).
  intros _. cbn [truthy]. by destruct (String.eqb s "").
Qed.

(** X8. In every record the assembler returns, each port name is the one
    the reference gives for the record's code; a non-empty code is
    uppercase and a key of the reference, and a null or empty code has no
    name. *)
Theorem process_email_port_invariant {U : Unicode.database}
    (email_id : pyval) (full_text : Unicode.text)
    (data : gmap string pyval) (port_map : gmap string string)
    (r : ShipmentDetails) :
  process_email email_id full_text data port_map = Ok r ->
  (forall c, origin_port_code r = Some c -> c <> "" ->
     upper c = c
     /\ exists n, port_map !! c = Some n /\ origin_port_name r = Some n)
  /\ (forall c, destination_port_code r = Some c -> c <> "" ->
        upper c = c
        /\ exists n, port_map !! c = Some n /\ destination_port_name r = Some n)
  /\ (origin_port_code r = None \/ origin_port_code r = Some "" ->
      origin_port_name r = None)
  /\ (destination_port_code r = None \/ destination_port_code r = Some "" ->
      destination_port_name r = None).
Proof.
  intros H. destruct (process_email_inv _ _ _ _ _ H)
    as (i & w & c & _ & _ & _ & _ & _ & _ & _ & ->).
  unfold record_of. cbn. repeat split.
  - by destruct (norm_code_nonempty _ _ _ H0 H1).
  - destruct (norm_code_nonempty _ _ _ H0 H1) as [_ [n Hn]].
    exists n. rewrite H0, port_name_nonempty by done. done.
  - by destruct (norm_code_nonempty _ _ _ H0 H1).
  - destruct (norm_code_nonempty _ _ _ H0 H1) as [_ [n Hn]].
    exists n. rewrite H0, port_name_nonempty by done. done.
  - by intros [->| ->].
  - by intros [->| ->].
Qed.

Lemma process_email_port_invariant_witness :
  (forall c, origin_port_code Scenario.expected = Some c -> c <> "" ->
     upper c = c
     /\ exists n, Scenario.reference !! c = Some n
                  /\ origin_port_name Scenario.expected = Some n)
  /\ (forall c, destination_port_code Scenario.expected = Some c -> c <> "" ->
        upper c = c
        /\ exists n, Scenario.reference !! c = Some n
                     /\ destination_port_name Scenario.expected = Some n)
  /\ (origin_port_code Scenario.expected = None
      \/ origin_port_code Scenario.expected = Some "" ->
      origin_port_name Scenario.expected = None)
  /\ (destination_port_code Scenario.expected = None
      \/ destination_port_code Scenario.expected = Some "" ->
      destination_port_name Scenario.expected = None).
Proof.
  apply (process_email_port_invariant (U := Unicode.latin1) (VStr "e1") Scenario.source_text
           Scenario.draft Scenario.reference Scenario.expected).
  vm_compute. reflexivity.
Defined.

(** X9. Every record the assembler returns carries the id it was given,
    one of the ten valid incoterms, and the verdict of the dangerous-goods
    classifier on the text, whatever the draft says. *)
Theorem process_email_scalars {U : Unicode.database}
    (email_id : pyval) (full_text : Unicode.text)
    (data : gmap string pyval) (port_map : gmap string string)
    (r : ShipmentDetails) :
  process_email email_id full_text data port_map = Ok r ->
  email_id = VStr (id r)
  /\ (exists s, incoterm r = Some s /\ str_in s valid_incoterms = true)
  /\ is_dangerous r = Some (check_dangerous_goods full_text VNone).
Proof.
  intros H. destruct (process_email_inv _ _ _ _ _ H)
    as (i & w & c & -> & _ & _ & _ & _ & _ & _ & ->).
  unfold record_of. cbn. split; [done|]. split; [|done].
  eexists. split; [done|]. apply incoterm_of_valid.
Qed.

Lemma process_email_scalars_witness :
  VStr "e1" = VStr (id Scenario.expected)
  /\ (exists s, incoterm Scenario.expected = Some s
                /\ str_in s valid_incoterms = true)
  /\ is_dangerous Scenario.expected
     = Some (check_dangerous_goods (U := Unicode.latin1) Scenario.source_text VNone).
Proof.
  apply (process_email_scalars (U := Unicode.latin1) (VStr "e1") Scenario.source_text
           Scenario.draft Scenario.reference Scenario.expected).
  vm_compute. reflexivity.
Defined.

(** X10. A product line derived from the record's codes overrides the
    draft's; the record's product line is never the empty string, and it
    is null only when the codes derive nothing and the draft's own value
    is falsy. *)
Theorem process_email_product_line {U : Unicode.database}
    (email_id : pyval) (full_text : Unicode.text)
    (data : gmap string pyval) (port_map : gmap string string)
    (r : ShipmentDetails) :
  process_email email_id full_text data port_map = Ok r ->
  (forall p, derive (destination_port_code r) (origin_port_code r) = Some p ->
             product_line r = Some p)
  /\ product_line r <> Some ""
  /\ (product_line r = None ->
      derive (destination_port_code r) (origin_port_code r) = None
      /\ truthy (dict_get data "product_line") = false).
Proof.
  intros H. destruct (process_email_inv _ _ _ _ _ H)
    as (i & w & c & _ & _ & _ & _ & _ & _ & Hpl & ->).
  unfold record_of. cbn.
  destruct (derive_cases
              (norm_code port_map (dict_get data "destination_port_code"))
              (norm_code port_map (dict_get data "origin_port_code")))
    as [Hd|(p & Hd & Hp)]; rewrite Hd.
  - split; [done|]. split; [apply fallback_nonempty|].
    intros Hf. split; [done|]. by apply fallback_none; [apply Hpl|].
  - split; [done|]. split; [congruence|done].
Qed.

Lemma process_email_product_line_witness :
  (forall p, derive (destination_port_code Scenario.expected)
               (origin_port_code Scenario.expected) = Some p ->
             product_line Scenario.expected = Some p)
  /\ product_line Scenario.expected <> Some ""
  /\ (product_line Scenario.expected = None ->
      derive (destination_port_code Scenario.expected)
        (origin_port_code Scenario.expected) = None
      /\ truthy (dict_get (<["product_line" := VStr "pl_sea_export_lcl"]>
                            Scenario.draft) "product_line") = false).
Proof.
  apply (process_email_product_line (U := Unicode.latin1) (VStr "e1") Scenario.source_text
           (<["product_line" := VStr "pl_sea_export_lcl"]> Scenario.draft)
           Scenario.reference Scenario.expected).
  vm_compute. reflexivity.
Defined.

End AssemblerMore.

Section AssemblerDomain.
Import PyStr PyFloat Spec Extract Notions.

Lemma product_line_kept (derived : option string) (pl : pyval) :
  (derived = None \/ exists p, derived = Some p /\ p <> "") ->
  bool_decide (is_Some derived) || str_or_falsy pl = true ->
  validate_opt_str
    (if negb (truthy (of_opt_str derived)) && truthy pl
     then pl else of_opt_str derived)
  = Ok (match derived with
        | Some p => Some p
        | None => fallback pl
        end).
Proof.
  intros [->|(p & -> & Hp)] H.
  - apply product_line_choice; [|by left].
    apply orb_true_iff in H as [H|H]; [|done].
    apply bool_decide_eq_true in H. by destruct H.
  - cbn [of_opt_str truthy]. apply String.eqb_neq in Hp. by rewrite Hp.
Qed.

Lemma process_email_accepted {U : Unicode.database}
    (i : string) (full_text : Unicode.text)
    (data : gmap string pyval) (port_map : gmap string string) :
  accepted (VStr i) data port_map = true ->
  exists weight cbm,
    process_email (VStr i) full_text data port_map
    = Ok (record_of i full_text data port_map weight cbm).
Proof.
  unfold accepted. rewrite !andb_true_iff, !negb_true_iff.
  intros [[[[[[_ Ho] Hd] Hi] Hw] Hc] Hpl].
  destruct (round_metric_cases _ Hw) as (weight & Hweight & _).
  destruct (round_metric_cases _ Hc) as (cbm & Hcbm & _).
  exists weight, cbm. unfold process_email.
  rewrite !validate_code_typed by done. cbn [mbind result_bind].
  rewrite determine_product_line_opt. cbn [mbind result_bind].
  rewrite normalize_incoterm_typed by done. cbn [mbind result_bind].
  rewrite Hweight, Hcbm. cbn [mbind result_bind validate_str].
  rewrite product_line_kept by (done || apply derive_cases).
  cbn [mbind result_bind].
  rewrite !validate_opt_str_of_opt. cbn [mbind result_bind].
  unfold record_of. by rewrite !lookup_name_typed.
Qed.

(** X11. The assembler returns a record exactly on the accepted inputs: a
    string id, port codes that are null or strings, an incoterm that is a
    string or falsy, cargo values that are not integers beyond the range
    of a float, and a product line that is a string or falsy unless the
    validated codes already derive one.  On every other input it raises. *)
Theorem process_email_returns_iff {U : Unicode.database}
    (email_id : pyval) (full_text : Unicode.text)
    (data : gmap string pyval) (port_map : gmap string string) :
  returns (process_email email_id full_text data port_map)
  <-> accepted email_id data port_map = true.
Proof.
  split.
  - intros [r H]. destruct (process_email_inv _ _ _ _ _ H)
      as (i & w & c & -> & Ho & Hd & Hi & Hw & Hc & Hpl & _).
    unfold accepted. rewrite Ho, Hd, Hi.
    rewrite (round_metric_not_huge _ _ Hw), (round_metric_not_huge _ _ Hc).
    cbn [is_str negb andb].
    destruct (derive _ _) as [p|] eqn:Hder.
    + rewrite bool_decide_eq_true_2; [done|by eexists].
    + rewrite Hpl by done. apply orb_true_r.
  - intros H. destruct email_id as [| | | |i| |]; try done.
    destruct (process_email_accepted i full_text data port_map H)
      as (w & c & ->). by eexists.
Qed.

(** An empty draft, which is what a failed model call or an unparsable
    answer leaves, gives the default record. *)
Example process_email_empty {U : Unicode.database} (i : string) (full_text : Unicode.text)
    (port_map : gmap string string) :
  process_email (VStr i) full_text ∅ port_map
  = Ok (Scenario.defaults i (check_dangerous_goods full_text VNone)).
Proof. reflexivity. Qed.

(** X12. Without a reference, which is what a missing file leaves, a
    record that [process_email] returns names no port: both port names
    are null, a port code is null or the empty string, and the product
    line is the draft's own. *)
Theorem process_email_without_reference {U : Unicode.database}
    (email_id : pyval) (full_text : Unicode.text)
    (data : gmap string pyval) (r : ShipmentDetails) :
  process_email email_id full_text data ∅ = Ok r ->
  (origin_port_code r = None \/ origin_port_code r = Some "")
  /\ (destination_port_code r = None \/ destination_port_code r = Some "")
  /\ origin_port_name r = None
  /\ destination_port_name r = None
  /\ product_line r = fallback (dict_get data "product_line").
Proof.
  intros H. apply process_email_inv in H
    as (i & weight & cbm & _ & _ & _ & _ & _ & _ & _ & ->).
  unfold record_of.
  cbn [origin_port_code destination_port_code origin_port_name
       destination_port_name product_line].
  assert (Hn : forall v, norm_code ∅ v = None \/ norm_code ∅ v = Some "").
  { intros v. unfold norm_code. destruct v as [| | | |s| |]; auto.
    destruct (String.eqb s ""); [by right|]. left.
    destruct (decide _) as [[x Hx]|]; [|done]. by rewrite lookup_empty in Hx. }
  destruct (Hn (dict_get data "origin_port_code")) as [->| ->],
           (Hn (dict_get data "destination_port_code")) as [->| ->];
    cbn; auto 10.
Qed.

Lemma process_email_without_reference_witness :
  let r := {| id := "e1"; product_line := Some "pl_sea_import_lcl";
              origin_port_code := None; origin_port_name := None;
              destination_port_code := None; destination_port_name := None;
              incoterm := Some "FOB";
              cargo_weight_kg := Some Scenario.five_hundred; cargo_cbm := None;
              is_dangerous := Some false |} in
  (origin_port_code r = None \/ origin_port_code r = Some "")
  /\ (destination_port_code r = None \/ destination_port_code r = Some "")
  /\ origin_port_name r = None
  /\ destination_port_name r = None
  /\ product_line r = fallback (dict_get (<["product_line" := VStr "pl_sea_import_lcl"]> Scenario.draft) "product_line").
Proof.
  intros r.
  apply (process_email_without_reference (U := Unicode.latin1) (VStr "e1") Scenario.source_text
           (<["product_line" := VStr "pl_sea_import_lcl"]> Scenario.draft) r).
  vm_compute. reflexivity.
Defined.

Lemma model_dump_keys (r : ShipmentDetails) :
  dom (model_dump r)
  = list_to_set ["id"; "product_line"; "origin_port_code"; "origin_port_name";
                 "destination_port_code"; "destination_port_name"; "incoterm";
                 "cargo_weight_kg"; "cargo_cbm"; "is_dangerous"] :> gset string.
Proof. unfold model_dump. by rewrite dom_list_to_map_L. Qed.

(** X13. Whatever the id, the text, the draft and the reference, the
    record written by the loop of [main] has the ten keys of the schema,
    the id of the email, one of the ten valid incoterms and a boolean
    dangerous-goods flag. *)
Theorem main_step_record {U : Unicode.database}
    (email_id : pyval) (full_text : Unicode.text)
    (data : gmap string pyval) (port_map : gmap string string) :
  let res := main_step email_id full_text data port_map in
  dom res
  = list_to_set ["id"; "product_line"; "origin_port_code"; "origin_port_name";
                 "destination_port_code"; "destination_port_name"; "incoterm";
                 "cargo_weight_kg"; "cargo_cbm"; "is_dangerous"] :> gset string
  /\ res !! "id" = Some email_id
  /\ (exists s, res !! "incoterm" = Some (VStr s)
                /\ str_in s valid_incoterms = true)
  /\ (exists b, res !! "is_dangerous" = Some (VBool b)).
Proof.
  cbn zeta. unfold main_step.
  destruct (process_email email_id full_text data port_map) as [r|e] eqn:H.
  - destruct (process_email_inv _ _ _ _ _ H)
      as (i & w & c & -> & _ & _ & _ & _ & _ & _ & ->).
    split; [apply model_dump_keys|]. split; [done|]. split.
    + eexists. split; [done|]. apply incoterm_of_valid.
    + by eexists.
  - split; [by rewrite dom_list_to_map_L|]. split; [done|]. split.
    + by exists "FOB".
    + by eexists.
Qed.

End AssemblerDomain.

Section PortReferenceMore.
Import PyStr Spec Extract Notions.

Lemma load_port_reference_lookup (data : list port_entry) (code : string) :
  load_port_reference data !! code = chosen_name code (names_for code data).
Proof.
  unfold load_port_reference.
  rewrite map_lookup_imap, collect_lookup, lookup_empty.
  destruct (names_for code data) as [|n l] eqn:Hn; [done|].
  cbn [default app mbind option_bind]. apply select_name_chosen.
Qed.

Lemma chosen_name_elem (code : string) (names : list string) (n : string) :
  chosen_name code names = Some n -> n ∈ names.
Proof.
  unfold chosen_name. destruct names as [|first names]; [done|].
  destruct (decide (code = "INMAA")); [|intros [= <-]; by left].
  destruct (filter _ (first :: names)) as [|k l] eqn:Hf.
  - intros [= <-]. by left.
  - intros [= <-].
    assert (Hk : k ∈ filter (fun n => disambiguates n = true) (first :: names))
      by (rewrite Hf; by left).
    by apply list_elem_of_filter in Hk as [_ Hk].
Qed.

Lemma chosen_name_is_Some (code : string) (names : list string) :
  names <> [] -> is_Some (chosen_name code names).
Proof.
  unfold chosen_name. destruct names as [|first names]; [done|]. intros _.
  destruct (decide _); [|by eexists]. destruct (filter _ _); by eexists.
Qed.

Lemma elem_of_names_for (code n : string) (data : list port_entry) :
  n ∈ names_for code data <->
  code <> "" /\ n <> ""
  /\ {| entry_code := Some code; entry_name := Some n |} ∈ data.
Proof.
  unfold names_for. rewrite list_elem_of_omap. split.
  - intros ([c m] & He & H). simpl in H.
    destruct c as [c|]; [|done]. destruct m as [m|]; [|by rewrite orb_true_r in H].
    simpl in H.
    destruct (String.eqb_spec c ""); [done|].
    destruct (String.eqb_spec m ""); [done|]. simpl in H.
    destruct (decide _) as [[= ->]|]; [|done]. injection H as ->. done.
  - intros (Hc & Hn & He). eexists. split; [done|]. simpl.
    apply String.eqb_neq in Hc, Hn. rewrite Hc, Hn. simpl.
    by rewrite decide_True.
Qed.

(** X14. The map built from a reference file has a code as key exactly
    when some entry gives that code with a name, both non-empty; the name
    it maps the code to is the name of one such entry. *)
Theorem load_port_reference_entries (data : list port_entry) (code : string) :
  (is_Some (load_port_reference data !! code) <->
   exists n, code <> "" /\ n <> ""
             /\ {| entry_code := Some code; entry_name := Some n |} ∈ data)
  /\ (forall n, load_port_reference data !! code = Some n ->
        code <> "" /\ n <> ""
        /\ {| entry_code := Some code; entry_name := Some n |} ∈ data).
Proof.
  rewrite load_port_reference_lookup. split.
  - split.
    + intros [n Hn]. exists n. by apply elem_of_names_for, (chosen_name_elem code).
    + intros (n & H). apply chosen_name_is_Some.
      apply elem_of_names_for in H. intros Hnil. rewrite Hnil in H.
      by apply elem_of_nil in H.
  - intros n Hn. by apply elem_of_names_for, (chosen_name_elem code).
Qed.

Lemma names_for_app (code : string) (l1 l2 : list port_entry) :
  names_for code (l1 ++ l2)%list = (names_for code l1 ++ names_for code l2)%list.
Proof. unfold names_for. apply omap_app. Qed.

(** X15. The first name wins: once a code other than INMAA has a name,
    entries appended to the file do not change it; and no appended entry
    removes a key. *)
Theorem load_port_reference_append (data more : list port_entry) (code : string) :
  is_Some (load_port_reference data !! code) ->
  is_Some (load_port_reference (data ++ more)%list !! code)
  /\ (code <> "INMAA" ->
      load_port_reference (data ++ more)%list !! code
      = load_port_reference data !! code).
Proof.
  rewrite !load_port_reference_lookup, names_for_app.
  destruct (names_for code data) as [|n l]; [by intros [? ?]|]. intros _.
  split; [by apply chosen_name_is_Some|].
  intros Hc. unfold chosen_name. simpl. by rewrite !decide_False.
Qed.

Lemma load_port_reference_append_witness :
  is_Some (load_port_reference (Scenario.entries ++
             [ {| entry_code := Some "HKHKG"; entry_name := Some "Hongkong" |} ])%list
           !! "HKHKG")
  /\ ("HKHKG" <> "INMAA" ->
      load_port_reference (Scenario.entries ++
        [ {| entry_code := Some "HKHKG"; entry_name := Some "Hongkong" |} ])%list
        !! "HKHKG"
      = load_port_reference Scenario.entries !! "HKHKG").
Proof.
  apply (load_port_reference_append Scenario.entries
           [ {| entry_code := Some "HKHKG"; entry_name := Some "Hongkong" |} ]
           "HKHKG").
  vm_compute. by eexists.
Defined.

End PortReferenceMore.

Section PortReferenceRoundTrip.
Import PyStr Spec Extract Notions.

Lemma chosen_name_single (code n : string) : chosen_name code [n] = Some n.
Proof.
  unfold chosen_name. destruct (decide _); [|done].
  rewrite filter_cons. by destruct (decide _).
Qed.

Lemma names_for_entries (code : string) (l : list (string * string)) :
  NoDup l.*1 ->
  (forall k v, (k, v) ∈ l -> k <> "" /\ v <> "") ->
  names_for code
    ((fun kv => {| entry_code := Some kv.1; entry_name := Some kv.2 |}) <$> l)
  = option_list ((list_to_map l : gmap string string) !! code).
Proof.
  induction l as [|[k v] l IH]; intros Hnd Hwf; [done|].
  apply NoDup_cons in Hnd as [Hk Hnd].
  destruct (Hwf k v ltac:(by left)) as [Hk0 Hv0].
  specialize (IH Hnd (fun k' v' H => Hwf k' v' ltac:(by right))).
  cbn [fmap list_fmap list_to_map foldr]. unfold names_for in *.
  cbn [omap list_omap fst snd entry_code entry_name missing].
  apply String.eqb_neq in Hk0, Hv0. rewrite Hk0, Hv0. cbn [orb].
  destruct (decide (Some k = Some code)) as [[= ->]|Hne].
  - rewrite lookup_insert_eq. cbn [option_list].
    change (list_omap ?f ?l) with (omap f l). rewrite IH.
    by rewrite (not_elem_of_list_to_map_1 _ _ Hk).
  - rewrite lookup_insert_ne by congruence.
    change (list_omap ?f ?l) with (omap f l). by rewrite IH.
Qed.

(** X16. Round trip: a reference with no empty code or name, written out
    as one entry per code and loaded again, is unchanged, INMAA
    included. *)
Theorem load_port_reference_round_trip (m : gmap string string) :
  well_formed_reference m ->
  load_port_reference (entries_of m) = m.
Proof.
  intros Hwf. apply map_eq. intros code.
  rewrite load_port_reference_lookup. unfold entries_of.
  rewrite names_for_entries.
  - rewrite list_to_map_to_list.
    destruct (m !! code) as [n|]; [apply chosen_name_single|done].
  - apply NoDup_fst_map_to_list.
  - intros k v Hkv. apply elem_of_map_to_list in Hkv. by apply Hwf.
Qed.

Lemma load_port_reference_well_formed (data : list port_entry) :
  well_formed_reference (load_port_reference data).
Proof.
  intros c n H. rewrite load_port_reference_lookup in H.
  apply chosen_name_elem, elem_of_names_for in H. tauto.
Qed.

Lemma load_port_reference_round_trip_witness :
  load_port_reference (entries_of (load_port_reference Scenario.entries))
  = load_port_reference Scenario.entries.
Proof.
  apply (load_port_reference_round_trip (load_port_reference Scenario.entries)).
  apply load_port_reference_well_formed.
Defined.

End PortReferenceRoundTrip.

Section ComparatorMore.
Import PyStr PyFloat Spec Evaluate Notions.

Lemma eqb_sym (x y : spec_float) : eqb x y = eqb y x.
Proof.
  unfold eqb, SFeqb.
  destruct x as [sx|sx| |sx mx ex], y as [sy|sy| |sy my ey]; simpl; try done;
    try (by destruct sx); try (by destruct sy); try (by destruct sx, sy).
  destruct sx, sy; try done;
    rewrite (Z.compare_antisym ex ey);
    destruct (ex ?= ey) eqn:He; simpl; try done;
    change (Pos.compare_cont Eq my mx) with (my ?= mx)%positive;
    change (Pos.compare_cont Eq mx my) with (mx ?= my)%positive;
    rewrite (Pos.compare_antisym mx my); by destruct (mx ?= my)%positive.
Qed.

(** Rounded conversion of a value that is not an out-of-range integer:
    a float, or nothing when [float] raises [ValueError] or [TypeError]. *)
Lemma rounded_value (v : pyval) :
  huge_int v = false ->
  (exists r, (f ← py_float v; round2 f) = Ok r)
  \/ (f ← py_float v; round2 f) = Raise ValueError
  \/ (f ← py_float v; round2 f) = Raise TypeError.
Proof.
  intros Hh. destruct (py_float_cases v Hh) as [[x ->]|[-> | ->]].
  - left. cbn [mbind result_bind].
    destruct (round2_returns x) as (r & -> & _). by eexists.
  - right; by left.
  - right; by right.
Qed.

Lemma compare_floats_sym (v1 v2 : pyval) :
  huge_int v1 = false -> huge_int v2 = false ->
  (exists b, compare_floats v1 v2 = Ok b)
  /\ compare_floats v1 v2 = compare_floats v2 v1.
Proof.
  intros H1 H2.
  assert (Hn : forall v, v = VNone \/ v <> VNone) by (intros []; auto).
  destruct (Hn v1) as [->|N1], (Hn v2) as [->|N2].
  - split; [by eexists|done].
  - split; [exists false|]; by destruct v2.
  - split; [exists false|]; by destruct v1.
  - assert (E : forall a b, a <> VNone -> b <> VNone ->
                compare_floats a b =
                match
                  r1 ← (f1 ← py_float a; round2 f1);
                  r2 ← (f2 ← py_float b; round2 f2);
                  Ok (eqb r1 r2)
                with
                | Ok b => Ok b
                | Raise ValueError | Raise TypeError => Ok false
                | Raise e => Raise e
                end).
    { intros a b Ha Hb. by destruct a, b. }
    rewrite !E by done.
    destruct (rounded_value v1 H1) as [[r1 ->]|[-> | ->]],
             (rounded_value v2 H2) as [[r2 ->]|[-> | ->]];
      cbn [mbind result_bind]; (split; [by eexists|]); try done.
    by rewrite eqb_sym.
Qed.

(** X17. The comparator is symmetric: swapping the two values of a field
    gives the same verdict, and it gives a verdict, provided neither value
    is an integer beyond the range of a float. *)
Theorem compare_values_symmetric (field : string) (v1 v2 : pyval) :
  huge_int v1 = false -> huge_int v2 = false ->
  (exists b, compare_values field v1 v2 = Ok b)
  /\ compare_values field v1 v2 = compare_values field v2 v1.
Proof.
  intros H1 H2. unfold compare_values.
  destruct (Extract.str_in field _).
  - by apply compare_floats_sym.
  - split; [by eexists|]. by rewrite String.eqb_sym.
Qed.

Lemma compare_values_symmetric_witness :
  (exists b, compare_values "cargo_cbm" (VStr "1.50") (VInt 2) = Ok b)
  /\ compare_values "cargo_cbm" (VStr "1.50") (VInt 2)
     = compare_values "cargo_cbm" (VInt 2) (VStr "1.50").
Proof.
  apply (compare_values_symmetric "cargo_cbm" (VStr "1.50") (VInt 2));
    reflexivity.
Defined.

End ComparatorMore.

Section AccuracyCounters.
Import PyStr PyFloat Spec Evaluate Notions.

Lemma compare_values_returns (field : string) (truth pred : gmap string pyval) :
  in_range truth -> in_range pred ->
  exists b, compare_values field (dict_get truth field) (dict_get pred field) = Ok b.
Proof.
  intros [Tw Tc] [Pw Pc]. unfold compare_values.
  destruct (Extract.str_in field ["cargo_weight_kg"; "cargo_cbm"]) eqn:Hn;
    [|by eexists].
  unfold Extract.str_in in Hn. cbn [existsb] in Hn.
  rewrite !orb_true_iff, !String.eqb_eq in Hn.
  destruct Hn as [->|[->|[=]]]; by apply compare_floats_sym.
Qed.

(** The inner loop over any list of fields: every field is counted, and
    at most every field is correct. *)
Lemma score_fields_gen (truth pred : gmap string pyval) (l : list string)
    (c : counters) :
  in_range truth -> in_range pred ->
  exists k, 0 <= k <= Z.of_nat (length l)
    /\ foldl (fun acc field =>
                c ← acc;
                is_correct ← compare_values field (dict_get truth field)
                                (dict_get pred field);
                Ok {| correct_fields :=
                        if is_correct : bool then correct_fields c + 1
                        else correct_fields c;
                      total_fields := total_fields c + 1 |})
             (Ok c) l
       = Ok {| correct_fields := correct_fields c + k;
               total_fields := total_fields c + Z.of_nat (length l) |}.
Proof.
  intros Ht Hp. revert c. induction l as [|f l IH]; intros c.
  - exists 0. split; [simpl; lia|]. destruct c. simpl. f_equal. f_equal; lia.
  - destruct (compare_values_returns f truth pred Ht Hp) as [b Hb].
    cbn [foldl mbind result_bind]. rewrite Hb. cbn [mbind result_bind].
    destruct (IH {| correct_fields :=
                      if b then correct_fields c + 1 else correct_fields c;
                    total_fields := total_fields c + 1 |}) as (k & Hk & ->).
    exists (k + if b then 1 else 0). cbn [correct_fields total_fields length].
    split; [destruct b; lia|]. f_equal. f_equal; destruct b; lia.
Qed.

Lemma score_fields_counts (truth pred : gmap string pyval) (c : counters) :
  in_range truth -> in_range pred ->
  exists k, 0 <= k <= 9
    /\ score_fields truth pred c
       = Ok {| correct_fields := correct_fields c + k;
               total_fields := total_fields c + 9 |}.
Proof.
  intros Ht Hp.
  destruct (score_fields_gen truth pred fields_to_evaluate c Ht Hp) as (k & Hk & H).
  exists k. split; [exact Hk|exact H].
Qed.

(** The outer loop over any list of ground-truth records. *)
Lemma loop_counts (outputs : gmap string (gmap string pyval))
    (l : list (string * gmap string pyval)) (c : counters) :
  (forall k t, (k, t) ∈ l -> in_range t) ->
  (forall k p, outputs !! k = Some p -> in_range p) ->
  exists c',
    foldl (fun acc '(email_id, truth) =>
             c ← acc;
             match outputs !! email_id with
             | None => Ok c
             | Some pred => score_fields truth pred c
             end) (Ok c) l = Ok c'
    /\ total_fields c' = total_fields c
         + 9 * Z.of_nat (length (filter (fun kv => is_Some (outputs !! kv.1)) l))
    /\ correct_fields c <= correct_fields c'
    /\ correct_fields c' - correct_fields c <= total_fields c' - total_fields c.
Proof.
  intros Hl Ho. revert c. induction l as [|[k t] l IH]; intros c.
  - exists c. simpl. repeat split; lia.
  - specialize (IH (fun k' t' H => Hl k' t' ltac:(by right))).
    cbn [foldl mbind result_bind]. rewrite filter_cons. cbn [fst].
    destruct (outputs !! k) as [p|] eqn:Hk.
    + destruct (score_fields_counts t p c) as (n & Hn & ->);
        [by apply (Hl k t); left|by apply (Ho k p)|].
      destruct (IH {| correct_fields := correct_fields c + n;
                      total_fields := total_fields c + 9 |}) as (c' & -> & Ht & H1 & H2).
      exists c'. cbn [correct_fields total_fields] in *.
      rewrite decide_True by (by eexists). cbn [length].
      repeat split; lia.
    + destruct (IH c) as (c' & -> & Ht & H1 & H2).
      exists c'. rewrite decide_False by (by intros [? ?]).
      repeat split; lia.
Qed.

Lemma by_id_lookup_gen (l : list item) (m : gmap string (gmap string pyval))
    (k : string) (v : gmap string pyval) :
  foldl (fun m it => <[fst it := snd it]> m) m l !! k = Some v ->
  m !! k = Some v \/ (k, v) ∈ l.
Proof.
  revert m. induction l as [|[k' v'] l IH]; intros m; [by left|].
  cbn [foldl fst snd]. intros H. destruct (IH _ H) as [H'|H']; [|right; by right].
  destruct (decide (k' = k)) as [->|Hne].
  - rewrite lookup_insert_eq in H'. injection H' as ->. right; by left.
  - rewrite lookup_insert_ne in H' by done. by left.
Qed.

Lemma by_id_lookup (l : list item) (k : string) (v : gmap string pyval) :
  by_id l !! k = Some v -> (k, v) ∈ l.
Proof.
  intros H. by destruct (by_id_lookup_gen l ∅ k v H) as [H'|H'].
Qed.

Lemma by_id_non_empty_gen (l : list item) (m : gmap string (gmap string pyval)) :
  m <> ∅ \/ l <> [] -> foldl (fun m it => <[fst it := snd it]> m) m l <> ∅.
Proof.
  revert m. induction l as [|it l IH]; intros m H.
  - by destruct H.
  - cbn [foldl]. apply IH. left. apply insert_non_empty.
Qed.

Lemma by_id_non_empty (l : list item) : l <> [] -> by_id l <> ∅.
Proof. intros H. apply by_id_non_empty_gen. by right. Qed.

Lemma size_filter_map_to_list {A} (P : string * A -> Prop)
    `{!forall x, Decision (P x)} (m : gmap string A) :
  size (filter P m) = length (filter P (map_to_list m)).
Proof.
  rewrite map_filter_alt. apply map_size_list_to_map.
  eapply sublist_NoDup; [apply (NoDup_fst_map_to_list m)|].
  apply fmap_sublist, sublist_filter.
Qed.

(** X18. With no cargo value that is an integer beyond the range of a
    float, the evaluation of a non-empty output returns counters: nine
    fields are counted for each ground-truth id that the output also has,
    none for the others, and the correct fields are between zero and the
    total. *)
Theorem evaluate_accuracy_counts (output_items truth_items : list item) :
  Forall (fun it => in_range it.2) output_items ->
  Forall (fun it => in_range it.2) truth_items ->
  output_items <> [] ->
  exists c, evaluate_accuracy output_items truth_items = Ok (Some c)
    /\ total_fields c
       = 9 * Z.of_nat (size (matched (by_id output_items) (by_id truth_items)))
    /\ 0 <= correct_fields c <= total_fields c.
Proof.
  intros Ho Ht Hne. unfold evaluate_accuracy. cbn zeta.
  destruct (decide (by_id output_items = ∅)) as [He|_];
    [by apply by_id_non_empty in He|].
  destruct (loop_counts (by_id output_items) (map_to_list (by_id truth_items))
              {| correct_fields := 0; total_fields := 0 |})
    as (c & -> & Htot & H1 & H2).
  - intros k t H%elem_of_map_to_list%by_id_lookup.
    rewrite Forall_forall in Ht. apply (Ht (k, t) H).
  - intros k p H%by_id_lookup. rewrite Forall_forall in Ho. apply (Ho (k, p) H).
  - exists c. split; [done|]. cbn [correct_fields total_fields] in *.
    unfold matched. rewrite size_filter_map_to_list. lia.
Qed.

Lemma evaluate_accuracy_counts_witness :
  exists c, evaluate_accuracy [as_item Scenario.nan_record]
              [as_item Scenario.expected; ("e2", ∅)] = Ok (Some c)
    /\ total_fields c
       = 9 * Z.of_nat (size (matched (by_id [as_item Scenario.nan_record])
                               (by_id [as_item Scenario.expected; ("e2", ∅)])))
    /\ 0 <= correct_fields c <= total_fields c.
Proof.
  apply (evaluate_accuracy_counts [as_item Scenario.nan_record]
           [as_item Scenario.expected; ("e2", ∅)]).
  - repeat constructor.
  - repeat constructor.
  - discriminate.
Defined.

Example evaluate_accuracy_unmatched :
  evaluate_accuracy [as_item Scenario.nan_record]
    [as_item Scenario.expected; ("e2", ∅)]
  = Ok (Some {| correct_fields := 8; total_fields := 9 |}).
Proof. vm_compute. reflexivity. Qed.

Lemma model_dump_in_range (r : ShipmentDetails) : in_range (model_dump r).
Proof. destruct r as [i pl oc on dc dn inc [w|] [c|] dg]; by split. Qed.

(** The loop over records that are each compared with themselves. *)
Lemma loop_identical (outputs : gmap string (gmap string pyval))
    (l : list (string * gmap string pyval)) (c : counters) :
  (forall k t, (k, t) ∈ l ->
     outputs !! k = Some t
     /\ exists r, t = model_dump r
                  /\ not_nan (cargo_weight_kg r) = true
                  /\ not_nan (cargo_cbm r) = true) ->
  foldl (fun acc '(email_id, truth) =>
           c ← acc;
           match outputs !! email_id with
           | None => Ok c
           | Some pred => score_fields truth pred c
           end) (Ok c) l
  = Ok {| correct_fields := correct_fields c + 9 * Z.of_nat (length l);
          total_fields := total_fields c + 9 * Z.of_nat (length l) |}.
Proof.
  revert c. induction l as [|[k t] l IH]; intros c Hl.
  - destruct c. simpl. do 2 f_equal; lia.
  - destruct (Hl k t ltac:(by left)) as (Hk & r & -> & Hw & Hc).
    cbn [foldl mbind result_bind]. rewrite Hk, score_fields_same by done.
    rewrite IH by (intros k' t' H; apply Hl; by right).
    cbn [correct_fields total_fields length]. do 2 f_equal; lia.
Qed.

(** X19. A non-empty list of records without NaN numbers, evaluated
    against itself, scores every field of every id as correct. *)
Theorem evaluate_accuracy_identical (rs : list ShipmentDetails) :
  rs <> [] ->
  Forall (fun r => not_nan (cargo_weight_kg r) = true
                   /\ not_nan (cargo_cbm r) = true) rs ->
  exists c, evaluate_accuracy (as_item <$> rs) (as_item <$> rs) = Ok (Some c)
    /\ correct_fields c = total_fields c
    /\ total_fields c = 9 * Z.of_nat (size (by_id (as_item <$> rs)))
    /\ 0 < total_fields c.
Proof.
  intros Hne Hrs. unfold evaluate_accuracy. cbn zeta.
  assert (Hne' : as_item <$> rs <> []) by (by destruct rs).
  destruct (decide (by_id (as_item <$> rs) = ∅)) as [He|Hm];
    [by apply by_id_non_empty in He|].
  rewrite loop_identical.
  - eexists. split; [done|]. cbn [correct_fields total_fields].
    rewrite length_map_to_list.
    apply map_size_non_empty_iff in Hm. repeat split; lia.
  - intros k t H%elem_of_map_to_list. split; [done|].
    apply by_id_lookup, list_elem_of_fmap in H as (r & [= -> ->] & Hr).
    rewrite Forall_forall in Hrs. destruct (Hrs r Hr). by exists r.
Qed.

Lemma evaluate_accuracy_identical_witness :
  exists c,
    evaluate_accuracy (as_item <$> [Scenario.expected; Scenario.defaults "e2" false])
      (as_item <$> [Scenario.expected; Scenario.defaults "e2" false]) = Ok (Some c)
    /\ correct_fields c = total_fields c
    /\ total_fields c
       = 9 * Z.of_nat (size (by_id (as_item <$>
                                      [Scenario.expected; Scenario.defaults "e2" false])))
    /\ 0 < total_fields c.
Proof.
  apply (evaluate_accuracy_identical
           [Scenario.expected; Scenario.defaults "e2" false]).
  - discriminate.
  - repeat constructor.
Defined.

End AccuracyCounters.

Section MockPatterns.
Import PyStr PyText Spec Extract Notions.

Lemma elem_of_entry_patterns (e : port_entry) (pattern code : string) :
  (pattern, code) ∈ Mock.entry_patterns e ->
  pattern <> "" /\ code <> ""
  /\ exists n, n <> "" /\ e = {| entry_code := Some code; entry_name := Some n |}.
Proof.
  unfold Mock.entry_patterns. rewrite !falsy_missing.
  destruct e as [[c|] [n|]]; cbn [entry_code entry_name missing orb];
    try (by rewrite ?orb_true_r; intros H; apply elem_of_nil in H).
  destruct (String.eqb_spec c "") as [->|Hc]; [by intros H; apply elem_of_nil in H|].
  destruct (String.eqb_spec n "") as [->|Hn]; [by intros H; apply elem_of_nil in H|].
  cbn [orb]. rewrite elem_of_app, !elem_of_cons.
  intros [[[= -> ->]|[[= -> ->]|H]]|H]; try (split; [done|split; [done|by exists n]]).
  { by apply elem_of_nil in H. }
  destruct (contains "/" n); [|by apply elem_of_nil in H].
  apply list_elem_of_fmap in H as (part & [= -> ->] & H).
  apply list_elem_of_In, filter_In in H as [_ Hl].
  split; [|split; [done|by exists n]].
  intros ->. done.
Qed.

Lemma entry_patterns_code (c n : string) :
  c <> "" -> n <> "" ->
  (c, c) ∈ Mock.entry_patterns {| entry_code := Some c; entry_name := Some n |}.
Proof.
  intros Hc Hn. unfold Mock.entry_patterns. rewrite !falsy_missing.
  cbn [entry_code entry_name missing].
  destruct (String.eqb_spec c ""); [done|]. destruct (String.eqb_spec n ""); [done|].
  cbn [orb]. apply elem_of_app. left. apply elem_of_cons. by left.
Qed.

Lemma load_port_reference_key (raw_data : list port_entry) (code : string) :
  is_Some (load_port_reference raw_data !! code) <->
  exists n, code <> "" /\ n <> ""
            /\ {| entry_code := Some code; entry_name := Some n |} ∈ raw_data.
Proof.
  rewrite load_port_reference_lookup. split.
  - intros [n Hn]. exists n. by apply elem_of_names_for, (chosen_name_elem code).
  - intros (n & H). apply elem_of_names_for in H.
    apply chosen_name_is_Some. intros Hnil. rewrite Hnil in H.
    by apply elem_of_nil in H.
Qed.

Lemma search_patterns_key (raw_data : list port_entry) (pattern code : string) :
  (pattern, code) ∈ Mock.search_patterns raw_data ->
  pattern <> "" /\ code <> "" /\ is_Some (load_port_reference raw_data !! code).
Proof.
  unfold Mock.search_patterns. intros (e & H & He)%list_elem_of_bind.
  apply elem_of_entry_patterns in H as (Hp & Hc & n & Hn & ->).
  split; [done|]. split; [done|]. apply load_port_reference_key. by exists n.
Qed.

(** X20. The patterns the stand-in client searches for are never empty,
    each stands for a code of the reference loaded from the same file,
    and every code of that reference is searched for under its own
    name. *)
Theorem search_patterns_reference (raw_data : list port_entry) :
  Forall (fun '(pattern, code) =>
            pattern <> "" /\ is_Some (load_port_reference raw_data !! code))
         (Mock.search_patterns raw_data)
  /\ (forall code, is_Some (load_port_reference raw_data !! code) <->
        (code, code) ∈ Mock.search_patterns raw_data).
Proof.
  split.
  - apply Forall_forall. intros [pattern code] H.
    apply search_patterns_key in H. tauto.
  - intros code. rewrite load_port_reference_key.
    unfold Mock.search_patterns. rewrite list_elem_of_bind. split.
    + intros (n & Hc & Hn & He). eexists. split; [|done]. by apply entry_patterns_code.
    + intros (e & H & He). apply elem_of_entry_patterns in H as (_ & Hc & n & Hn & ->).
      by exists n.
Qed.

End MockPatterns.

Section MockSegment.
Import PyStr PyText Spec Extract Notions.

Lemma from_last_prefix (marker text : string) :
  prefix marker text = true -> is_Some (Mock.from_last marker text).
Proof.
  intros H. destruct text as [|c text]; simpl in *.
  - rewrite H. by eexists.
  - destruct (Mock.from_last marker text); [by eexists|]. rewrite H. by eexists.
Qed.

Lemma from_last_app (marker pre text u : string) :
  Mock.from_last marker text = Some u ->
  Mock.from_last marker (pre ++ text) = Some u.
Proof.
  intros H. induction pre as [|c pre IH]; [done|].
  simpl. by rewrite IH.
Qed.

Lemma segment_prompt (instructions subject body : string) :
  Mock.segment (instructions ++ Mock.prompt_tail subject body)
  = Mock.segment (Mock.prompt_tail subject body).
Proof.
  unfold Mock.segment.
  destruct (from_last_prefix "**Email:**" (Mock.prompt_tail subject body)) as [u Hu].
  { unfold Mock.prompt_tail. apply (prefix_app "**Email:**"). }
  by rewrite (from_last_app _ _ _ _ Hu), Hu.
Qed.

(** X21. The stand-in client answers from the e-mail alone: whatever
    instructions precede the last part of the prompt, the dictionary is
    the one obtained from that last part. *)
Theorem smart_extract_ignores_instructions
    (patterns : list (string * string)) (port_map : gmap string string)
    (instructions subject body : string) :
  Mock.smart_extract patterns port_map (instructions ++ Mock.prompt_tail subject body)
  = Mock.smart_extract patterns port_map (Mock.prompt_tail subject body).
Proof. unfold Mock.smart_extract. by rewrite segment_prompt. Qed.

End MockSegment.

Section MockPorts.
Import PyStr PyText Spec Extract Notions.

Lemma str_in_elem (s : string) (l : list string) :
  str_in s l = true <-> s ∈ l.
Proof.
  unfold str_in. rewrite existsb_exists. setoid_rewrite <- list_elem_of_In.
  split.
  - by intros (x & Hx & ->%String.eqb_eq).
  - intros H. exists s. by rewrite String.eqb_refl.
Qed.

Lemma elem_of_find_ports (patterns : list (string * string)) (text : string)
    (pos : nat) (code : string) :
  (pos, code) ∈ Mock.find_ports patterns text ->
  exists pattern, (pattern, code) ∈ patterns.
Proof.
  unfold Mock.find_ports. intros ([p c] & H & Hp)%list_elem_of_bind.
  apply list_elem_of_fmap in H as (n & [= -> ->] & _). by exists p.
Qed.

Lemma elem_of_insert_by_pos (x y : nat * string) (l : list (nat * string)) :
  y ∈ Mock.insert_by_pos x l <-> y = x \/ y ∈ l.
Proof.
  induction l as [|z l IH]; simpl.
  - by rewrite elem_of_cons.
  - destruct (_ <? _)%nat; [by rewrite elem_of_cons|].
    rewrite !elem_of_cons, IH. tauto.
Qed.

Lemma elem_of_sort_by_pos (y : nat * string) (l : list (nat * string)) :
  y ∈ Mock.sort_by_pos l <-> y ∈ l.
Proof.
  unfold Mock.sort_by_pos.
  assert (H : forall acc, y ∈ foldl (fun acc x => Mock.insert_by_pos x acc) acc l
                          <-> y ∈ acc \/ y ∈ l).
  { induction l as [|x l IH]; intros acc; simpl.
    - rewrite elem_of_nil. tauto.
    - rewrite IH, elem_of_insert_by_pos, elem_of_cons. tauto. }
  rewrite H, elem_of_nil. tauto.
Qed.

Lemma distinct_codes_acc (found : list (nat * string)) (acc : list string) :
  let final_ports :=
    foldl (fun final_ports '(_, code) =>
             if str_in code final_ports then final_ports
             else (final_ports ++ [code])%list) acc found in
  (NoDup acc -> NoDup final_ports)
  /\ forall c, c ∈ final_ports <-> c ∈ acc \/ c ∈ found.*2.
Proof.
  revert acc. induction found as [|[pos code] found IH]; intros acc; simpl.
  - split; [done|]. intros c. rewrite elem_of_nil. tauto.
  - destruct (str_in code acc) eqn:Hin.
    + destruct (IH acc) as [Hn He]. split; [done|].
      intros c. rewrite He, elem_of_cons. apply str_in_elem in Hin.
      split; [tauto|]. intros [?|[->|?]]; tauto.
    + destruct (IH (acc ++ [code])%list) as [Hn He]. split.
      * intros Hacc. apply Hn. apply NoDup_app. split; [done|].
        split; [|apply NoDup_singleton].
        intros x Hx ->%list_elem_of_singleton.
        apply str_in_elem in Hx. congruence.
      * intros c. rewrite He, elem_of_app, list_elem_of_singleton, elem_of_cons. tauto.
Qed.

Lemma found_codes_NoDup (patterns : list (string * string)) (text : string) :
  NoDup (Mock.found_codes patterns text).
Proof.
  unfold Mock.found_codes, Mock.distinct_codes.
  apply (distinct_codes_acc _ []). constructor.
Qed.

Lemma elem_of_found_codes (patterns : list (string * string)) (text c : string) :
  c ∈ Mock.found_codes patterns text -> exists pattern, (pattern, c) ∈ patterns.
Proof.
  unfold Mock.found_codes, Mock.distinct_codes. intros H.
  apply (distinct_codes_acc _ []) in H as [H|H]; [by apply elem_of_nil in H|].
  apply list_elem_of_fmap in H as ([pos c'] & -> & H).
  apply (proj1 (elem_of_sort_by_pos _ _)) in H. by apply elem_of_find_ports in H.
Qed.

Lemma head_filter_In (f : string -> bool) (l : list string) (x : string) (r : list string) :
  List.filter f l = x :: r -> f x = true /\ x ∈ l.
Proof.
  intros H. assert (Hx : In x (List.filter f l)) by (rewrite H; by left).
  apply filter_In in Hx as [Hx Hf]. by rewrite list_elem_of_In.
Qed.

(** Whatever is assigned was found; origin and destination differ. *)
Lemma assign_ports_found (final_ports : list string) (is_export : bool) :
  NoDup final_ports ->
  let codes := Mock.assign_ports final_ports is_export in
  (forall c, codes.1 = Some c -> c ∈ final_ports)
  /\ (forall c, codes.2 = Some c -> c ∈ final_ports)
  /\ (codes.1 = None \/ codes.1 <> codes.2).
Proof.
  intros Hnd. unfold Mock.assign_ports.
  destruct (List.filter Mock.is_india final_ports) as [|i li] eqn:Hi.
  - (* no Indian port *)
    destruct final_ports as [|p0 [|p1 l]]; simpl.
    + split; [done|]. split; [done|]. by left.
    + destruct (Mock.is_india p0), is_export; simpl;
        (split; [intros c [= <-]; by left || done|]);
        (split; [intros c [= <-]; by left || done|]); (by left) || (by right).
    + split; [intros c [= <-]; by left|].
      split; [intros c [= <-]; right; by left|]. right.
      intros [= ->]. apply NoDup_cons in Hnd as [Hnd _]. apply Hnd. by left.
  - apply head_filter_In in Hi as [Hii Hil].
    destruct (List.filter (fun p => negb (Mock.is_india p)) final_ports) as [|f lf] eqn:Hf.
    + destruct final_ports as [|p0 [|p1 l]]; simpl.
      * split; [done|]. split; [done|]. by left.
      * destruct (Mock.is_india p0), is_export; simpl;
          (split; [intros c [= <-]; by left || done|]);
          (split; [intros c [= <-]; by left || done|]); (by left) || (by right).
      * split; [intros c [= <-]; by left|].
        split; [intros c [= <-]; right; by left|]. right.
        intros [= ->]. apply NoDup_cons in Hnd as [Hnd _]. apply Hnd. by left.
    + apply head_filter_In in Hf as [Hff Hfl].
      assert (Hne : i <> f) by (intros ->; rewrite Hii in Hff; done).
      destruct is_export; simpl.
      * split; [by intros c [= <-]|]. split; [by intros c [= <-]|].
        right. congruence.
      * split; [by intros c [= <-]|]. split; [by intros c [= <-]|].
        right. congruence.
Qed.

Lemma draft_get (v1 v2 v3 v4 v5 v6 v7 v8 v9 : pyval) :
  let d : gmap string pyval :=
    list_to_map
      [("product_line", v1); ("origin_port_code", v2); ("origin_port_name", v3);
       ("destination_port_code", v4); ("destination_port_name", v5);
       ("incoterm", v6); ("cargo_weight_kg", v7); ("cargo_cbm", v8);
       ("is_dangerous", v9)] in
  dict_get d "product_line" = v1
  /\ dict_get d "origin_port_code" = v2
  /\ dict_get d "origin_port_name" = v3
  /\ dict_get d "destination_port_code" = v4
  /\ dict_get d "destination_port_name" = v5
  /\ dict_get d "incoterm" = v6
  /\ dict_get d "cargo_weight_kg" = v7
  /\ dict_get d "cargo_cbm" = v8
  /\ dict_get d "is_dangerous" = v9.
Proof. by vm_compute. Qed.

Lemma smart_extract_get (patterns : list (string * string))
    (port_map : gmap string string) (text : string) :
  let d := Mock.smart_extract patterns port_map text in
  let t := Mock.segment text in
  let codes := Mock.assign_ports (Mock.found_codes patterns t) (Mock.is_export (lower t)) in
  dict_get d "product_line" = VStr (Mock.guess_product_line (lower t))
  /\ dict_get d "origin_port_code" = of_opt VStr codes.1
  /\ dict_get d "origin_port_name" = of_opt VStr (Mock.name_of port_map codes.1)
  /\ dict_get d "destination_port_code" = of_opt VStr codes.2
  /\ dict_get d "destination_port_name" = of_opt VStr (Mock.name_of port_map codes.2)
  /\ dict_get d "incoterm" = VStr (Mock.find_incoterm t)
  /\ dict_get d "cargo_weight_kg" = of_opt VFloat (Mock.measure Mock.weight_regex (lower t))
  /\ dict_get d "cargo_cbm" = of_opt VFloat (Mock.measure Mock.cbm_regex (lower t))
  /\ dict_get d "is_dangerous" = VBool (Mock.guess_dangerous (lower t)).
Proof. apply draft_get. Qed.

(** X22. With the patterns and the reference of one file, a port code in
    the stand-in client's answer is a code of the reference and comes with
    its canonical name, a null code comes with a null name, and the origin
    and the destination are never the same code. *)
Theorem smart_extract_ports (raw_data : list port_entry) (text : string) :
  let port_map := load_port_reference raw_data in
  let d := Mock.smart_extract (Mock.search_patterns raw_data) port_map text in
  named_by port_map (dict_get d "origin_port_code") (dict_get d "origin_port_name")
  /\ named_by port_map (dict_get d "destination_port_code")
       (dict_get d "destination_port_name")
  /\ (dict_get d "origin_port_code" = VNone
      \/ dict_get d "origin_port_code" <> dict_get d "destination_port_code").
Proof.
  intros port_map d. subst d.
  destruct (smart_extract_get (Mock.search_patterns raw_data) port_map text)
    as (_ & -> & -> & -> & -> & _).
  set (final_ports := Mock.found_codes _ _).
  destruct (assign_ports_found final_ports
              (Mock.is_export (lower (Mock.segment text)))
              (found_codes_NoDup _ _)) as (Ho & Hd & Hne).
  assert (Hname : forall c, c ∈ final_ports ->
            exists n, port_map !! c = Some n
                      /\ Mock.name_of port_map (Some c) = Some n).
  { intros c (p & Hp)%elem_of_found_codes.
    apply search_patterns_key in Hp as (_ & Hc & n & Hn).
    exists n. split; [done|]. simpl. by destruct (String.eqb_spec c ""). }
  destruct (Mock.assign_ports _ _) as [[o|] [t|]]; simpl in *.
  - destruct (Hname o (Ho _ eq_refl)) as (n & Hn & ->).
    destruct (Hname t (Hd _ eq_refl)) as (m & Hm & ->).
    split; [by exists n|]. split; [by exists m|].
    right. destruct Hne as [|Hne]; [done|]. congruence.
  - destruct (Hname o (Ho _ eq_refl)) as (n & Hn & ->).
    split; [by exists n|]. split; [done|]. by right.
  - destruct (Hname t (Hd _ eq_refl)) as (m & Hm & ->).
    split; [done|]. split; [by exists m|]. by left.
  - split; [done|]. split; [done|]. by left.
Qed.

End MockPorts.

Section FloatSign.
Import PyFloat Notions.

Lemma shr_fexp_nonneg (m e : Z) (l : location) :
  0 <= m -> 0 <= shr_m (shr_fexp prec emax m e l).1.
Proof.
  intros Hm.
  assert (HK : 0 <= m < 2 ^ (Z.log2 m + 1)).
  { split; [done|]. destruct (Z.eq_dec m 0) as [->|]; [done|].
    pose proof (Z.log2_spec m ltac:(lia)) as [_ H]. by rewrite Z.add_1_r. }
  pose proof (Z.log2_nonneg m).
  by apply (shr_fexp_bounds m e l (Z.log2 m + 1) ltac:(lia)) in HK as [[? _] _].
Qed.

Lemma binary_round_aux_sign (sx : bool) (m e : Z) (l : location) :
  0 <= m ->
  match binary_round_aux prec emax sx m e l with
  | S754_nan => False
  | S754_zero s | S754_infinity s | S754_finite s _ _ => s = sx
  end.
Proof.
  intros Hm. unfold binary_round_aux.
  pose proof (shr_fexp_nonneg m e l Hm) as H1.
  destruct (shr_fexp prec emax m e l) as [mrs1 e1]. cbn [fst] in H1.
  pose proof (round_nearest_even_bounds (shr_m mrs1) (loc_of_shr_record mrs1)) as Hr.
  pose proof (shr_fexp_nonneg (round_nearest_even (shr_m mrs1) (loc_of_shr_record mrs1))
                e1 loc_Exact ltac:(lia)) as H2.
  destruct (shr_fexp prec emax _ e1 loc_Exact) as [mrs2 e2]. cbn [fst] in H2.
  destruct (shr_m mrs2) as [|p|p]; [done| |lia].
  by destruct (_ <=? _).
Qed.

Lemma of_ratio_sign (s : bool) (p q : positive) :
  match of_ratio s p q with
  | S754_nan => False
  | S754_zero s' | S754_infinity s' | S754_finite s' _ _ => s' = s
  end.
Proof.
  unfold of_ratio, SFdiv, SFdiv_core_binary.
  set (e' := Z.min _ _).
  set (m' := match 0 - 0 - e' with
             | 0 => Zpos p
             | Zpos _ => Z.shiftl (Zpos p) (0 - 0 - e')
             | Zneg _ => 0
             end).
  assert (Hm' : 0 <= m').
  { subst m'. destruct (0 - 0 - e') as [|k|k]; [lia| |lia].
    apply Z.shiftl_nonneg. lia. }
  pose proof (Z_div_mod m' (Zpos q) ltac:(lia)) as Hq.
  destruct (Z.div_eucl m' (Zpos q)) as [d r].
  assert (Hd : 0 <= d) by nia.
  rewrite xorb_false_r. by apply binary_round_aux_sign.
Qed.

Lemma of_decimal_non_negative (mant exp10 : Z) :
  non_negative (of_decimal false mant exp10) = true.
Proof.
  unfold of_decimal. destruct mant as [|m|m]; [done| |done].
  destruct exp10 as [|k|k].
  - pose proof (of_ratio_sign false m 1) as H. by destruct (of_ratio _ _ _); subst.
  - pose proof (of_ratio_sign false (m * 10 ^ k) 1) as H.
    by destruct (of_ratio _ _ _); subst.
  - pose proof (of_ratio_sign false m (10 ^ k)) as H.
    by destruct (of_ratio _ _ _); subst.
Qed.

Lemma decimal_non_negative (s : string) (x : spec_float) :
  decimal false s = Some x -> non_negative x = true.
Proof.
  unfold decimal. destruct (digits s 0 0%nat) as [[ip ilen] rest].
  destruct (match rest with String "." r => digits r ip 0%nat | _ => (ip, 0%nat, rest) end)
    as [[mant flen] rest'].
  destruct (ilen + flen)%nat; [done|].
  destruct (exponent rest') as [e|]; [|done].
  intros [= <-]. apply of_decimal_non_negative.
Qed.

Lemma round2_non_negative (x r : spec_float) :
  round2 x = Ok r -> non_negative x = true -> non_negative r = true.
Proof.
  destruct x as [s|s| |s m e]; try (by intros [= <-]).
  unfold round2. destruct (is_large m e); [by intros [= <-]|].
  destruct (scaled_cents m e) as [|n|n]; try (by intros [= <-]).
  pose proof (of_ratio_sign s n 100) as H.
  destruct (of_ratio s n 100); try done; intros [= <-]; by subst.
Qed.

End FloatSign.

Section RegexSpans.
Import PyStr PyText PyFloat Notions.

Lemma run_eq {R : Type} (fuel : nat) (r : Rx.rx) (prev : option ascii) (s g : string)
    (k : option ascii -> string -> string -> option R) :
  Rx.run fuel r prev s g k =
  match r with
  | Rx.Eps => k prev s g
  | Rx.Lit c => Rx.one (Ascii.eqb c) s (fun p s' => k p s' g)
  | Rx.LitI c => Rx.one (fun d => Ascii.eqb (lower_char c) (lower_char d)) s
                   (fun p s' => k p s' g)
  | Rx.Digit => Rx.one is_digit s (fun p s' => k p s' g)
  | Rx.Space => Rx.one is_space s (fun p s' => k p s' g)
  | Rx.Bound => if Rx.at_boundary prev (head s) then k prev s g else None
  | Rx.Seq a b => Rx.run fuel a prev s g (fun p' s' g' => Rx.run fuel b p' s' g' k)
  | Rx.Alt a b =>
      match Rx.run fuel a prev s g k with
      | Some x => Some x
      | None => Rx.run fuel b prev s g k
      end
  | Rx.Star a =>
      match fuel with
      | O => k prev s g
      | S fuel' =>
          match Rx.run fuel a prev s g
                  (fun p' s' g' =>
                     if (String.length s' <? String.length s)%nat
                     then Rx.run fuel' (Rx.Star a) p' s' g' k else None) with
          | Some x => Some x
          | None => k prev s g
          end
      end
  | Rx.Group a =>
      Rx.run fuel a prev s g
        (fun p' s' _ => k p' s' (take (String.length s - String.length s') s))
  end.
Proof. destruct fuel; destruct r; reflexivity. Qed.

Lemma string_app_assoc (u v w : string) : (u ++ v) ++ w = u ++ (v ++ w).
Proof.
  induction u as [|c u IH]; [done|].
  change (String c ((u ++ v) ++ w) = String c (u ++ (v ++ w))). by rewrite IH.
Qed.

Lemma all_chars_app (P : ascii -> bool) (u v : string) :
  all_chars P (u ++ v) = all_chars P u && all_chars P v.
Proof. induction u as [|c u IH]; [done|]. simpl. by rewrite IH, andb_assoc. Qed.

Lemma one_span {R : Type} (P test : ascii -> bool) (s : string)
    (k : option ascii -> string -> option R) (x : R) :
  (forall d, test d = true -> P d = true) ->
  Rx.one test s k = Some x ->
  exists prev' w s', s = w ++ s' /\ all_chars P w = true /\ k prev' s' = Some x.
Proof.
  intros HP. destruct s as [|d s]; [done|]. simpl.
  destruct (test d) eqn:Ht; [|done]. intros H.
  exists (Some d), (String d ""), s. split; [done|]. split; [|done].
  simpl. by rewrite (HP d Ht).
Qed.

(** What a match without a group consumes is a prefix of the text, made of
    characters the expression allows, and the captured text is passed on
    unchanged. *)
Lemma run_span {R : Type} (P : ascii -> bool) (fuel : nat) (r : Rx.rx) :
  consumes P r -> group_free r = true ->
  forall prev s g (k : option ascii -> string -> string -> option R) x,
    Rx.run fuel r prev s g k = Some x ->
    exists prev' w s', s = w ++ s' /\ all_chars P w = true /\ k prev' s' g = Some x.
Proof.
  revert r. induction fuel as [|fuel IHf]; intros r;
    induction r as [|c|c| | | |a IHa b IHb|a IHa b IHb|a IHa|a IHa];
    intros Hc Hg prev s g k x H; rewrite run_eq in H; simpl in Hc, Hg;
    try (by exists prev, "", s);
    try (by apply (one_span P) in H;
           [|first [done | by intros d ->%Ascii.eqb_eq
                   | by intros d ?%Ascii.eqb_eq; apply Hc]]);
    try (destruct (Rx.at_boundary _ _); [by exists prev, "", s|done]);
    try (apply andb_prop in Hg as [Hga Hgb]; destruct Hc as [Hca Hcb]).
  all: try (apply (IHa Hca Hga) in H as (p1 & w1 & s1 & -> & Hw1 & H);
            apply (IHb Hcb Hgb) in H as (p2 & w2 & s2 & -> & Hw2 & H);
            exists p2, (w1 ++ w2), s2;
            by rewrite all_chars_app, Hw1, Hw2, string_app_assoc).
  all: try (destruct (Rx.run _ a prev s g k) eqn:Ha;
            [injection H as ->; by apply (IHa Hca Hga) in Ha
            |by apply (IHb Hcb Hgb) in H]).
  - destruct (Rx.run _ a prev s g _) eqn:Ha; [|by exists prev, "", s].
    injection H as ->.
    apply (IHa Hc Hg) in Ha as (p1 & w1 & s1 & -> & Hw1 & H).
    destruct (_ <? _)%nat; [|done].
    apply (IHf (Rx.Star a) Hc Hg) in H as (p2 & w2 & s2 & -> & Hw2 & H).
    exists p2, (w1 ++ w2), s2.
    by rewrite all_chars_app, Hw1, Hw2, string_app_assoc.
Qed.

Lemma consumes_any (r : Rx.rx) : consumes (fun _ => true) r.
Proof. induction r; simpl; auto. Qed.

(** The text captured by a leading group is made of characters the group
    allows. *)
Lemma run_group {R : Type} (P : ascii -> bool) (fuel : nat) (a b : Rx.rx) :
  consumes P a -> group_free a = true -> group_free b = true ->
  forall prev s g (k : option ascii -> string -> string -> option R) x,
    Rx.run fuel (Rx.Seq (Rx.Group a) b) prev s g k = Some x ->
    exists prev' w s', all_chars P w = true /\ k prev' s' w = Some x.
Proof.
  intros Hc Hga Hgb prev s g k x H. rewrite run_eq, run_eq in H.
  apply (run_span P fuel a Hc Hga) in H as (p1 & w & s1 & -> & Hw & H).
  rewrite length_app, Nat.add_sub, take_app in H.
  apply (run_span (fun _ => true) fuel b (consumes_any b) Hgb) in H
    as (p2 & w2 & s2 & _ & _ & H).
  by exists p2, w, s2.
Qed.

Lemma search_group (P : ascii -> bool) (a b : Rx.rx) (text : string) (m : Rx.found) :
  consumes P a -> group_free a = true -> group_free b = true ->
  Rx.search (Rx.Seq (Rx.Group a) b) text = Some m ->
  all_chars P (Rx.group1 m) = true.
Proof.
  intros Hc Hga Hgb. unfold Rx.search. generalize 0%nat (@None ascii).
  induction text as [|c text IH]; intros pos prev; cbn [Rx.search_from].
  - destruct (Rx.run _ _ _ _ _ _) eqn:Hr; [|done]. intros [= <-].
    apply (run_group P _ a b Hc Hga Hgb) in Hr as (p & w & s' & Hw & [= <-]). done.
  - destruct (Rx.run _ _ _ _ _ _) eqn:Hr; [|apply IH]. intros [= <-].
    apply (run_group P _ a b Hc Hga Hgb) in Hr as (p & w & s' & Hw & [= <-]). done.
Qed.

End RegexSpans.

Section PlainNumbers.
Import PyStr PyText PyFloat Notions.

Ltac plain_cases c H :=
  destruct c as [[] [] [] [] [] [] [] []]; try discriminate H.

Lemma lstrip_c_plain (s : string) :
  all_chars is_plain s = true -> lstrip_c s = s.
Proof.
  destruct s as [|c s]; [done|]. intros [Hc _]%andb_prop.
  by plain_cases c Hc.
Qed.

Lemma rstrip_c_plain (s : string) :
  all_chars is_plain s = true -> rstrip_c s = s.
Proof.
  induction s as [|c s IH]; [done|]. intros [Hc Hs]%andb_prop.
  cbn [rstrip_c]. rewrite (IH Hs). destruct s; [|done].
  by plain_cases c Hc.
Qed.

Lemma drop_underscores_plain (s : string) (prev : option ascii) :
  all_chars is_plain s = true ->
  default true (is_plain <$> prev) = true ->
  drop_underscores prev s = Some s.
Proof.
  revert prev. induction s as [|c s IH]; intros prev Hs Hp.
  - destruct prev as [p|]; [|done]. simpl in Hp. by plain_cases p Hp.
  - apply andb_prop in Hs as [Hc Hs].
    assert (Hr : drop_underscores (Some c) s = Some s) by (by apply IH).
    destruct prev as [p|].
    + simpl in Hp. plain_cases p Hp; plain_cases c Hc;
        cbn [drop_underscores]; by rewrite Hr.
    + plain_cases c Hc; cbn [drop_underscores]; by rewrite Hr.
Qed.

Lemma sign_plain (s : string) :
  all_chars is_plain s = true -> sign s = (false, s).
Proof.
  destruct s as [|c s]; [done|]. intros [Hc _]%andb_prop. by plain_cases c Hc.
Qed.

Lemma inf_or_nan_plain (s : string) :
  all_chars is_plain s = true -> inf_or_nan false s = None.
Proof.
  destruct s as [|c s]; [done|]. intros [Hc _]%andb_prop.
  unfold inf_or_nan. by plain_cases c Hc.
Qed.

(** A text of digits and points that [float] accepts is read as a number
    that is neither NaN nor negative. *)
Lemma of_string_plain (s : string) (x : spec_float) :
  all_chars is_plain s = true -> of_string s = Ok x -> non_negative x = true.
Proof.
  intros Hs. unfold of_string.
  rewrite (lstrip_c_plain s Hs), (rstrip_c_plain s Hs),
    (drop_underscores_plain s None Hs eq_refl), (sign_plain s Hs),
    (inf_or_nan_plain s Hs).
  destruct (decimal false s) as [y|] eqn:Hd; [|done].
  intros [= <-]. by apply decimal_non_negative in Hd.
Qed.

Lemma remove_char_plain (s : string) :
  all_chars is_grouped s = true -> all_chars is_plain (Mock.remove_char "," s) = true.
Proof.
  induction s as [|c s IH]; [done|]. intros [Hc Hs]%andb_prop.
  cbn [Mock.remove_char]. unfold is_grouped in Hc.
  destruct (Ascii.eqb c ","); [by apply IH|].
  rewrite orb_false_r in Hc. simpl. by rewrite Hc, IH.
Qed.

Lemma number_consumes : consumes is_grouped Mock.number.
Proof.
  assert (Hd : forall d, is_digit d = true -> is_grouped d = true).
  { intros d Hd. unfold is_grouped, is_plain. by rewrite Hd. }
  repeat split; done.
Qed.

Lemma measure_non_negative (r : Rx.rx) (text_lower : string) :
  group_free r = true ->
  non_negative_opt (Mock.measure (Rx.Seq (Rx.Group Mock.number) r) text_lower) = true.
Proof.
  intros Hg. unfold Mock.measure.
  destruct (Rx.search _ text_lower) as [m|] eqn:Hm; [|done].
  apply (search_group is_grouped) in Hm; [|apply number_consumes|done|done].
  destruct (of_string _) as [x|] eqn:Hx; [|done].
  by apply of_string_plain in Hx; [|apply remove_char_plain].
Qed.

End PlainNumbers.

Section MockCargo.
Import PyStr PyText PyFloat Spec Extract Notions.

Lemma measure_float_or_null (r : Rx.rx) (text_lower : string) :
  group_free r = true ->
  float_or_null non_negative
    (of_opt VFloat (Mock.measure (Rx.Seq (Rx.Group Mock.number) r) text_lower)).
Proof.
  intros Hg. pose proof (measure_non_negative r text_lower Hg) as H.
  by destruct (Mock.measure _ _).
Qed.

(** X23. The cargo weight and volume in the stand-in client's answer are
    null or numbers that are neither NaN nor negative. *)
Theorem smart_extract_cargo (patterns : list (string * string))
    (port_map : gmap string string) (text : string) :
  let d := Mock.smart_extract patterns port_map text in
  float_or_null non_negative (dict_get d "cargo_weight_kg")
  /\ float_or_null non_negative (dict_get d "cargo_cbm").
Proof.
  intros d. subst d.
  destruct (smart_extract_get patterns port_map text)
    as (_ & _ & _ & _ & _ & _ & -> & -> & _).
  split; by apply measure_float_or_null.
Qed.

Lemma round_metric_non_negative (v : pyval) (w : option spec_float) :
  float_or_null non_negative v -> round_metric v = Ok w ->
  non_negative_opt w = true.
Proof.
  destruct v as [| | |x| | |]; try done; [by intros _ [= <-]|].
  intros Hx. unfold round_metric. cbn [py_float mbind result_bind].
  destruct (round2 x) as [y|e] eqn:Hy.
  - intros [= <-]. by apply (round2_non_negative x).
  - destruct e; by intros [= <-].
Qed.

End MockCargo.

Section MockMode.
Import PyStr PyText PyFloat Spec Extract Notions.

Lemma find_incoterm_valid (text : string) :
  incoterm_of (VStr (Mock.find_incoterm text)) = Mock.find_incoterm text.
Proof.
  unfold Mock.find_incoterm.
  destruct (find _ _) as [inc|] eqn:Hf; [|done].
  apply find_some in Hf as [Hin _].
  repeat (destruct Hin as [<-|Hin]; [done|]). destruct Hin.
Qed.

Lemma smart_extract_accepted (patterns : list (string * string))
    (port_map : gmap string string) (text i : string) :
  accepted (VStr i) (Mock.smart_extract patterns port_map text) port_map = true.
Proof.
  unfold accepted.
  destruct (smart_extract_get patterns port_map text)
    as (-> & -> & _ & -> & _ & -> & -> & -> & _).
  cbn [is_str str_or_falsy andb]. rewrite orb_true_r.
  destruct (Mock.assign_ports _ _) as [[o|] [t|]];
    destruct (Mock.measure Mock.weight_regex _), (Mock.measure Mock.cbm_regex _); done.
Qed.

Lemma mock_process_email_prompt {U : Unicode.database}
    (patterns : list (string * string))
    (port_map : gmap string string) (instructions subject body : string)
    (email_id : pyval) :
  Mock.process_email patterns instructions email_id subject body port_map
  = process_email email_id (Unicode.of_str (subject ++ " " ++ body))
      (Mock.smart_extract patterns port_map (Mock.prompt_tail subject body)) port_map.
Proof.
  unfold Mock.process_email, Mock.smart_extract. by rewrite segment_prompt.
Qed.

(** X24. With the stand-in client, [process_email] returns a record for
    every e-mail with a string id, whatever the patterns, the reference
    and the instructions of the prompt: the loop of [main] never writes
    the default record.  The product line is never null, the incoterm is
    the client's own and one of the ten valid ones, the dangerous-goods
    flag is the classifier's verdict on the subject and body, and the
    cargo numbers are null or neither NaN nor negative. *)
Theorem mock_process_email_returns {U : Unicode.database}
    (patterns : list (string * string))
    (port_map : gmap string string) (instructions i subject body : string) :
  let text := Mock.segment (Mock.prompt_tail subject body) in
  exists r,
    Mock.process_email patterns instructions (VStr i) subject body port_map = Ok r
    /\ id r = i
    /\ (product_line r = Some "pl_sea_import_lcl"
        \/ product_line r = Some "pl_sea_export_lcl")
    /\ incoterm r = Some (Mock.find_incoterm text)
    /\ str_in (Mock.find_incoterm text) valid_incoterms = true
    /\ is_dangerous r = Some (check_dangerous_goods (Unicode.of_str (subject ++ " " ++ body)) VNone)
    /\ non_negative_opt (cargo_weight_kg r) = true
    /\ non_negative_opt (cargo_cbm r) = true.
Proof.
  intros text. rewrite mock_process_email_prompt.
  destruct (process_email_accepted i (Unicode.of_str (subject ++ " " ++ body))
              (Mock.smart_extract patterns port_map (Mock.prompt_tail subject body))
              port_map (smart_extract_accepted _ _ _ _)) as (weight & cbm & Hr).
  pose proof Hr as Hinv.
  apply process_email_inv in Hinv
    as (i' & w' & c' & _ & _ & _ & _ & Hw & Hcb & _ & Heq).
  assert (Hweight : weight = w') by apply (f_equal cargo_weight_kg Heq).
  assert (Hcbm : cbm = c') by apply (f_equal cargo_cbm Heq).
  subst w' c'. clear Heq.
  destruct (smart_extract_get patterns port_map (Mock.prompt_tail subject body))
    as (_ & _ & _ & _ & _ & _ & Hgw & Hgc & _).
  rewrite Hgw in Hw. rewrite Hgc in Hcb.
  apply round_metric_non_negative in Hw; [|by apply measure_float_or_null].
  apply round_metric_non_negative in Hcb; [|by apply measure_float_or_null].
  rewrite Hr. eexists. split; [done|]. unfold record_of.
  destruct (smart_extract_get patterns port_map (Mock.prompt_tail subject body))
    as (-> & _ & _ & _ & _ & -> & _).
  cbn [id product_line incoterm is_dangerous cargo_weight_kg cargo_cbm].
  split; [done|]. split.
  - unfold derive. destruct (present_IN _); [by left|].
    destruct (present_IN _); [by right|].
    unfold fallback, Mock.guess_product_line.
    destruct (contains _ _); [by right|by left].
  - fold text. rewrite find_incoterm_valid. split; [done|].
    split; [|by repeat split].
    rewrite <- find_incoterm_valid. apply incoterm_of_valid.
Qed.

(** An Indian origin with no Indian destination is only assigned to an
    export. *)
Lemma assign_ports_export (final_ports : list string) (is_export : bool) :
  present_IN (Mock.assign_ports final_ports is_export).1 = true ->
  present_IN (Mock.assign_ports final_ports is_export).2 = false ->
  is_export = true.
Proof.
  unfold Mock.assign_ports.
  destruct (List.filter Mock.is_india final_ports) as [|i li] eqn:Hi.
  - assert (Hno : forall p, p ∈ final_ports -> Mock.is_india p = false).
    { intros p Hp. destruct (Mock.is_india p) eqn:Hs; [|done].
      assert (Hin : In p (List.filter Mock.is_india final_ports))
        by (apply filter_In; by rewrite <- list_elem_of_In).
      rewrite Hi in Hin. destruct Hin. }
    destruct final_ports as [|p0 [|p1 l]]; [done| |].
    + rewrite (Hno p0) by (by left). cbn [fst snd present_IN].
      fold (Mock.is_india p0). by rewrite (Hno p0) by (by left).
    + cbn [fst snd present_IN].
      fold (Mock.is_india p0). by rewrite (Hno p0) by (by left).
  - apply head_filter_In in Hi as [Hii Hil].
    destruct (List.filter (fun p => negb (Mock.is_india p)) final_ports) as [|f lf] eqn:Hf.
    + assert (Hall : forall p, p ∈ final_ports -> Mock.is_india p = true).
      { intros p Hp. destruct (Mock.is_india p) eqn:Hs; [done|].
        assert (Hin : In p (List.filter (fun p => negb (Mock.is_india p)) final_ports)).
        { apply filter_In. rewrite <- list_elem_of_In. split; [done|]. by rewrite Hs. }
        rewrite Hf in Hin. destruct Hin. }
      destruct final_ports as [|p0 [|p1 l]]; [done| |].
      * rewrite (Hall p0) by (by left). by destruct is_export.
      * cbn [fst snd present_IN]. fold (Mock.is_india p1).
        by rewrite (Hall p1) by (right; by left).
    + apply head_filter_In in Hf as [Hff Hfl].
      destruct is_export; [done|]. cbn [fst snd present_IN].
      fold (Mock.is_india f). intros Hs. by rewrite Hs in Hff.
Qed.

Lemma norm_code_uppercase (port_map : gmap string string) (oc : option string) :
  uppercase_codes port_map ->
  (forall c, oc = Some c -> c <> "" /\ is_Some (port_map !! c)) ->
  norm_code port_map (of_opt VStr oc) = oc
  /\ port_name port_map oc = oc ≫= (port_map !!.).
Proof.
  intros Hup H. destruct oc as [c|]; [|done].
  destruct (H c eq_refl) as [Hc [n Hn]]. simpl.
  destruct (String.eqb_spec c ""); [done|].
  rewrite (Hup c n Hn). by destruct (decide _) as [|[]]; [|eexists].
Qed.

(** X25. When every code of the reference is in upper case, validation
    keeps what the stand-in client found: the record has the client's
    origin and destination codes with their canonical names, and its
    product line is import unless the e-mail mentions export. *)
Theorem mock_process_email_codes {U : Unicode.database}
    (raw_data : list port_entry)
    (instructions i subject body : string) :
  uppercase_codes (load_port_reference raw_data) ->
  let port_map := load_port_reference raw_data in
  let patterns := Mock.search_patterns raw_data in
  let text := Mock.segment (Mock.prompt_tail subject body) in
  let codes :=
    Mock.assign_ports (Mock.found_codes patterns text) (Mock.is_export (lower text)) in
  exists r,
    Mock.process_email patterns instructions (VStr i) subject body port_map = Ok r
    /\ origin_port_code r = codes.1
    /\ destination_port_code r = codes.2
    /\ origin_port_name r = codes.1 ≫= (port_map !!.)
    /\ destination_port_name r = codes.2 ≫= (port_map !!.)
    /\ (product_line r = Some "pl_sea_import_lcl"
        \/ product_line r = Some "pl_sea_export_lcl"
           /\ contains "export" (lower text) = true).
Proof.
  intros Hup port_map patterns text codes.
  rewrite mock_process_email_prompt.
  destruct (process_email_accepted i (Unicode.of_str (subject ++ " " ++ body))
              (Mock.smart_extract patterns port_map (Mock.prompt_tail subject body))
              port_map (smart_extract_accepted _ _ _ _)) as (weight & cbm & ->).
  eexists. split; [done|]. unfold record_of.
  destruct (smart_extract_get patterns port_map (Mock.prompt_tail subject body))
    as (-> & -> & _ & -> & _).
  fold text. fold codes.
  cbn [origin_port_code destination_port_code origin_port_name
       destination_port_name product_line].
  destruct (assign_ports_found (Mock.found_codes patterns text)
              (Mock.is_export (lower text)) (found_codes_NoDup _ _))
    as (Ho & Hd & _).
  fold codes in Ho, Hd.
  assert (Hkey : forall c, c ∈ Mock.found_codes patterns text ->
            c <> "" /\ is_Some (port_map !! c)).
  { intros c (p & Hp)%elem_of_found_codes.
    apply search_patterns_key in Hp. tauto. }
  destruct (norm_code_uppercase port_map codes.1 Hup) as [-> ->]; [by eauto|].
  destruct (norm_code_uppercase port_map codes.2 Hup) as [-> ->]; [by eauto|].
  repeat (split; [done|]).
  unfold derive. destruct (present_IN codes.2) eqn:Hdest; [by left|].
  destruct (present_IN codes.1) eqn:Horig.
  - right. split; [done|].
    pose proof (assign_ports_export _ _ Horig Hdest) as He.
    unfold Mock.is_export in He. by apply andb_prop in He as [-> _].
  - unfold fallback, Mock.guess_product_line.
    destruct (contains "export" (lower text)); [by right|by left].
Qed.

Lemma mock_process_email_codes_witness :
  let port_map := load_port_reference Scenario.entries in
  let patterns := Mock.search_patterns Scenario.entries in
  let text := Mock.segment (Mock.prompt_tail "Export" "Chennai ICD to Hong Kong") in
  let codes :=
    Mock.assign_ports (Mock.found_codes patterns text) (Mock.is_export (lower text)) in
  exists r,
    Mock.process_email (U := Unicode.latin1) patterns "Extract the shipment." (VStr "e1") "Export"
      "Chennai ICD to Hong Kong" port_map = Ok r
    /\ origin_port_code r = codes.1
    /\ destination_port_code r = codes.2
    /\ origin_port_name r = codes.1 ≫= (port_map !!.)
    /\ destination_port_name r = codes.2 ≫= (port_map !!.)
    /\ (product_line r = Some "pl_sea_import_lcl"
        \/ product_line r = Some "pl_sea_export_lcl"
           /\ contains "export" (lower text) = true).
Proof.
  apply (mock_process_email_codes (U := Unicode.latin1) Scenario.entries "Extract the shipment." "e1"
           "Export" "Chennai ICD to Hong Kong").
  intros c n H.
  assert (Hs : is_Some (load_port_reference Scenario.entries !! c)) by by eexists.
  clear H. apply load_port_reference_key in Hs as (m & _ & _ & Hin).
  unfold Scenario.entries in Hin.
  repeat (apply elem_of_cons in Hin as [[= -> ->]|Hin]; [reflexivity|]).
  by apply elem_of_nil in Hin.
Defined.


Example mock_export_record :
  Mock.process_email (U := Unicode.latin1) (Mock.search_patterns Scenario.entries)
      "Extract the shipment."
    (VStr "e1") "Export" "Chennai ICD to Hong Kong, 1,250.5 kgs, 2 cbm, CIF"
    (load_port_reference Scenario.entries)
  = Ok {| id := "e1";
          product_line := Some "pl_sea_export_lcl";
          origin_port_code := Some "INMAA";
          origin_port_name := Some "Chennai ICD";
          destination_port_code := Some "HKHKG";
          destination_port_name := Some "Hong Kong";
          incoterm := Some "CIF";
          cargo_weight_kg := Some (S754_finite false 5499757162135552 (-42));
          cargo_cbm := Some (S754_finite false 4503599627370496 (-51));
          is_dangerous := Some false |}.
Proof. vm_compute. reflexivity. Qed.


End MockMode.

Section FieldMetrics.
Import PyStr PyFloat Spec Evaluate Notions.

Lemma score_field_raise (truth pred : gmap string pyval) (l : list string) (e : exn) :
  foldl (Metrics.score_field truth pred) (Raise e) l = Raise e.
Proof. induction l as [|f l IH]; [done|]. by cbn [foldl]. Qed.

Lemma count_field_raise (truth pred : gmap string pyval) (l : list string) (e : exn) :
  foldl (count_field truth pred) (Raise e) l = Raise e.
Proof. induction l as [|f l IH]; [done|]. by cbn [foldl]. Qed.

(** The overall counters do not depend on the per-field ones. *)
Lemma score_field_overall (truth pred : gmap string pyval) (l : list string)
    (st : Metrics.report) :
  Metrics.overall <$> foldl (Metrics.score_field truth pred) (Ok st) l
  = foldl (count_field truth pred) (Ok (Metrics.overall st)) l.
Proof.
  revert st. induction l as [|f l IH]; intros st; [done|].
  cbn [foldl]. unfold Metrics.score_field at 2, count_field at 2.
  cbn [mbind result_bind].
  destruct (compare_values f _ _) as [b|e]; cbn [mbind result_bind].
  - by rewrite IH.
  - by rewrite score_field_raise, count_field_raise.
Qed.

Lemma score_fields_overall (truth pred : gmap string pyval) (st : Metrics.report) :
  Metrics.overall <$> Metrics.score_fields truth pred st
  = score_fields truth pred (Metrics.overall st).
Proof. apply score_field_overall. Qed.

Lemma correct_tally (b : bool) (c : counters) :
  correct_fields (Metrics.tally b c) = correct_fields c + Z.b2z b
  /\ total_fields (Metrics.tally b c) = total_fields c + 1.
Proof. destruct b; simpl; lia. Qed.

Lemma sum_over_cons (fm : gmap string counters) (f : string) (l : list string) :
  sum_over fm (f :: l) = correct_of fm f + sum_over fm l.
Proof. reflexivity. Qed.

Lemma sum_over_ext (fm fm' : gmap string counters) (l : list string) :
  (forall f, f ∈ l -> fm' !! f = fm !! f) -> sum_over fm' l = sum_over fm l.
Proof.
  induction l as [|f l IH]; intros H; [done|].
  rewrite !sum_over_cons, IH by (intros g Hg; apply H; by right).
  unfold correct_of. by rewrite (H f) by (by left).
Qed.

(** The inner loop over any list of distinct fields that [field_metrics]
    has: each of them is tallied once, the others are left alone, and the
    overall counters move by the same amounts. *)
Lemma score_field_inv (truth pred : gmap string pyval) (l : list string)
    (st st' : Metrics.report) :
  NoDup l ->
  (forall f, f ∈ l -> is_Some (Metrics.field_metrics st !! f)) ->
  foldl (Metrics.score_field truth pred) (Ok st) l = Ok st' ->
  (forall f, f ∉ l -> Metrics.field_metrics st' !! f = Metrics.field_metrics st !! f)
  /\ (forall f, f ∈ l ->
        exists b c, Metrics.field_metrics st !! f = Some c
                    /\ Metrics.field_metrics st' !! f = Some (Metrics.tally b c))
  /\ total_fields (Metrics.overall st')
     = total_fields (Metrics.overall st) + Z.of_nat (length l)
  /\ sum_over (Metrics.field_metrics st') l - sum_over (Metrics.field_metrics st) l
     = correct_fields (Metrics.overall st') - correct_fields (Metrics.overall st).
Proof.
  revert st. induction l as [|f l IH]; intros st Hnd Hkeys H.
  - injection H as <-. simpl.
    split; [done|]. split; [by intros f Hf%elem_of_nil|]. split; lia.
  - apply NoDup_cons in Hnd as [Hf Hnd].
    cbn [foldl] in H. unfold Metrics.score_field at 2 in H.
    cbn [mbind result_bind] in H.
    destruct (compare_values f _ _) as [b|e]; cbn [mbind result_bind] in H;
      [|by rewrite score_field_raise in H].
    destruct (Hkeys f ltac:(by left)) as [c Hc].
    apply IH in H as (Hout & Hin & Htot & Hsum); [|done|].
    2:{ intros g Hg. cbn [Metrics.field_metrics].
        rewrite lookup_alter_ne by (intros ->; done). apply Hkeys. by right. }
    cbn [Metrics.field_metrics Metrics.overall] in *.
    destruct (correct_tally b (Metrics.overall st)) as [Hcb Htb].
    assert (Hf' : Metrics.field_metrics st' !! f = Some (Metrics.tally b c)).
    { rewrite (Hout f Hf), lookup_alter_eq, Hc. done. }
    split; [|split; [|split]].
    + intros g Hg. apply not_elem_of_cons in Hg as [Hgf Hg].
      by rewrite (Hout g Hg), lookup_alter_ne.
    + intros g [->|Hg]%elem_of_cons; [by exists b, c|].
      destruct (Hin g Hg) as (b' & c' & H1 & H2). exists b', c'.
      split; [|done]. rewrite lookup_alter_ne in H1; [done|]. by intros ->.
    + rewrite Htot, Htb. cbn [length]. lia.
    + rewrite !sum_over_cons.
      assert (H1 : correct_of (Metrics.field_metrics st') f
                   = correct_of (Metrics.field_metrics st) f + Z.b2z b).
      { unfold correct_of. rewrite Hf', Hc. simpl. apply correct_tally. }
      rewrite (sum_over_ext (Metrics.field_metrics st)
                 (alter (Metrics.tally b) f (Metrics.field_metrics st)) l) in Hsum.
      * lia.
      * intros g Hg. rewrite lookup_alter_ne; [done|]. by intros ->.
Qed.

Lemma fields_NoDup : NoDup fields_to_evaluate.
Proof. apply (bool_decide_unpack _). by vm_compute. Qed.

Lemma score_fields_consistent (truth pred : gmap string pyval)
    (st st' : Metrics.report) (n : Z) :
  consistent st n -> Metrics.score_fields truth pred st = Ok st' ->
  consistent st' (n + 1).
Proof.
  intros (Htot & Hall & Hsum) H. rewrite Forall_forall in Hall.
  apply score_field_inv in H as (_ & Hin & Htot' & Hsum'); [|apply fields_NoDup|].
  2:{ intros f Hf. destruct (Hall f Hf) as (c & Hc & _). by eexists. }
  split; [|split].
  - rewrite Htot', Htot. change (length fields_to_evaluate) with 9%nat. lia.
  - apply Forall_forall. intros f Hf.
    destruct (Hin f Hf) as (b & c & Hc & Hc').
    destruct (Hall f Hf) as (c0 & Hc0 & Ht & Hcorr).
    assert (c0 = c) as -> by congruence.
    exists (Metrics.tally b c). split; [done|].
    destruct (correct_tally b c) as [-> ->]. destruct b; simpl; lia.
  - unfold sum_correct in *. lia.
Qed.

Lemma score_record_raise (outputs : gmap string (gmap string pyval))
    (l : list (string * gmap string pyval)) (e : exn) :
  foldl (Metrics.score_record outputs) (Raise e) l = Raise e.
Proof. induction l as [|x l IH]; [done|]. by cbn [foldl]. Qed.

Lemma count_record_raise (outputs : gmap string (gmap string pyval))
    (l : list (string * gmap string pyval)) (e : exn) :
  foldl (count_record outputs) (Raise e) l = Raise e.
Proof. induction l as [|x l IH]; [done|]. by cbn [foldl]. Qed.

(** The outer loop keeps the report consistent. *)
Lemma score_record_consistent (outputs : gmap string (gmap string pyval))
    (l : list (string * gmap string pyval)) (st st' : Metrics.report) (n : Z) :
  consistent st n -> foldl (Metrics.score_record outputs) (Ok st) l = Ok st' ->
  exists n', n <= n' /\ consistent st' n'.
Proof.
  revert st n. induction l as [|[k t] l IH]; intros st n Hst H.
  - injection H as <-. exists n. split; [lia|done].
  - cbn [foldl] in H. unfold Metrics.score_record at 2 in H.
    cbn [mbind result_bind fst snd] in H.
    destruct (outputs !! k) as [p|].
    + destruct (Metrics.score_fields t p st) as [st1|e] eqn:H1;
        [|by rewrite score_record_raise in H].
      apply (score_fields_consistent _ _ _ _ n Hst) in H1.
      destruct (IH _ _ H1 H) as (n' & Hn & Hc). exists n'. split; [lia|done].
    + by apply (IH _ _ Hst).
Qed.

(** The overall counters of the report are those of [evaluate_accuracy]. *)
Lemma score_record_overall (outputs : gmap string (gmap string pyval))
    (l : list (string * gmap string pyval)) (st : Metrics.report) :
  Metrics.overall <$> foldl (Metrics.score_record outputs) (Ok st) l
  = foldl (count_record outputs) (Ok (Metrics.overall st)) l.
Proof.
  revert st. induction l as [|[k t] l IH]; intros st; [done|].
  cbn [foldl]. unfold Metrics.score_record at 2, count_record at 2.
  cbn [mbind result_bind fst snd].
  destruct (outputs !! k) as [p|]; [|apply IH].
  rewrite <- score_fields_overall.
  destruct (Metrics.score_fields t p st) as [st1|e]; cbn [fmap result_fmap].
  - apply IH.
  - by rewrite score_record_raise, count_record_raise.
Qed.

Lemma count_record_loop (outputs : gmap string (gmap string pyval))
    (l : list (string * gmap string pyval)) (acc : result counters) :
  foldl (fun acc '(email_id, truth) =>
           c ← acc;
           match outputs !! email_id with
           | None => Ok c
           | Some pred => score_fields truth pred c
           end) acc l
  = foldl (count_record outputs) acc l.
Proof.
  revert acc. induction l as [|[k t] l IH]; intros acc; [done|].
  cbn [foldl]. apply IH.
Qed.

Lemma evaluate_accuracy_overall (output_items truth_items : list item) :
  (fun o : option Metrics.report => Metrics.overall <$> o)
    <$> Metrics.evaluate_accuracy output_items truth_items
  = evaluate_accuracy output_items truth_items.
Proof.
  unfold Metrics.evaluate_accuracy, evaluate_accuracy. cbn zeta.
  destruct (decide _); [done|].
  rewrite count_record_loop, <- (score_record_overall _ _
    {| Metrics.overall := Metrics.zero; Metrics.field_metrics := Metrics.field_metrics_init |}).
  by destruct (foldl _ _ _).
Qed.

Lemma consistent_init :
  consistent {| Metrics.overall := Metrics.zero;
                Metrics.field_metrics := Metrics.field_metrics_init |} 0.
Proof.
  split; [done|]. split; [|done].
  repeat constructor; by exists Metrics.zero.
Qed.

(** X26. The report of [evaluate_accuracy] is consistent: its overall
    counters are the ones counted without the per-field table, every
    field has been counted once per compared record, so that nine times
    a field's total is the overall total, its correct count lies between
    zero and its total, and the correct counts of the nine fields add up
    to the overall correct count. *)
Theorem field_metrics_consistent (output_items truth_items : list item)
    (st : Metrics.report) :
  Metrics.evaluate_accuracy output_items truth_items = Ok (Some st) ->
  evaluate_accuracy output_items truth_items = Ok (Some (Metrics.overall st))
  /\ Forall (fun f => exists c, Metrics.field_metrics st !! f = Some c
                                /\ 9 * total_fields c = total_fields (Metrics.overall st)
                                /\ 0 <= correct_fields c <= total_fields c)
            fields_to_evaluate
  /\ sum_correct (Metrics.field_metrics st) = correct_fields (Metrics.overall st).
Proof.
  intros H. split.
  - by rewrite <- evaluate_accuracy_overall, H.
  - unfold Metrics.evaluate_accuracy in H. cbn zeta in H.
    destruct (decide _) as [|Hne]; [done|].
    destruct (foldl _ _ _) as [st0|e] eqn:Hl; [|done]. injection H as ->.
    apply (score_record_consistent _ _ _ _ 0 consistent_init) in Hl
      as (n & Hn & Htot & Hall & Hsum).
    split; [|done]. eapply Forall_impl; [exact Hall|].
    intros f (c & Hc & Ht & Hcorr). exists c. split; [done|]. split; lia.
Qed.

Lemma field_metrics_consistent_witness :
  exists st,
    Metrics.evaluate_accuracy [as_item Scenario.nan_record]
      [as_item Scenario.expected; ("e2", ∅)] = Ok (Some st)
    /\ evaluate_accuracy [as_item Scenario.nan_record]
         [as_item Scenario.expected; ("e2", ∅)] = Ok (Some (Metrics.overall st))
    /\ Forall (fun f => exists c, Metrics.field_metrics st !! f = Some c
                                  /\ 9 * total_fields c = total_fields (Metrics.overall st)
                                  /\ 0 <= correct_fields c <= total_fields c)
              fields_to_evaluate
    /\ sum_correct (Metrics.field_metrics st) = correct_fields (Metrics.overall st).
Proof.
  eexists. split; [vm_compute; reflexivity|].
  apply (field_metrics_consistent [as_item Scenario.nan_record]
           [as_item Scenario.expected; ("e2", ∅)]).
  vm_compute. reflexivity.
Defined.

Example field_metrics_unmatched :
  match Metrics.evaluate_accuracy [as_item Scenario.nan_record]
          [as_item Scenario.expected; ("e2", ∅)] with
  | Ok (Some st) =>
      Metrics.field_metrics st !! "cargo_weight_kg"
      = Some {| correct_fields := 0; total_fields := 1 |}
      /\ Metrics.field_metrics st !! "incoterm"
         = Some {| correct_fields := 1; total_fields := 1 |}
  | _ => False
  end.
Proof. vm_compute. by split. Qed.

End FieldMetrics.
